(** * The stream supervisor of iptv-re-streamer (streamManager.js)

    A shallow embedding of the [StreamManager] class: the stream records,
    the manager's tables ([streams], [processes], [reconnectAttempts],
    [reconnectTimers], [screenshotTimers], [segmentHealthChecks],
    [monitors]), the part of the Node.js run time the class talks to (child
    processes, timers, the two data directories, the saved configuration),
    and the methods that start, stop, restart, delete, reconnect and check
    streams.

    Conventions.
    - A JavaScript object with a fixed shape is a record; one whose fields
      come and go ([diagnostics], [streamInfo]) is a [gmap string jsval],
      a missing key being [undefined].
    - [new Date()] is a parameter [now], in milliseconds since the epoch;
      an ISO timestamp is kept as that number.
    - What the outside world answers (the playlist analysis, whether
      [spawn] throws, what the segment directory holds, how a probe ends,
      the ids the UUID generator hands out) is an argument of the
      function or of the event that receives it.
    - A number is an integer where the code keeps integers; the reconnect
      delay, which has a fraction, is a rational rounded as the doubles
      of the code round it.
    - Logging ([this.log]) is not modelled. *)

From Stdlib Require Import Ascii String QArith Qminmax Qpower Qround.
From stdpp Require Import gmap strings list fin_maps pretty sorting.

Open Scope string_scope.
Open Scope list_scope.
Open Scope Z_scope.

(** ** JavaScript values kept in the dynamic objects *)

Inductive jsval :=
  | JNull
  | JBool (b : bool)
  | JNum (z : Z)
  | JNaN
  | JStr (s : string)
  | JTime (ms : Z).

#[global] Instance jsval_eq_dec : EqDecision jsval.
Proof. solve_decision. Defined.

(** [o.k++] on a field that may be missing: [undefined] and a string that
    is not a number give [NaN], [null] counts as 0. *)
Definition js_incr (v : option jsval) : jsval :=
  match v with
  | Some (JNum z) => JNum (z + 1)
  | Some JNull => JNum 1
  | Some (JBool b) => JNum (if b then 2 else 1)
  | Some (JTime ms) => JNaN
  | Some (JStr _) => JNaN
  | Some JNaN => JNaN
  | None => JNaN
  end.

(** A number as [parseInt] returns it: an integer or [NaN]. *)
Inductive jsint :=
  | IsInt (z : Z)
  | IsNaN.

(** ** Strings *)

Definition is_digit (a : ascii) : bool :=
  let n := nat_of_ascii a in (48 <=? n)%nat && (n <=? 57)%nat.

Definition digit_val (a : ascii) : Z := Z.of_nat (nat_of_ascii a) - 48.

(** The longest prefix of decimal digits, read as a number; [None] when
    the string does not start with a digit. *)
Fixpoint leading_digits (s : string) (acc : option Z) : option Z :=
  match s with
  | String a s' =>
      if is_digit a
      then leading_digits s' (Some (10 * default 0 acc + digit_val a))
      else acc
  | EmptyString => acc
  end.

Definition is_js_space (a : ascii) : bool :=
  let n := nat_of_ascii a in
  (n =? 32)%nat || ((9 <=? n)%nat && (n <=? 13)%nat).

Fixpoint skip_spaces (s : string) : string :=
  match s with
  | String a s' => if is_js_space a then skip_spaces s' else s
  | EmptyString => EmptyString
  end.

(** [parseInt(s)] in radix 10: leading white space, a sign, then digits up
    to the first other character.  The callers below pass digit strings
    and pieces of a [WxH] resolution, so the hexadecimal prefix [0x] never
    reaches it and is not treated. *)
Definition parseInt (s : string) : jsint :=
  match skip_spaces s with
  | String "-" r =>
      match leading_digits r None with Some z => IsInt (- z) | None => IsNaN end
  | String "+" r =>
      match leading_digits r None with Some z => IsInt z | None => IsNaN end
  | r =>
      match leading_digits r None with Some z => IsInt z | None => IsNaN end
  end.

(** [s.split(c)] for a one-character separator. *)
Fixpoint split_at_char (c : ascii) (s : string) (cur : string) : list string :=
  match s with
  | EmptyString => [cur]
  | String a s' =>
      if Ascii.eqb a c
      then cur :: split_at_char c s' EmptyString
      else split_at_char c s' (cur +:+ String a EmptyString)
  end.

Definition split (c : ascii) (s : string) : list string :=
  split_at_char c s EmptyString.

(** [s.includes(t)], [s.startsWith(t)] and [s.endsWith(t)]. *)
Definition includes (t s : string) : bool :=
  match String.index 0 t s with Some _ => true | None => false end.

Definition startsWith (t s : string) : bool := String.prefix t s.

Definition endsWith (t s : string) : bool :=
  let n := String.length s in
  let k := String.length t in
  (k <=? n)%nat && String.eqb (String.substring (n - k) k s) t.

(** Number of matches of the global pattern for a literal [t]
    ([(s.match(/t/g) || []).length]): the matches do not overlap. *)
Fixpoint count_matches_fuel (fuel : nat) (t s : string) : nat :=
  match fuel with
  | O => O
  | S fuel' =>
      match String.index 0 t s with
      | None => O
      | Some i =>
          let k := (i + String.length t)%nat in
          S (count_matches_fuel fuel' t
               (String.substring k (String.length s - k) s))
      end
  end.

Definition count_matches (t s : string) : nat :=
  count_matches_fuel (String.length s) t s.

(** The template literal [`${n}`] for a number. *)
Definition render_int (n : jsint) : string :=
  match n with
  | IsInt z => pretty z
  | IsNaN => "NaN"
  end.

(** ** Resolution labels

    The block that startStream (lines 954-958), analyzeHlsStreamInfo
    (lines 1895-1899) and _analyzeStreamResolution (lines 2505-2509) all
    repeat.  A comparison with [NaN] is false, so [NaN] falls through to
    the template. *)
Definition formatResolution (height : jsint) : string :=
  match height with
  | IsInt h =>
      if 1080 <=? h then "1080p"
      else if 720 <=? h then "720p"
      else if 480 <=? h then "480p"
      else if 360 <=? h then "360p"
      else render_int height +:+ "p"
  | IsNaN => render_int height +:+ "p"
  end.

(** [parseInt(resolution.split('x')[1])]: the height of a [WxH] string. *)
Definition resolution_height (resolution : string) : jsint :=
  match split "x" resolution !! 1%nat with
  | Some h => parseInt h
  | None => IsNaN
  end.

(** ** Stream records *)

Inductive Status := Stopped | Starting | Running | Error.
Inductive Health := Unknown | Good | Degraded | Poor | Failed.

#[global] Instance Status_eq_dec : EqDecision Status.
Proof. solve_decision. Defined.
#[global] Instance Health_eq_dec : EqDecision Health.
Proof. solve_decision. Defined.

Record Stats := mkStats {
  uptime : Z;
  restarts : Z;
  lastError : option string;
  lastRestart : option Z
}.

(** An entry of [errors.recent]: [{timestamp, type, message}]. *)
Record ErrorEntry := mkErrorEntry {
  e_timestamp : Z;
  e_type : string;
  e_message : string
}.

Record Errors := mkErrors {
  total : Z;
  byType : gmap string Z;
  recent : list ErrorEntry
}.

(** The fields of a stream object that the methods below read or write.
    [errorHistory] (always the empty array), [updatedAt] and
    [resolutionCheckCount] are left out; [errors], [streamInfo], [hlsPath]
    and [selectedResolution] are absent from a new record, and a record
    loaded from an old configuration may lack [diagnostics]. *)
Record StreamRecord := mkStream {
  stream_id : string;
  name : string;
  url : string;
  status : Status;
  health : Health;
  stats : Stats;
  diagnostics : option (gmap string jsval);
  errors : option Errors;
  streamInfo : option (gmap string jsval);
  hlsPath : option string;
  selectedResolution : option string;
  createdAt : Z
}.

Definition set_url (v : string) (s : StreamRecord) : StreamRecord :=
  mkStream (stream_id s) (name s) v (status s) (health s) (stats s)
    (diagnostics s) (errors s) (streamInfo s) (hlsPath s)
    (selectedResolution s) (createdAt s).

Definition set_status (v : Status) (s : StreamRecord) : StreamRecord :=
  mkStream (stream_id s) (name s) (url s) v (health s) (stats s)
    (diagnostics s) (errors s) (streamInfo s) (hlsPath s)
    (selectedResolution s) (createdAt s).

Definition set_health (v : Health) (s : StreamRecord) : StreamRecord :=
  mkStream (stream_id s) (name s) (url s) (status s) v (stats s)
    (diagnostics s) (errors s) (streamInfo s) (hlsPath s)
    (selectedResolution s) (createdAt s).

Definition set_stats (v : Stats) (s : StreamRecord) : StreamRecord :=
  mkStream (stream_id s) (name s) (url s) (status s) (health s) v
    (diagnostics s) (errors s) (streamInfo s) (hlsPath s)
    (selectedResolution s) (createdAt s).

Definition set_diagnostics (v : option (gmap string jsval))
    (s : StreamRecord) : StreamRecord :=
  mkStream (stream_id s) (name s) (url s) (status s) (health s) (stats s)
    v (errors s) (streamInfo s) (hlsPath s)
    (selectedResolution s) (createdAt s).

Definition set_errors (v : option Errors) (s : StreamRecord) : StreamRecord :=
  mkStream (stream_id s) (name s) (url s) (status s) (health s) (stats s)
    (diagnostics s) v (streamInfo s) (hlsPath s)
    (selectedResolution s) (createdAt s).

Definition set_streamInfo (v : option (gmap string jsval))
    (s : StreamRecord) : StreamRecord :=
  mkStream (stream_id s) (name s) (url s) (status s) (health s) (stats s)
    (diagnostics s) (errors s) v (hlsPath s)
    (selectedResolution s) (createdAt s).

Definition set_hlsPath (v : option string) (s : StreamRecord) : StreamRecord :=
  mkStream (stream_id s) (name s) (url s) (status s) (health s) (stats s)
    (diagnostics s) (errors s) (streamInfo s) v
    (selectedResolution s) (createdAt s).

Definition set_selectedResolution (v : option string)
    (s : StreamRecord) : StreamRecord :=
  mkStream (stream_id s) (name s) (url s) (status s) (health s) (stats s)
    (diagnostics s) (errors s) (streamInfo s) (hlsPath s)
    v (createdAt s).

(** [stream.diagnostics.k = v], for a record whose [diagnostics] exists. *)
Definition set_diag (k : string) (v : jsval) (s : StreamRecord) : StreamRecord :=
  set_diagnostics (Some (<[k := v]> (default ∅ (diagnostics s)))) s.

Definition get_diag (k : string) (s : StreamRecord) : option jsval :=
  d ← diagnostics s; d !! k.

(** [stream.streamInfo.k = v], for a record whose [streamInfo] exists. *)
Definition set_info (k : string) (v : jsval) (s : StreamRecord) : StreamRecord :=
  set_streamInfo (Some (<[k := v]> (default ∅ (streamInfo s)))) s.

(** ** Settings

    [process.env]: a variable that is set holds a decimal numeral, kept as
    its value (so [parseInt] and the numeric comparison read the same
    number from it); the empty string counts as unset, as for [||]. *)
Record Env := mkEnv {
  MAX_RECONNECT_ATTEMPTS : option Z;
  RECONNECT_DELAY : option Z;
  HLS_SEGMENT_TIME : option Z;
  SCREENSHOT_INTERVAL : option Z;
  MAX_BACKOFF_DELAY : option Z;
  SEGMENT_HEALTH_CHECK_INTERVAL : option Z;
  MAX_SEGMENT_AGE : option Z
}.

(** [parseInt(process.env.X || 'd')]. *)
Definition env_or (v : option Z) (d : Z) : Z := default d v.

(** The numeric fields the constructor (lines 585-598) stores on [this]. *)
Record Config := mkConfig {
  maxReconnectAttempts : Z;
  reconnectDelay : Z;
  hlsSegmentTime : Z;
  screenshotInterval : Z;
  maxBackoffDelay : Z;
  segmentHealthCheckInterval : Z;
  maxSegmentAge : Z
}.

Definition constructor (env : Env) : Config :=
  let segmentTime := env_or (HLS_SEGMENT_TIME env) 4 in
  {| maxReconnectAttempts := env_or (MAX_RECONNECT_ATTEMPTS env) 10;
     reconnectDelay := env_or (RECONNECT_DELAY env) 5 * 1000;
     hlsSegmentTime := segmentTime;
     screenshotInterval := env_or (SCREENSHOT_INTERVAL env) 60 * 1000;
     maxBackoffDelay := env_or (MAX_BACKOFF_DELAY env) 60 * 1000;
     segmentHealthCheckInterval :=
       env_or (SEGMENT_HEALTH_CHECK_INTERVAL env) 15 * 1000;
     maxSegmentAge := env_or (MAX_SEGMENT_AGE env) 3 * segmentTime * 1000 |}.

(** No variable set: the defaults. *)
Definition default_env : Env := mkEnv None None None None None None None.

(** ** The manager and the run time around it *)

(** What [analyzeHlsPlaylist] leaves in [this.selectedVariantInfo]. *)
Record VariantInfo := mkVariantInfo {
  v_resolution : option string;
  v_bandwidth : Z;
  v_height : jsint
}.

Inductive TimerKind :=
  | KUptime            (* _setupMonitoring: setInterval, 1000 ms *)
  | KScreenshot        (* startScreenshotTimer: setInterval *)
  | KSegmentHealth     (* startSegmentHealthCheck: setInterval *)
  | KReconnect         (* handleReconnect: setTimeout *)
  | KRestart           (* restartStream: setTimeout, 1000 ms *)
  | KFirstHealthCheck  (* startStream: setTimeout, 5000 ms *)
  | KResolution        (* startStream: setTimeout, 10000 ms *)
  | KStreamInfo.       (* the resolution pass: setTimeout, 5000 ms *)

#[global] Instance TimerKind_eq_dec : EqDecision TimerKind.
Proof. solve_decision. Defined.

Record Timer := mkTimer {
  t_kind : TimerKind;
  t_owner : string;
  t_delay : Q
}.

(** A child process started by [spawn]: the stream it was started for, and
    whether [kill] was called on it. *)
Record Child := mkChild {
  c_owner : string;
  c_killed : bool
}.

(** The manager's tables (the first eight fields are fields of [this]) and
    the run time: live timers and children by handle, the continuations
    that wait for a playlist analysis or for a source probe, the saved
    configuration, and the directories and preview files on disk, by
    stream id. *)
Record State := mkState {
  streams : gmap string StreamRecord;
  processes : gmap string nat;
  reconnectAttempts : gmap string nat;
  reconnectTimers : gmap string nat;
  screenshotTimers : gmap string nat;
  segmentHealthChecks : gmap string nat;
  monitors : gmap string nat;
  selectedVariantInfo : option VariantInfo;
  timers : gmap nat Timer;
  children : gmap nat Child;
  nextHandle : nat;
  pendingStarts : list string;
  pendingProbes : list string;
  saved : gmap string StreamRecord;
  hlsDirs : gset string;
  screenshotFiles : gset string
}.

Definition set_streams v (st : State) : State :=
  mkState v (processes st) (reconnectAttempts st) (reconnectTimers st)
    (screenshotTimers st) (segmentHealthChecks st) (monitors st)
    (selectedVariantInfo st) (timers st) (children st) (nextHandle st)
    (pendingStarts st) (pendingProbes st) (saved st) (hlsDirs st)
    (screenshotFiles st).

Definition set_processes v (st : State) : State :=
  mkState (streams st) v (reconnectAttempts st) (reconnectTimers st)
    (screenshotTimers st) (segmentHealthChecks st) (monitors st)
    (selectedVariantInfo st) (timers st) (children st) (nextHandle st)
    (pendingStarts st) (pendingProbes st) (saved st) (hlsDirs st)
    (screenshotFiles st).

Definition set_reconnectAttempts v (st : State) : State :=
  mkState (streams st) (processes st) v (reconnectTimers st)
    (screenshotTimers st) (segmentHealthChecks st) (monitors st)
    (selectedVariantInfo st) (timers st) (children st) (nextHandle st)
    (pendingStarts st) (pendingProbes st) (saved st) (hlsDirs st)
    (screenshotFiles st).

Definition set_reconnectTimers v (st : State) : State :=
  mkState (streams st) (processes st) (reconnectAttempts st) v
    (screenshotTimers st) (segmentHealthChecks st) (monitors st)
    (selectedVariantInfo st) (timers st) (children st) (nextHandle st)
    (pendingStarts st) (pendingProbes st) (saved st) (hlsDirs st)
    (screenshotFiles st).

Definition set_screenshotTimers v (st : State) : State :=
  mkState (streams st) (processes st) (reconnectAttempts st)
    (reconnectTimers st) v (segmentHealthChecks st) (monitors st)
    (selectedVariantInfo st) (timers st) (children st) (nextHandle st)
    (pendingStarts st) (pendingProbes st) (saved st) (hlsDirs st)
    (screenshotFiles st).

Definition set_segmentHealthChecks v (st : State) : State :=
  mkState (streams st) (processes st) (reconnectAttempts st)
    (reconnectTimers st) (screenshotTimers st) v (monitors st)
    (selectedVariantInfo st) (timers st) (children st) (nextHandle st)
    (pendingStarts st) (pendingProbes st) (saved st) (hlsDirs st)
    (screenshotFiles st).

Definition set_monitors v (st : State) : State :=
  mkState (streams st) (processes st) (reconnectAttempts st)
    (reconnectTimers st) (screenshotTimers st) (segmentHealthChecks st) v
    (selectedVariantInfo st) (timers st) (children st) (nextHandle st)
    (pendingStarts st) (pendingProbes st) (saved st) (hlsDirs st)
    (screenshotFiles st).

Definition set_selectedVariantInfo v (st : State) : State :=
  mkState (streams st) (processes st) (reconnectAttempts st)
    (reconnectTimers st) (screenshotTimers st) (segmentHealthChecks st)
    (monitors st) v (timers st) (children st) (nextHandle st)
    (pendingStarts st) (pendingProbes st) (saved st) (hlsDirs st)
    (screenshotFiles st).

Definition set_timers v (st : State) : State :=
  mkState (streams st) (processes st) (reconnectAttempts st)
    (reconnectTimers st) (screenshotTimers st) (segmentHealthChecks st)
    (monitors st) (selectedVariantInfo st) v (children st) (nextHandle st)
    (pendingStarts st) (pendingProbes st) (saved st) (hlsDirs st)
    (screenshotFiles st).

Definition set_children v (st : State) : State :=
  mkState (streams st) (processes st) (reconnectAttempts st)
    (reconnectTimers st) (screenshotTimers st) (segmentHealthChecks st)
    (monitors st) (selectedVariantInfo st) (timers st) v (nextHandle st)
    (pendingStarts st) (pendingProbes st) (saved st) (hlsDirs st)
    (screenshotFiles st).

Definition set_nextHandle v (st : State) : State :=
  mkState (streams st) (processes st) (reconnectAttempts st)
    (reconnectTimers st) (screenshotTimers st) (segmentHealthChecks st)
    (monitors st) (selectedVariantInfo st) (timers st) (children st) v
    (pendingStarts st) (pendingProbes st) (saved st) (hlsDirs st)
    (screenshotFiles st).

Definition set_pendingStarts v (st : State) : State :=
  mkState (streams st) (processes st) (reconnectAttempts st)
    (reconnectTimers st) (screenshotTimers st) (segmentHealthChecks st)
    (monitors st) (selectedVariantInfo st) (timers st) (children st)
    (nextHandle st) v (pendingProbes st) (saved st) (hlsDirs st)
    (screenshotFiles st).

Definition set_pendingProbes v (st : State) : State :=
  mkState (streams st) (processes st) (reconnectAttempts st)
    (reconnectTimers st) (screenshotTimers st) (segmentHealthChecks st)
    (monitors st) (selectedVariantInfo st) (timers st) (children st)
    (nextHandle st) (pendingStarts st) v (saved st) (hlsDirs st)
    (screenshotFiles st).

Definition set_saved v (st : State) : State :=
  mkState (streams st) (processes st) (reconnectAttempts st)
    (reconnectTimers st) (screenshotTimers st) (segmentHealthChecks st)
    (monitors st) (selectedVariantInfo st) (timers st) (children st)
    (nextHandle st) (pendingStarts st) (pendingProbes st) v (hlsDirs st)
    (screenshotFiles st).

Definition set_hlsDirs v (st : State) : State :=
  mkState (streams st) (processes st) (reconnectAttempts st)
    (reconnectTimers st) (screenshotTimers st) (segmentHealthChecks st)
    (monitors st) (selectedVariantInfo st) (timers st) (children st)
    (nextHandle st) (pendingStarts st) (pendingProbes st) (saved st) v
    (screenshotFiles st).

Definition set_screenshotFiles v (st : State) : State :=
  mkState (streams st) (processes st) (reconnectAttempts st)
    (reconnectTimers st) (screenshotTimers st) (segmentHealthChecks st)
    (monitors st) (selectedVariantInfo st) (timers st) (children st)
    (nextHandle st) (pendingStarts st) (pendingProbes st) (saved st)
    (hlsDirs st) v.

(** The manager right after its constructor ran on an empty data
    directory. *)
Definition empty_manager : State :=
  mkState ∅ ∅ ∅ ∅ ∅ ∅ ∅ None ∅ ∅ 0%nat [] [] ∅ ∅ ∅.

(** ** Small pieces shared by the methods *)

(** JavaScript truthiness of a field. *)
Definition truthy (v : option jsval) : bool :=
  match v with
  | None | Some JNull | Some JNaN => false
  | Some (JBool b) => b
  | Some (JNum z) => negb (z =? 0)
  | Some (JStr s) => negb (String.eqb s "")
  | Some (JTime _) => true
  end.

(** [l.slice(-n)]: the last [n] elements. *)
Definition slice_last {A} (n : nat) (l : list A) : list A :=
  drop (length l - n) l.

(** [this.streams[id].f = ...] when the record is there. *)
Definition update_stream (id : string) (f : StreamRecord → StreamRecord)
    (st : State) : State :=
  match streams st !! id with
  | Some s => set_streams (<[id := f s]> (streams st)) st
  | None => st
  end.

(** [saveConfig] (lines 656-678): the whole [streams] object is written to
    data/streams.json.  A write that fails is caught and logged there; it
    is taken to succeed. *)
Definition saveConfig (st : State) : State := set_saved (streams st) st.

(** [setTimeout] and [setInterval]: a fresh handle. *)
Definition setTimer (k : TimerKind) (owner : string) (delay : Q)
    (st : State) : nat * State :=
  let h := nextHandle st in
  (h, set_nextHandle (S h) (set_timers (<[h := mkTimer k owner delay]> (timers st)) st)).

(** [clearTimeout] and [clearInterval]. *)
Definition clearTimer (h : nat) (st : State) : State :=
  set_timers (delete h (timers st)) st.

Definition is_interval (k : TimerKind) : bool :=
  match k with
  | KUptime | KScreenshot | KSegmentHealth => true
  | KReconnect | KRestart | KFirstHealthCheck | KResolution | KStreamInfo => false
  end.

(** ** Reading and creating records *)

(** [getStream] (lines 755-757): [None] is the [null] of a missing id. *)
Definition getStream (id : string) (st : State) : option StreamRecord :=
  streams st !! id.

(** The [diagnostics] object that addStream, importConfig and _recordError
    create ([segmentGaps] is never read again and is left out). *)
Definition fresh_diagnostics : gmap string jsval :=
  <["lastErrorType" := JNull]> (
  <["errorCount" := JNum 0]> (
  <["networkErrors" := JNum 0]> (
  <["sourceErrors" := JNum 0]> (
  <["ffmpegErrors" := JNum 0]> (
  <["lastHealthCheck" := JNull]> (
  <["healthCheckStatus" := JNull]> ∅)))))).

(** [uuidv4()], of the uuid package, is a parameter of the method that
    calls it: [uuidv4 k] is the id the generator hands out at its call
    number [k], and [calls] is the number of ids it has handed out so
    far, so that the next call returns [uuidv4 calls]. *)

(** [addStream] (lines 759-790). *)
Definition addStream (uuidv4 : nat → string) (calls : nat) (now : Z)
    (nm u : string) (st : State) : State * StreamRecord :=
  let id := uuidv4 calls in
  let stream :=
    {| stream_id := id; name := nm; url := u;
       status := Stopped; health := Unknown;
       stats := mkStats 0 0 None None;
       diagnostics := Some fresh_diagnostics;
       errors := None; streamInfo := None; hlsPath := None;
       selectedResolution := None; createdAt := now |} in
  (saveConfig (set_streams (<[id := stream]> (streams st)) st), stream).

(** Every id of the table is one of the first [calls] ids the generator
    handed out. *)
Definition issued (uuidv4 : nat → string) (calls : nat) (st : State) : Prop :=
  ∀ id, is_Some (streams st !! id) → ∃ k, (k < calls)%nat ∧ id = uuidv4 k.

(** ** Timers of one stream *)

(** [_clearMonitoring] (lines 1220-1228). *)
Definition _clearMonitoring (id : string) (st : State) : State :=
  match monitors st !! id with
  | Some h => set_monitors (delete id (monitors st)) (clearTimer h st)
  | None => st
  end.

(** [_setupMonitoring] (lines 1195-1218). *)
Definition _setupMonitoring (id : string) (st : State) : State :=
  let st := _clearMonitoring id st in
  let '(h, st) := setTimer KUptime id 1000 st in
  set_monitors (<[id := h]> (monitors st)) st.

(** [startScreenshotTimer] (lines 2033-2043): an old interval is cleared,
    and its entry overwritten. *)
Definition startScreenshotTimer (cfg : Config) (id : string) (st : State) : State :=
  let st := match screenshotTimers st !! id with
            | Some h => clearTimer h st
            | None => st
            end in
  let '(h, st) := setTimer KScreenshot id (inject_Z (screenshotInterval cfg)) st in
  set_screenshotTimers (<[id := h]> (screenshotTimers st)) st.

(** [_clearScreenshotTimer] (lines 2046-2052). *)
Definition _clearScreenshotTimer (id : string) (st : State) : State :=
  match screenshotTimers st !! id with
  | Some h => set_screenshotTimers (delete id (screenshotTimers st)) (clearTimer h st)
  | None => st
  end.

(** [startSegmentHealthCheck] (lines 2459-2469). *)
Definition startSegmentHealthCheck (cfg : Config) (id : string) (st : State) : State :=
  let st := match segmentHealthChecks st !! id with
            | Some h => clearTimer h st
            | None => st
            end in
  let '(h, st) :=
    setTimer KSegmentHealth id (inject_Z (segmentHealthCheckInterval cfg)) st in
  set_segmentHealthChecks (<[id := h]> (segmentHealthChecks st)) st.

(** [_clearSegmentHealthCheck] (lines 2055-2061). *)
Definition _clearSegmentHealthCheck (id : string) (st : State) : State :=
  match segmentHealthChecks st !! id with
  | Some h =>
      set_segmentHealthChecks (delete id (segmentHealthChecks st)) (clearTimer h st)
  | None => st
  end.

(** The reconnect timer is cleared in line by startStream (lines 912-915)
    and stopStream (lines 1110-1113). *)
Definition clearReconnectTimer (id : string) (st : State) : State :=
  match reconnectTimers st !! id with
  | Some h => set_reconnectTimers (delete id (reconnectTimers st)) (clearTimer h st)
  | None => st
  end.

(** ** Recording errors *)

(** [recent.push(e)], then the cut to the last ten (lines 2301-2310). *)
Definition push_recent (e : ErrorEntry) (l : list ErrorEntry) : list ErrorEntry :=
  let l' := (l ++ [e])%list in
  if (10 <? length l')%nat then slice_last 10 l' else l'.

(** The [switch] on the error type (lines 2317-2330). *)
Definition bump_type_counter (errorType : string)
    (d : gmap string jsval) : gmap string jsval :=
  if String.eqb errorType "network" then <["networkErrors" := js_incr (d !! "networkErrors")]> d
  else if String.eqb errorType "source" then <["sourceErrors" := js_incr (d !! "sourceErrors")]> d
  else if String.eqb errorType "ffmpeg" then <["ffmpegErrors" := js_incr (d !! "ffmpegErrors")]> d
  else if String.eqb errorType "system" then <["systemErrors" := js_incr (d !! "systemErrors")]> d
  else d.

(** [analyzeErrorPatterns] (lines 2345-2366), the second method of that
    name in the class body and so the one in force. *)
Definition analyzeErrorPatterns_record (s : StreamRecord) : StreamRecord :=
  match errors s with
  | None => s
  | Some er =>
      if (length (recent er) <? 3)%nat then s
      else
        let lastThree := slice_last 3 (recent er) in
        match lastThree with
        | first :: _ =>
            if forallb (fun e => String.eqb (e_type e) (e_type first)) lastThree
            then match diagnostics s with
                 | Some d =>
                     set_diagnostics
                       (Some (<["consecutiveErrorCount" := JNum (Z.of_nat (length lastThree))]>
                             (<["consecutiveErrorType" := JStr (e_type first)]> d))) s
                 | None => s
                 end
            else s
        | [] => s
        end
  end.

(** The writes of [_recordError] to the record (lines 2277-2336). *)
Definition _recordError_record (now : Z) (errorType message : string)
    (s : StreamRecord) : StreamRecord :=
  let er := default (mkErrors 0 ∅ []) (errors s) in
  let d := default fresh_diagnostics (diagnostics s) in
  let entry := mkErrorEntry now errorType (String.substring 0 500 message) in
  let er := mkErrors (total er) (byType er) (push_recent entry (recent er)) in
  let d := <["lastErrorType" := JStr errorType]> d in
  let d := <["errorCount" := js_incr (d !! "errorCount")]> d in
  let d := bump_type_counter errorType d in
  let st' := mkStats (uptime (stats s)) (restarts (stats s))
               (Some ("[" +:+ errorType +:+ "] " +:+ String.substring 0 200 message))
               (lastRestart (stats s)) in
  analyzeErrorPatterns_record
    (set_stats st' (set_diagnostics (Some d) (set_errors (Some er) s))).

(** [_recordError] (lines 2274-2342). *)
Definition _recordError (now : Z) (id errorType message : string)
    (st : State) : State :=
  match streams st !! id with
  | None => st
  | Some s =>
      saveConfig
        (set_streams (<[id := _recordError_record now errorType message s]> (streams st)) st)
  end.

(** [_updateStreamHealth] (lines 1609-1647): with a health given, that
    health; without, the count of errors of the last five minutes. *)
Definition _updateStreamHealth (now : Z) (id : string) (h : option Health)
    (st : State) : State :=
  match streams st !! id with
  | None => st
  | Some s =>
      match h with
      | Some h => update_stream id (set_health h) st
      | None =>
          let rec := match errors s with Some er => recent er | None => [] end in
          let recentErrors :=
            filter (fun e => now - 5 * 60 * 1000 < e_timestamp e) rec in
          let h' :=
            if decide (status s = Running) then
              if (length recentErrors =? 0)%nat then Good
              else if (length recentErrors <=? 2)%nat then Degraded
              else Poor
            else if decide (health s = Unknown) then Good else health s in
          update_stream id (set_health h') st
      end
  end.

(** ** Reconnection *)

(** How a method ends: normally, or by throwing (a [TypeError] on a
    missing [diagnostics] object), with the state it leaves. *)
Inductive Completion :=
  | Normal (st : State)
  | Throws (st : State).

Definition state_of (c : Completion) : State :=
  match c with Normal st | Throws st => st end.

(** *** The arithmetic of the doubles

    The delay is computed in JavaScript numbers.  A product or a sum is
    the double nearest to the exact result; [Math.pow(1.5, n)] is exact
    as long as [3^n] has at most 53 bits (up to [n = 33]) and is taken to
    be the nearest double beyond.  Values outside the range of the
    doubles (from [2^1024] on) are not treated. *)

(** [p / r] rounded to the nearest integer, a tie going to the even one. *)
Definition round_half_even (p r : Z) : Z :=
  let f := p / r in
  match 2 * (p mod r) ?= r with
  | Lt => f
  | Gt => f + 1
  | Eq => if Z.even f then f else f + 1
  end.

(** The exponent of the binade of [a / b], for positive [a] and [b]: the
    [l] with [2^l <= a / b < 2^(l + 1)]. *)
Definition floor_log2 (a b : Z) : Z :=
  let d := Z.log2 a - Z.log2 b in
  if (b * 2 ^ Z.max 0 d <=? a * 2 ^ Z.max 0 (- d))%Z then d else d - 1.

(** The double nearest to a rational: 53 significant bits, round to
    nearest, a tie to the even one. *)
Definition round_double (q : Q) : Q :=
  let a := Z.abs (Qnum q) in
  let b := Zpos (Qden q) in
  if a =? 0 then 0
  else
    let e := floor_log2 a b - 52 in
    let m := round_half_even (a * 2 ^ Z.max 0 (- e)) (b * 2 ^ Z.max 0 e) in
    let v := (m * 2 ^ Z.max 0 e) # Z.to_pos (2 ^ Z.max 0 (- e)) in
    if Qnum q <? 0 then (- v)%Q else v.


(** [Math.min(baseDelay * Math.pow(1.5, attempt), this.maxBackoffDelay)]
    (line 1463), in doubles.  The two settings are integers (below 2^53
    they are doubles as they are). *)
Definition backoffDelay (cfg : Config) (attempt : nat) : Q :=
  Qmin (round_double
          (inject_Z (reconnectDelay cfg)
           * round_double (Qpower (3 # 2) (Z.of_nat attempt))))
       (inject_Z (maxBackoffDelay cfg)).

(** The time value of [new Date(x)]: the fraction is cut off. *)
Definition time_clip (x : Q) : Z :=
  if Qle_bool 0 x then Qfloor x else Qceiling x.

(** [this.reconnectAttempts[id]] once its [undefined] became 0. *)
Definition attempts_of (id : string) (st : State) : nat :=
  default 0%nat (reconnectAttempts st !! id).

(** [handleReconnect] (lines 1439-1489). *)
Definition handleReconnect (cfg : Config) (now : Z) (id : string)
    (st : State) : Completion :=
  match streams st !! id with
  | None => Normal st
  | Some s =>
      let st := match reconnectAttempts st !! id with
                | None => set_reconnectAttempts (<[id := 0%nat]> (reconnectAttempts st)) st
                | Some _ => st
                end in
      let attempt := attempts_of id st in
      if maxReconnectAttempts cfg <=? Z.of_nat attempt then
        let st := update_stream id (fun s => set_health Failed (set_status Error s)) st in
        match diagnostics s with
        | None => Throws st
        | Some _ =>
            Normal (saveConfig
              (update_stream id
                 (set_diag "healthCheckStatus" (JStr "max_reconnect_exceeded")) st))
        end
      else
        let delay := backoffDelay cfg attempt in
        match diagnostics s with
        | None => Throws st
        | Some _ =>
            let st := update_stream id (fun s =>
              set_diag "maxReconnectAttempts" (JNum (maxReconnectAttempts cfg))
                (set_diag "reconnectAttempt" (JNum (Z.of_nat attempt + 1))
                   (set_diag "nextReconnectTime"
                      (JTime (time_clip (round_double (inject_Z now + delay)))) s))) st in
            let st := saveConfig st in
            let st := set_reconnectAttempts
                        (<[id := S attempt]> (reconnectAttempts st)) st in
            let '(h, st) := setTimer KReconnect id delay st in
            Normal (set_reconnectTimers (<[id := h]> (reconnectTimers st)) st)
        end
  end.

(** How the [ffprobe] of [testSourceUrl] ends: the ten seconds pass, or it
    closes with an exit code and what it wrote to stderr. *)
Inductive ProbeOutcome :=
  | ProbeTimeout
  | ProbeClosed (code : Z) (errorOutput : string).

Definition probe_valid (o : ProbeOutcome) : bool :=
  match o with
  | ProbeTimeout => false
  | ProbeClosed code _ => code =? 0
  end.

(** [testSourceUrl] up to the promise it returns (lines 2369-2383).  The
    spawn of [ffprobe] is taken not to throw. *)
Definition testSourceUrl_begin (now : Z) (id : string) (st : State) : State :=
  match streams st !! id with
  | None => st
  | Some s =>
      let st := match diagnostics s with
                | Some _ =>
                    update_stream id (fun s =>
                      set_diag "sourceCheckInProgress" (JBool true)
                        (set_diag "lastSourceCheck" (JTime now) s)) st
                | None => st
                end in
      set_pendingProbes (id :: pendingProbes st) (saveConfig st)
  end.

(** The timeout and [close] handlers of [testSourceUrl] (lines 2384-2440):
    their writes to the record. *)
Definition probe_record (o : ProbeOutcome) (s : StreamRecord) : StreamRecord :=
  match diagnostics s with
  | None => s
  | Some _ =>
      match o with
      | ProbeTimeout =>
          set_diag "sourceCheckResult" (JStr "timeout")
            (set_diag "sourceAvailable" (JBool false)
               (set_diag "sourceCheckInProgress" (JBool false) s))
      | ProbeClosed code errorOutput =>
          let s := set_diag "sourceCheckResult"
                     (JStr (if code =? 0 then "success" else "failed"))
                     (set_diag "sourceAvailable" (JBool (code =? 0))
                        (set_diag "sourceCheckInProgress" (JBool false) s)) in
          if negb (code =? 0) && negb (String.eqb errorOutput "")
          then set_diag "sourceCheckError"
                 (JStr (String.substring 0 200 errorOutput)) s
          else s
      end
  end.

(** ** Starting *)

(** What the playlist analysis of a start hands to its continuation: the
    URL it returned, and the variant it stored in
    [this.selectedVariantInfo], if it selected one. *)
Record Analysis := mkAnalysis {
  an_selectedUrl : string;
  an_variant : option VariantInfo
}.

Inductive StartResult :=
  | StartNotFound      (* Promise.resolve(false) *)
  | StartAlreadyRunning (* Promise.resolve(true) *)
  | StartPending.      (* the promise settles in the continuation *)

(** The [diagnostics] object startStream creates when there is none
    (lines 918-932); the fields no method reads again are left out. *)
Definition start_diagnostics (cfg : Config) : gmap string jsval :=
  <["healthCheckStatus" := JStr "Unknown"]> (
  <["segmentCount" := JNum 0]> (
  <["sourceAvailable" := JNull]> (
  <["sourceCheckInProgress" := JBool false]> (
  <["sourceCheckResult" := JNull]> (
  <["sourceCheckError" := JNull]> (
  <["reconnectAttempt" := JNum 0]> (
  <["maxReconnectAttempts" := JNum (maxReconnectAttempts cfg)]> ∅))))))).

(** [path.join(this.hlsDir, id)], from the working directory. *)
Definition hls_path_of (id : string) : string := "data/hls/" +:+ id.

(** [startStream] up to the promise it returns (lines 883-935). *)
Definition startStream (cfg : Config) (id : string) (st : State)
    : State * StartResult :=
  match streams st !! id with
  | None => (st, StartNotFound)
  | Some s =>
      if decide (status s = Running) then (st, StartAlreadyRunning)
      else
        let st := update_stream id (set_status Starting) st in
        let st := saveConfig st in
        let st := set_hlsDirs ({[id]} ∪ hlsDirs st) st in
        let st := update_stream id (set_hlsPath (Some (hls_path_of id))) st in
        let st := set_reconnectAttempts (<[id := 0%nat]> (reconnectAttempts st)) st in
        let st := clearReconnectTimer id st in
        let st := update_stream id (fun s =>
                    match diagnostics s with
                    | Some _ => s
                    | None => set_diagnostics (Some (start_diagnostics cfg)) s
                    end) st in
        (set_pendingStarts (id :: pendingStarts st) st, StartPending)
  end.

(** The template literal for a value that may be [null]. *)
Definition render_code (c : option Z) : string :=
  match c with Some z => pretty z | None => "null" end.

Definition render_signal (s : option string) : string :=
  match s with Some s => s | None => "null" end.

(** The first [then] block of the continuation (lines 938-964): the URL
    and the resolution of the selected variant go into the record. *)
Definition apply_analysis (a : Analysis) (info : option VariantInfo)
    (s : StreamRecord) : StreamRecord * bool :=
  if String.eqb (an_selectedUrl a) "" then (s, false)
  else
    let s := set_url (an_selectedUrl a) s in
    match info with
    | Some vi =>
        match v_resolution vi with
        | Some resolution =>
            if String.eqb resolution "" then (s, false)
            else
              let s := set_selectedResolution (Some resolution) s in
              let s := match streamInfo s with
                       | Some _ => s
                       | None => set_streamInfo (Some ∅) s
                       end in
              (set_info "resolution"
                 (JStr (formatResolution (resolution_height resolution))) s, true)
        | None => (s, false)
        end
    | None => (s, false)
    end.

(** The continuation of [startStream] (lines 937-1088), run when the
    playlist analysis has settled.  [spawn_error] is the message of the
    exception [spawn] threw, if it threw.  The code writes the URL, the
    resolution and the status through the [stream] object it captured at
    the call (line 884); here they are written to the record the table
    holds under the id.  The two are the same record unless the record
    was removed or replaced between the call and its continuation
    (deleteStream, importConfig); the properties of the continuation
    below are stated for states where it was not.  A launched child is
    entered in [children]: it is there until its [exit] event. *)
Definition startStream_resume (cfg : Config) (now : Z) (id : string)
    (a : Analysis) (spawn_error : option string) (st : State) : State * bool :=
  let st := match an_variant a with
            | Some vi => set_selectedVariantInfo (Some vi) st
            | None => st
            end in
  let st := match streams st !! id with
            | Some s =>
                let '(s', save) := apply_analysis a (selectedVariantInfo st) s in
                let st := set_streams (<[id := s']> (streams st)) st in
                if save then saveConfig st else st
            | None => st
            end in
  match spawn_error with
  | None =>
      let pid := nextHandle st in
      let st := set_nextHandle (S pid) st in
      let st := set_children (<[pid := mkChild id false]> (children st)) st in
      let st := set_processes (<[id := pid]> (processes st)) st in
      let st := update_stream id (set_status Running) st in
      let st := _setupMonitoring id st in
      let st := startScreenshotTimer cfg id st in
      let st := startSegmentHealthCheck cfg id st in
      let st := snd (setTimer KFirstHealthCheck id 5000 st) in
      let st := snd (setTimer KResolution id 10000 st) in
      (saveConfig st, true)
  | Some msg =>
      let st := update_stream id (set_status Error) st in
      let st := _recordError now id "system" ("Failed to start: " +:+ msg) st in
      (saveConfig st, false)
  end.

(** ** Stopping, restarting, deleting *)

(** [process.kill('SIGTERM')]: the child is signalled; with a valid signal
    name the call does not throw (on a child that is gone it returns
    false), so the [catch] of stopStream has nothing to catch. *)
Definition kill (pid : nat) (st : State) : State :=
  match children st !! pid with
  | Some c => set_children (<[pid := mkChild (c_owner c) true]> (children st)) st
  | None => st
  end.

(** [stopStream] (lines 1092-1133). *)
Definition stopStream (id : string) (st : State) : State * bool :=
  match streams st !! id with
  | None => (st, false)
  | Some s =>
      if decide (status s = Stopped) then (st, true)
      else
        let st := match processes st !! id with
                  | Some pid => set_processes (delete id (processes st)) (kill pid st)
                  | None => st
                  end in
        let st := clearReconnectTimer id st in
        let st := _clearScreenshotTimer id st in
        let st := _clearSegmentHealthCheck id st in
        let st := _clearMonitoring id st in
        let st := update_stream id (fun s => set_health Unknown (set_status Stopped s)) st in
        (saveConfig st, true)
  end.

(** [restartStream] (lines 1135-1156): the start is left to a timer. *)
Definition restartStream (id : string) (st : State) : State * bool :=
  match streams st !! id with
  | None => (st, false)
  | Some _ =>
      let '(st, success) := stopStream id st in
      if negb success then (st, false)
      else
        let st := update_stream id (fun s =>
                    set_stats (mkStats (uptime (stats s)) 0 (lastError (stats s))
                                 (lastRestart (stats s))) s) st in
        (snd (setTimer KRestart id 1000 st), true)
  end.

(** [deleteStream] (lines 831-881).  The removals of the directory
    ([fs.rm], recursive and forced) and of the preview file are taken to
    succeed; a failure is only logged there. *)
Definition deleteStream (id : string) (st : State) : State * bool :=
  match streams st !! id with
  | None => (st, false)
  | Some s =>
      let st := if decide (status s = Running) then fst (stopStream id st) else st in
      let st := set_hlsDirs (hlsDirs st ∖ {[id]}) st in
      let st := set_screenshotFiles (screenshotFiles st ∖ {[id]}) st in
      let st := _clearScreenshotTimer id st in
      let st := _clearSegmentHealthCheck id st in
      let st := _clearMonitoring id st in
      let st := set_streams (delete id (streams st)) st in
      let st := set_processes (delete id (processes st)) st in
      (saveConfig st, true)
  end.

(** ** The exit of a child *)

(** The [exit] listener of a launched child (lines 1013-1030). *)
Definition onProcessExit (cfg : Config) (now : Z) (id : string)
    (code : option Z) (signal : option string) (st : State) : Completion :=
  match streams st !! id with
  | Some s =>
      if decide (status s = Running) then
        let st := _recordError now id "ffmpeg"
                    ("Process exited with code " +:+ render_code code +:+
                     " and signal " +:+ render_signal signal) st in
        let st := update_stream id (set_status Error) st in
        let st := set_processes (delete id (processes st)) st in
        handleReconnect cfg now id st
      else Normal st
  | None => Normal st
  end.

(** The [data] listener on the child's stderr (lines 1033-1048). *)
Definition onStderr (now : Z) (id : string) (output : string) (st : State) : State :=
  if includes "Error" output || includes "error" output || includes "failed" output
  then
    let cut := String.substring 0 100 output in
    if includes "Connection refused" output || includes "Connection reset" output
    then _recordError now id "network" ("Connection error: " +:+ cut) st
    else if includes "404" output || includes "403" output
    then _recordError now id "source" ("Source error: " +:+ cut) st
    else if includes "Invalid data" output || includes "Error while decoding" output
    then _recordError now id "format" ("Format error: " +:+ cut) st
    else _recordError now id "ffmpeg" ("FFmpeg error: " +:+ cut) st
  else st.

(** ** The segment health check *)

(** What the check finds in the stream's directory: reading the playlist
    throws, or there is a playlist or none, and the directory lists these
    files with their modification times (milliseconds). *)
Inductive DirView :=
  | DirFails (message : string)
  | DirReads (playlist : option string) (files : list (string * Z)).

(** [sort((a, b) => b.time - a.time)]: newest first, files of equal time
    in the order the directory listed them. *)
Fixpoint insert_newest_first (x : string * Z) (l : list (string * Z))
    : list (string * Z) :=
  match l with
  | [] => [x]
  | y :: l' =>
      if snd y <? snd x then x :: y :: l'
      else y :: insert_newest_first x l'
  end.

Definition sort_newest_first (l : list (string * Z)) : list (string * Z) :=
  foldl (fun acc x => insert_newest_first x acc) [] l.

(** [(Date.now() - time) / 1000 > maxSegmentAge], with
    [maxSegmentAge = process.env.MAX_SEGMENT_AGE || 30] (lines 2639-2647),
    both sides in milliseconds. *)
Definition segment_too_old (env : Env) (now time : Z) : bool :=
  env_or (MAX_SEGMENT_AGE env) 30 * 1000 <? now - time.

(** [Math.round(segmentAge)], in seconds. *)
Definition rounded_age (now time : Z) : Z := (now - time + 500) / 1000.

(** One of the failing exits of the check: the error is recorded, the
    status text set, the health made poor. *)
Definition check_fails (now : Z) (id : string) (errorType message text : string)
    (st : State) : State :=
  let st := _recordError now id errorType message st in
  let st := update_stream id (set_diag "healthCheckStatus" (JStr text)) st in
  _updateStreamHealth now id (Some Poor) st.

(** [checkStreamSegmentHealth] (lines 2564-2677).  [resolution] is what
    [_analyzeStreamResolution] returns when the check asks for it. *)
Definition checkStreamSegmentHealth (env : Env) (now : Z) (id : string)
    (dir : DirView) (resolution : option string) (st : State) : State :=
  match streams st !! id with
  | None => st
  | Some s =>
      if decide (status s = Running) then
        let st := match hlsPath s with
                  | Some p => if String.eqb p "" then update_stream id (set_hlsPath (Some (hls_path_of id))) st else st
                  | None => update_stream id (set_hlsPath (Some (hls_path_of id))) st
                  end in
        let st := set_hlsDirs ({[id]} ∪ hlsDirs st) st in
        let st := update_stream id (fun s =>
                    match diagnostics s with
                    | Some _ => s
                    | None =>
                        set_diagnostics
                          (Some (<["lastHealthCheck" := JNull]>
                                (<["segmentCount" := JNum 0]>
                                (<["healthCheckStatus" := JStr "Unknown"]> ∅)))) s
                    end) st in
        let st := update_stream id (set_diag "lastHealthCheck" (JTime now)) st in
        match dir with
        | DirFails message =>
            check_fails now id "system" ("Health check error: " +:+ message)
              "Check error" st
        | DirReads None _ =>
            check_fails now id "segment" "Playlist file not found" "No playlist" st
        | DirReads (Some content) files =>
            let segmentCount := count_matches ".ts" content in
            let st := update_stream id
                        (set_diag "segmentCount" (JNum (Z.of_nat segmentCount))) st in
            if (segmentCount =? 0)%nat then
              check_fails now id "segment" "No segments in playlist" "No segments" st
            else
              match sort_newest_first (filter (fun f => endsWith ".ts" (fst f) = true) files) with
              | [] =>
                  check_fails now id "segment" "No segment files in directory"
                    "No segment files" st
              | latestSegment :: _ =>
                  let age := rounded_age now (snd latestSegment) in
                  let st := update_stream id (fun s =>
                              set_diag "latestSegmentAge" (JNum age)
                                (set_diag "latestSegment" (JStr (fst latestSegment)) s)) st in
                  if segment_too_old env now (snd latestSegment) then
                    check_fails now id "segment"
                      ("Latest segment is too old (" +:+ pretty age +:+ "s)")
                      "Stale segments" st
                  else
                    let st := update_stream id
                                (set_diag "healthCheckStatus" (JStr "Healthy")) st in
                    let st := _updateStreamHealth now id (Some Good) st in
                    match streams st !! id with
                    | Some s' =>
                        if truthy (i ← streamInfo s'; i !! "resolution") then st
                        else
                          match resolution with
                          | Some r =>
                              if String.eqb r "" then st
                              else
                                let st := update_stream id (fun s =>
                                            match streamInfo s with
                                            | Some _ => s
                                            | None => set_streamInfo (Some ∅) s
                                            end) st in
                                saveConfig (update_stream id (set_info "resolution" (JStr r)) st)
                          | None => st
                          end
                    | None => st
                    end
              end
        end
      else st
  end.

(** ** The other timer callbacks *)

(** The uptime interval of [_setupMonitoring] (lines 1201-1214). *)
Definition uptime_tick (id : string) (st : State) : State :=
  match streams st !! id with
  | Some s =>
      if decide (status s = Running) then
        let up := uptime (stats s) + 1 in
        let st := update_stream id (fun s =>
                    set_stats (mkStats up (restarts (stats s)) (lastError (stats s))
                                 (lastRestart (stats s))) s) st in
        if up mod 300 =? 0 then saveConfig st else st
      else st
  | None => st
  end.

(** [takeScreenshot] (lines 1745-1775): when the stream runs and ffmpeg
    succeeds, the preview file is (over)written. *)
Definition takeScreenshot (id : string) (ffmpeg_ok : bool) (st : State) : State * bool :=
  match streams st !! id with
  | Some s =>
      if decide (status s = Running) then
        if ffmpeg_ok
        then (set_screenshotFiles ({[id]} ∪ screenshotFiles st) st, true)
        else (st, false)
      else (st, false)
  | None => (st, false)
  end.

(** The resolution pass that [startStream] schedules (lines 1056-1071);
    it schedules the stream-info pass in turn. *)
Definition resolution_pass (id : string) (resolution : option string)
    (st : State) : State :=
  let st := match streams st !! id, resolution with
            | Some _, Some r =>
                if String.eqb r "" then st
                else
                  let st := update_stream id (fun s =>
                              match streamInfo s with
                              | Some _ => s
                              | None => set_streamInfo (Some ∅) s
                              end) st in
                  saveConfig (update_stream id (set_info "resolution" (JStr r)) st)
            | _, _ => st
            end in
  snd (setTimer KStreamInfo id 5000 st).

(** [analyzeHlsStreamInfo] (lines 1778-2001), as far as the record goes:
    [found] holds the fields that the playlist, ffprobe and the segment
    sizes gave in this pass; a codec, resolution or frame rate still
    missing gets its sentinel. *)
Definition analyzeHlsStreamInfo (id : string) (found : gmap string jsval)
    (st : State) : State * bool :=
  match streams st !! id with
  | None => (st, false)
  | Some s =>
      if decide (status s = Running) then
        if bool_decide (id ∈ hlsDirs st) && bool_decide (is_Some (hlsPath s)) then
          let info := found ∪ default ∅ (streamInfo s) in
          let info := if truthy (info !! "videoCodec") then info
                      else <["videoCodec" := JStr "UNKNOWN"]> info in
          let info := if truthy (info !! "resolution") then info
                      else <["resolution" := JStr "UNKNOWN"]> info in
          let info := if truthy (info !! "fps") then info
                      else <["fps" := JNum 0]> info in
          (saveConfig (update_stream id (set_streamInfo (Some info)) st), true)
        else (update_stream id (fun s =>
                match streamInfo s with
                | Some _ => s
                | None => set_streamInfo (Some ∅) s
                end) st, false)
      else (st, false)
  end.

(** ** The supervisor as a machine

    One event is one run-to-completion callback of the event loop: a call
    from the admin API, the continuation of a start, an event of a child,
    a timer that fires, a probe that ends.  Records are created and
    deleted outside this machine. *)

(** What a timer callback reads from the outside world. *)
Record Observation := mkObservation {
  o_dir : DirView;
  o_resolution : option string;
  o_found : gmap string jsval;
  o_ffmpeg_ok : bool
}.

Inductive Event :=
  | EvStart (id : string)
  | EvLaunch (id : string) (a : Analysis) (spawn_error : option string)
  | EvStop (id : string)
  | EvRestart (id : string)
  | EvExit (pid : nat) (code : option Z) (signal : option string)
  | EvStderr (pid : nat) (output : string)
  | EvTimer (h : nat) (o : Observation)
  | EvProbe (id : string) (o : ProbeOutcome).

Fixpoint remove_first (id : string) (l : list string) : list string :=
  match l with
  | [] => []
  | x :: l' => if String.eqb x id then l' else x :: remove_first id l'
  end.

Definition is_pending (id : string) (l : list string) : bool :=
  existsb (String.eqb id) l.

(** The callback of a timer, by the kind of timer. *)
Definition timer_callback (env : Env) (now : Z) (t : Timer) (o : Observation)
    (st : State) : State :=
  let cfg := constructor env in
  let id := t_owner t in
  match t_kind t with
  | KUptime => uptime_tick id st
  | KScreenshot => fst (takeScreenshot id (o_ffmpeg_ok o) st)
  | KSegmentHealth | KFirstHealthCheck =>
      checkStreamSegmentHealth env now id (o_dir o) (o_resolution o) st
  | KReconnect => testSourceUrl_begin now id st
  | KRestart => fst (startStream cfg id st)
  | KResolution => resolution_pass id (o_resolution o) st
  | KStreamInfo => fst (analyzeHlsStreamInfo id (o_found o) st)
  end.

(** The [then] of the reconnect timer (lines 1479-1487), once the probe
    has ended. *)
Definition after_probe (cfg : Config) (now : Z) (id : string) (o : ProbeOutcome)
    (st : State) : State :=
  let st := saveConfig (update_stream id (probe_record o) st) in
  if probe_valid o then fst (startStream cfg id st)
  else state_of (handleReconnect cfg now id st).

Definition step (env : Env) (now : Z) (e : Event) (st : State) : State :=
  let cfg := constructor env in
  match e with
  | EvStart id => fst (startStream cfg id st)
  | EvLaunch id a spawn_error =>
      if is_pending id (pendingStarts st) then
        fst (startStream_resume cfg now id a spawn_error
               (set_pendingStarts (remove_first id (pendingStarts st)) st))
      else st
  | EvStop id => fst (stopStream id st)
  | EvRestart id => fst (restartStream id st)
  | EvExit pid code signal =>
      match children st !! pid with
      | Some c =>
          state_of (onProcessExit cfg now (c_owner c) code signal
                      (set_children (delete pid (children st)) st))
      | None => st
      end
  | EvStderr pid output =>
      match children st !! pid with
      | Some c => onStderr now (c_owner c) output st
      | None => st
      end
  | EvTimer h o =>
      match timers st !! h with
      | Some t =>
          timer_callback env now t o
            (if is_interval (t_kind t) then st else clearTimer h st)
      | None => st
      end
  | EvProbe id o =>
      if is_pending id (pendingProbes st) then
        after_probe cfg now id o
          (set_pendingProbes (remove_first id (pendingProbes st)) st)
      else st
  end.

(** A run: the events in order, each with the time it happens at. *)
Definition run (env : Env) (tr : list (Z * Event)) (st : State) : State :=
  foldl (fun st te => step env (fst te) (snd te) st) st tr.

(** The steps of the lifecycle proper: start (the call and its
    continuation), stop, restart, and the exit of a child. *)
Definition lifecycle_event (e : Event) : bool :=
  match e with
  | EvStart _ | EvLaunch _ _ _ | EvStop _ | EvRestart _ | EvExit _ _ _ => true
  | EvStderr _ _ | EvTimer _ _ | EvProbe _ _ => false
  end.

(** ** Fetching and analysing the source playlist *)

(** What one HTTP GET answers: a response with its status code, its
    [Location] header and its body, or an error of the socket. *)
Inductive HttpResult :=
  | HttpResponse (statusCode : Z) (location : option string) (body : string)
  | HttpError (message : string).

(** A promise that settled. *)
Inductive Settled (A : Type) :=
  | Resolved (a : A)
  | Rejected (message : string).
Arguments Resolved {A} a.
Arguments Rejected {A} message.

(** A variant of a master playlist, as the parsing loop collects it. *)
Record Variant := mkVariant {
  var_url : string;
  var_resolution : option string;
  var_bandwidth : Z;
  var_height : jsint
}.

(** [variants.sort((a, b) => b.bandwidth - a.bandwidth)]: highest
    bandwidth first, equal bandwidths in the order they were parsed. *)
Fixpoint insert_by_bandwidth (x : Variant) (l : list Variant) : list Variant :=
  match l with
  | [] => [x]
  | y :: l' =>
      if var_bandwidth y <? var_bandwidth x then x :: y :: l'
      else y :: insert_by_bandwidth x l'
  end.

Definition sort_by_bandwidth (l : list Variant) : list Variant :=
  foldl (fun acc x => insert_by_bandwidth x acc) [] l.

Section Playlist.

(** The network at the time of the analysis; the origin
    [protocol//host] of an absolute URL, as [new URL(url)] gives it; and
    the loop that reads the variants off the lines of a master playlist
    (lines 2208-2240), which is regular-expression matching on text and
    is kept as a parameter. *)
Variable net : string → HttpResult.
Variable origin : string → string.
Variable parseVariants : string → string → list Variant.

(** [fetchUrl] (lines 2143-2195); [maxRedirects] is 5 at the call. *)
Fixpoint fetchUrl (u : string) (maxRedirects : nat) : Settled string :=
  match net u with
  | HttpError message => Rejected message
  | HttpResponse statusCode location body =>
      let redirect :=
        match location with
        | Some l =>
            if (300 <=? statusCode) && (statusCode <? 400) && negb (String.eqb l "")
            then Some l else None
        | None => None
        end in
      match redirect with
      | Some l =>
          match maxRedirects with
          | O => Rejected "Too many redirects"
          | S k =>
              let redirectUrl :=
                if startsWith "http" l then l else origin u +:+ l in
              fetchUrl redirectUrl k
          end
      | None =>
          if statusCode =? 200 then Resolved body
          else Rejected ("Request failed with status code " +:+ pretty statusCode)
      end
  end.

(** [analyzeHlsPlaylist] (lines 2136-2271): the promise of the async
    method, with the URL it returns and the variant it stores in
    [this.selectedVariantInfo] when it selects one.  A fetch that is
    rejected is caught (lines 2260-2263), and the original URL
    returned. *)
Definition analyzeHlsPlaylist (u : string) : Settled Analysis :=
  match fetchUrl u 5 with
  | Resolved content =>
      if includes "#EXT-X-STREAM-INF" content then
        match sort_by_bandwidth (parseVariants u content) with
        | selectedVariant :: _ =>
            Resolved
              (mkAnalysis (var_url selectedVariant)
                 (Some (mkVariantInfo (var_resolution selectedVariant)
                          (var_bandwidth selectedVariant)
                          (var_height selectedVariant))))
        | [] => Resolved (mkAnalysis u None)
        end
      else Resolved (mkAnalysis u None)
  | Rejected _ => Resolved (mkAnalysis u None)
  end.

(** The URL that needs [n] redirects at least: the [n] first answers on
    the way from [u] are redirects. *)
Fixpoint redirects_at_least (n : nat) (u : string) : Prop :=
  match n with
  | O => True
  | S k =>
      match net u with
      | HttpResponse statusCode (Some l) _ =>
          300 <= statusCode < 400 ∧ l ≠ "" ∧
          redirects_at_least k (if startsWith "http" l then l else origin u +:+ l)
      | _ => False
      end
  end.

End Playlist.

(** ** Reading a record in a state *)

Definition status_of (id : string) (st : State) : option Status :=
  status <$> streams st !! id.

Definition health_of (id : string) (st : State) : option Health :=
  health <$> streams st !! id.

(** [this.streams[id].diagnostics[k]]. *)
Definition diag_of (id k : string) (st : State) : option jsval :=
  s ← streams st !! id; get_diag k s.

(** The record of an id that is known to be there. *)
Definition record_of (id : string) (st : State) : StreamRecord :=
  default (mkStream id "" "" Stopped Unknown (mkStats 0 0 None None)
             None None None None None 0)
          (streams st !! id).

(** ** Recording a series of errors *)

(** [errors.recent] of a record, empty while [errors] is not there. *)
Definition recent_of (s : StreamRecord) : list ErrorEntry :=
  match errors s with Some er => recent er | None => [] end.

(** The entry that [_recordError] makes of one error. *)
Definition entry_of (e : Z * string * string) : ErrorEntry :=
  mkErrorEntry (fst (fst e)) (snd (fst e)) (String.substring 0 500 (snd e)).

(** [_recordError] called once for each error [(time, type, message)] of
    a list, in order. *)
Definition record_errors (id : string) (l : list (Z * string * string))
    (st : State) : State :=
  foldl (fun st e => _recordError (fst (fst e)) id (snd (fst e)) (snd e) st) st l.

(** ** The lifecycle of a stream in the machine *)

(** A function on records that leaves the status alone. *)
Definition keeps_status (f : StreamRecord → StreamRecord) : Prop :=
  ∀ s, status (f s) = status s.

(** The status map and the process table are as before. *)
Definition quiet (st st' : State) : Prop :=
  status <$> streams st' = status <$> streams st ∧ processes st' = processes st.

(** What one event does to the status map and the process table: nothing,
    or it marks the stream of the event as starting or in error, or it
    launches it, or it drops its handle.  [may_fail] tells whether the
    event may leave the error mark while the handle stays. *)
Inductive lifecycle_step (may_fail : bool) (id : string) (st st' : State) : Prop :=
  | ls_none :
      quiet st st' → lifecycle_step may_fail id st st'
  | ls_starting :
      status <$> streams st' = alter (fun _ => Starting) id (status <$> streams st) →
      processes st' = processes st →
      lifecycle_step may_fail id st st'
  | ls_error :
      may_fail = true →
      status <$> streams st' = alter (fun _ => Error) id (status <$> streams st) →
      processes st' = processes st →
      lifecycle_step may_fail id st st'
  | ls_launch (pid : nat) :
      status <$> streams st' = alter (fun _ => Running) id (status <$> streams st) →
      processes st' = <[id := pid]> (processes st) →
      lifecycle_step may_fail id st st'
  | ls_drop (v : Status) :
      v ≠ Running →
      status <$> streams st' = alter (fun _ => v) id (status <$> streams st) →
      processes st' = delete id (processes st) →
      lifecycle_step may_fail id st st'.

(** The events after which a record may read error while its handle
    stays: a launch that throws, and the end of a probe. *)
Definition may_mark_error (e : Event) : bool :=
  match e with
  | EvLaunch _ _ (Some _) | EvProbe _ _ => true
  | _ => false
  end.

(** The stream an event is about. *)
Definition event_stream (e : Event) (st : State) : string :=
  match e with
  | EvStart id | EvLaunch id _ _ | EvStop id | EvRestart id | EvProbe id _ => id
  | EvExit pid _ _ | EvStderr pid _ =>
      match children st !! pid with Some c => c_owner c | None => "" end
  | EvTimer h _ =>
      match timers st !! h with Some t => t_owner t | None => "" end
  end.

(** No continuation of a start is under way.  A continuation writes the
    URL and the status through the record it captured at its call; in a
    run of the machine that begins in such a state every continuation
    belongs to a call of the run, and no event of the machine removes or
    replaces a record, so the captured record is the one in the table. *)
Definition no_start_pending (st : State) : Prop := pendingStarts st = [].

(** A running record has a handle in the process table, a stopped one has
    none. *)
Definition lifecycle_ok (st : State) : Prop :=
  ∀ id,
    (status_of id st = Some Running → is_Some (processes st !! id)) ∧
    (status_of id st = Some Stopped → processes st !! id = None).

(** A record in error has no handle in the process table. *)
Definition error_unregistered (st : State) : Prop :=
  ∀ id, status_of id st = Some Error → processes st !! id = None.

(** In this run every launch that throws does so while no handle is
    registered for its stream. *)
Fixpoint failed_launches_unregistered (env : Env) (tr : list (Z * Event))
    (st : State) : Prop :=
  match tr with
  | [] => True
  | te :: tr' =>
      match snd te with
      | EvLaunch id _ (Some _) => processes st !! id = None
      | _ => True
      end ∧
      failed_launches_unregistered env tr' (step env (fst te) (snd te) st)
  end.

(** The fields that clearing a timer of a stream leaves alone. *)
Definition same_but_timers (st st' : State) : Prop :=
  streams st' = streams st ∧ processes st' = processes st ∧
  children st' = children st ∧
  hlsDirs st' = hlsDirs st ∧ screenshotFiles st' = screenshotFiles st.

(** ** A sample run

    One stream is added to an empty manager, started (the analysis keeps
    the URL, the launch succeeds), and its child then exits with code 1:
    the states in between serve as concrete inputs below. *)

Definition sample_url : string := "http://src/video.m3u8".

(** A generator for the sample runs.  It hands out cam1, cam2, cam20,
    cam200 and so on: no id twice. *)
Fixpoint zeros (k : nat) : string :=
  match k with
  | O => ""
  | S k => String "0" (zeros k)
  end.

Definition sample_uuid (k : nat) : string :=
  match k with
  | O => "cam1"
  | S k => "cam2" +:+ zeros k
  end.

Definition sample_added : State :=
  fst (addStream sample_uuid 0 1000 "Camera" sample_url empty_manager).

Definition sample_analysis : Analysis := mkAnalysis sample_url None.

Definition sample_starting : State :=
  run default_env [(2000, EvStart "cam1")] sample_added.

Definition sample_running : State :=
  run default_env [(2100, EvLaunch "cam1" sample_analysis None)] sample_starting.

Definition sample_crashed : State :=
  run default_env [(9000, EvExit 0%nat (Some 1) None)] sample_running.

(** Twelve errors, one a second, for the sample stream. *)
Definition twelve_errors : list (Z * string * string) :=
  map (fun n => (Z.of_nat n * 1000, "network", "Connection error: refused"))
      (seq 1 12).

(** The reconnect cycle of the sample stream once its child is gone: the
    reconnect timer fires, the probe of the source fails, the next timer
    is set.  After nine failed probes the tenth timer has fired. *)
Definition no_observation : Observation :=
  mkObservation (DirReads None []) None ∅ false.

Definition failed_probe : ProbeOutcome := ProbeClosed 1 "Connection refused".

Definition reconnect_cycle (k : nat) : list (Z * Event) :=
  [ (10000 + 100000 * Z.of_nat k, EvTimer (6 + k) no_observation);
    (10100 + 100000 * Z.of_nat k, EvProbe "cam1" failed_probe) ].

Definition sample_exhausted : State :=
  run default_env
    (flat_map reconnect_cycle (seq 0 9) ++ [(2000000, EvTimer 15%nat no_observation)])
    sample_crashed.

(** The directory of the sample stream at time 100000: a playlist that
    lists two segments, the newer one written at 80000, twenty seconds
    before. *)
Definition sample_playlist : string :=
  "#EXTM3U
#EXT-X-TARGETDURATION:2
#EXTINF:2.000000,
segment_000.ts
#EXTINF:2.000000,
segment_001.ts
".

Definition sample_dir : DirView :=
  DirReads (Some sample_playlist)
    [("playlist.m3u8", 80000); ("segment_000.ts", 78000); ("segment_001.ts", 80000)].

(** Two starts of the sample stream that overlap: the second is called
    while the analysis of the first is under way; the launch of the first
    succeeds, the launch of the second throws. *)
Definition overlapping_starts : list (Z * Event) :=
  [ (2000, EvStart "cam1");
    (2050, EvStart "cam1");
    (2100, EvLaunch "cam1" sample_analysis None);
    (2150, EvLaunch "cam1" sample_analysis (Some "spawn ENOMEM")) ].

(** Settings with the cap raised to 10^9 ms, the rest as by default. *)
Definition high_cap_env : Env :=
  mkEnv None None None None (Some 1000000) None None.

(** The delays of the default settings: base 5000 ms, cap 60000 ms. *)
Definition default_delays : list Q :=
  [5000; 7500; 11250; 16875; 50625 # 2; 151875 # 4; 455625 # 8]%Q.

(** A network on which every URL answers 302 with the same location, and
    the pieces the analysis needs besides. *)
Definition always_redirect (u : string) : HttpResult :=
  HttpResponse 302 (Some "http://src/next.m3u8") "".

Definition no_origin (u : string) : string := "http://src".

Definition no_variants (u content : string) : list Variant := [].

(** A launch that throws with no other start under way, a second start
    that succeeds, and the exit of its child. *)
Definition failed_then_started : list (Z * Event) :=
  [ (2000, EvStart "cam1");
    (2100, EvLaunch "cam1" sample_analysis (Some "spawn ENOMEM"));
    (3000, EvStart "cam1");
    (3100, EvLaunch "cam1" sample_analysis None);
    (9000, EvExit 0%nat (Some 1) None) ].

(** A master playlist with three variants, the two best of equal
    bandwidth, on a network that answers every request with it. *)
Definition sample_master : string :=
  "#EXTM3U
#EXT-X-STREAM-INF:BANDWIDTH=800000,RESOLUTION=640x360
low.m3u8
#EXT-X-STREAM-INF:BANDWIDTH=2800000,RESOLUTION=1280x720
mid.m3u8
#EXT-X-STREAM-INF:BANDWIDTH=2800000,RESOLUTION=1920x1080
high.m3u8
".

Definition master_net (u : string) : HttpResult :=
  HttpResponse 200 None sample_master.

Definition three_variants (u content : string) : list Variant :=
  [ mkVariant "http://src/low.m3u8" (Some "640x360") 800000 (IsInt 360);
    mkVariant "http://src/mid.m3u8" (Some "1280x720") 2800000 (IsInt 720);
    mkVariant "http://src/high.m3u8" (Some "1920x1080") 2800000 (IsInt 1080) ].

(** ** Updating a record, and taking stock *)



(** The counters [getHealthStatus] returns. *)
Record HealthStatus := mkHealthStatus {
  hs_running : nat;
  hs_stopped : nat;
  hs_error : nat;
  hs_good : nat;
  hs_degraded : nat;
  hs_failed : nat;
  hs_unknown : nat
}.

(** The body of the loop of [getHealthStatus] (lines 1172-1189): a status
    starting is counted nowhere, and a health that is not good, degraded
    or failed is counted as unknown. *)
Definition count_stream (s : StreamRecord) (c : HealthStatus) : HealthStatus :=
  let c :=
    match status s with
    | Running =>
        mkHealthStatus (S (hs_running c)) (hs_stopped c) (hs_error c)
          (hs_good c) (hs_degraded c) (hs_failed c) (hs_unknown c)
    | Stopped =>
        mkHealthStatus (hs_running c) (S (hs_stopped c)) (hs_error c)
          (hs_good c) (hs_degraded c) (hs_failed c) (hs_unknown c)
    | Error =>
        mkHealthStatus (hs_running c) (hs_stopped c) (S (hs_error c))
          (hs_good c) (hs_degraded c) (hs_failed c) (hs_unknown c)
    | Starting => c
    end in
  match health s with
  | Good =>
      mkHealthStatus (hs_running c) (hs_stopped c) (hs_error c)
        (S (hs_good c)) (hs_degraded c) (hs_failed c) (hs_unknown c)
  | Degraded =>
      mkHealthStatus (hs_running c) (hs_stopped c) (hs_error c)
        (hs_good c) (S (hs_degraded c)) (hs_failed c) (hs_unknown c)
  | Failed =>
      mkHealthStatus (hs_running c) (hs_stopped c) (hs_error c)
        (hs_good c) (hs_degraded c) (S (hs_failed c)) (hs_unknown c)
  | Unknown | Poor =>
      mkHealthStatus (hs_running c) (hs_stopped c) (hs_error c)
        (hs_good c) (hs_degraded c) (hs_failed c) (S (hs_unknown c))
  end.

(** [getHealthStatus] (lines 1158-1193).  The loop runs over the records
    in the order of their keys; the counters do not depend on it. *)
Definition getHealthStatus (st : State) : HealthStatus :=
  map_fold (fun _ s c => count_stream s c)
    (mkHealthStatus 0 0 0 0 0 0 0) (streams st).

(** ** Backup and restore *)

(** [_stopAllStreams] (lines 1230-1236).  [keys] is what the [for ... in]
    loop over [this.streams] enumerates: the ids, in the order the
    records were entered. *)
Definition _stopAllStreams (keys : list string) (st : State) : State :=
  foldl (fun st id =>
           match streams st !! id with
           | Some s =>
               if decide (status s = Running) then fst (stopStream id st) else st
           | None => st
           end) st keys.

(** [exportConfig] (lines 680-684). *)
Definition exportConfig (st : State) : gmap string StreamRecord := streams st.

(** A stream object of a configuration handed to importConfig, with the
    fields the method reads: [createdAt] and [streamInfo] may be missing
    (or falsy). *)
Record BackupStream := mkBackupStream {
  b_name : string;
  b_url : string;
  b_createdAt : option Z;
  b_streamInfo : option (gmap string jsval)
}.

(** The record importConfig makes of an entry (lines 703-736). *)
Definition imported_record (id : string) (now : Z) (b : BackupStream)
    : StreamRecord :=
  {| stream_id := id; name := b_name b; url := b_url b;
     status := Stopped; health := Unknown;
     stats := mkStats 0 0 None None;
     diagnostics := Some fresh_diagnostics;
     errors := None; streamInfo := b_streamInfo b; hlsPath := None;
     selectedResolution := None;
     createdAt := default now (b_createdAt b) |}.

(** The body of the loop of importConfig (lines 696-746) for the entry
    [e] of [config.streams]; a start is [startStream] up to the promise
    it returns. *)
Definition import_entry (cfg : Config) (now : Z) (startStreams append : bool)
    (st : State) (e : string * BackupStream) : State :=
  if append && bool_decide (is_Some (streams st !! fst e)) then st
  else
    let st := set_streams
                (<[fst e := imported_record (fst e) now (snd e)]> (streams st)) st in
    if startStreams then fst (startStream cfg (fst e) st) else st.

(** [importConfig] (lines 686-749).  [config] lists the entries of
    [config.streams] in the order the loop meets them, [keys] the ids of
    [this.streams] as for [_stopAllStreams]. *)
Definition importConfig (cfg : Config) (now : Z) (keys : list string)
    (config : list (string * BackupStream)) (startStreams append : bool)
    (st : State) : State :=
  let st := if append then st else set_streams ∅ (_stopAllStreams keys st) in
  saveConfig (foldl (import_entry cfg now startStreams append) st config).

(** What a record of an exported configuration gives importConfig to
    read, after the trip through JSON. *)
Definition backup_of (s : StreamRecord) : BackupStream :=
  mkBackupStream (name s) (url s) (Some (createdAt s)) (streamInfo s).

(** ** Redirect chains *)

Section Redirects.

Variable net : string → HttpResult.
Variable origin : string → string.

(** [u] leads to [target] by exactly [n] redirects: each of the [n]
    answers on the way is a redirect with a location, as [fetchUrl] tests
    it, and the next URL is the one [fetchUrl] makes of the location. *)
Fixpoint redirects_to (n : nat) (u target : string) : Prop :=
  match n with
  | O => u = target
  | S k =>
      match net u with
      | HttpResponse statusCode (Some l) _ =>
          300 <= statusCode < 400 ∧ l ≠ "" ∧
          redirects_to k (if startsWith "http" l then l else origin u +:+ l) target
      | _ => False
      end
  end.

End Redirects.

(** A network on which [http://src/video.m3u8] is reached from
    [http://src/hop0] by a chain of redirects, hop after hop. *)
Definition hop_net (u : string) : HttpResult :=
  if String.eqb u "http://src/hop0" then HttpResponse 302 (Some "/hop1") ""
  else if String.eqb u "http://src/hop1" then HttpResponse 301 (Some "http://src/hop2") ""
  else if String.eqb u "http://src/hop2" then HttpResponse 302 (Some "/video.m3u8") ""
  else HttpResponse 200 None "#EXTM3U".

(** ** Other resolution labels and estimates *)

(** The label of the stream-test route of server.js (lines 388-397), for
    the height [ffprobe] reports. *)
Definition resolutionLabel (height : Z) : string :=
  if 2160 <=? height then "4K"
  else if 1440 <=? height then "1440p"
  else if 1080 <=? height then "1080p"
  else if 720 <=? height then "720p"
  else if 480 <=? height then "480p"
  else if 360 <=? height then "360p"
  else if 240 <=? height then "240p"
  else pretty height +:+ "p".

(** What the regular expressions of [_analyzeStreamResolution] find in
    the stream's own playlist: the resolution after [#EXT-X-STREAM-INF:]
    (lines 2501-2502), a resolution anywhere (line 2513), and the number
    after [BANDWIDTH=] (lines 2525-2527). *)
Record PlaylistMatches := mkPlaylistMatches {
  m_streamInfResolution : option string;
  m_resolution : option string;
  m_bandwidth : option Z
}.

(** The newest three segment files of a directory listing (name and
    modification time), newest first (lines 2536-2546, 2006-2017). *)
Definition newest_segments (files : list (string * Z)) : list (string * Z) :=
  take 3 (sort_newest_first (filter (fun f => endsWith ".ts" (fst f) = true) files)).

Definition total_size (size_of : string → Z) (samples : list (string * Z)) : Z :=
  foldl (fun sum f => sum + size_of (fst f)) 0 samples.

(** [_analyzeStreamResolution] (lines 2472-2561).  [playlist] is what the
    patterns match in playlist.m3u8, [None] when the file is not there;
    [files] is the listing of the directory and [size_of] the size of a
    file; a listing that throws is caught there and is not treated. *)
Definition _analyzeStreamResolution (id : string) (playlist : option PlaylistMatches)
    (files : list (string * Z)) (size_of : string → Z) (st : State) : option string :=
  match streams st !! id with
  | None => None
  | Some s =>
      let dirExists :=
        match hlsPath s with
        | Some p => negb (String.eqb p "") && bool_decide (id ∈ hlsDirs st)
        | None => false
        end in
      if negb dirExists then None
      else
        let selected :=
          match selectedResolution s with
          | Some r => if String.eqb r "" then None else Some r
          | None => None
          end in
        match selected with
        | Some resolution =>
            if includes "x" resolution then
              match resolution_height resolution with
              | IsInt height =>
                  if 1080 <=? height then Some "1080p"
                  else if 720 <=? height then Some "720p"
                  else if 480 <=? height then Some "480p"
                  else if 360 <=? height then Some "360p"
                  else Some resolution
              | IsNaN => Some resolution
              end
            else Some resolution
        | None =>
            match playlist with
            | None => None
            | Some m =>
                match m_streamInfResolution m, m_resolution m, m_bandwidth m with
                | Some resolution, _, _
                | None, Some resolution, _ =>
                    Some (formatResolution (resolution_height resolution))
                | None, None, Some bandwidth =>
                    if 5000000 <? bandwidth then Some "1080p"
                    else if 2500000 <? bandwidth then Some "720p"
                    else if 1000000 <? bandwidth then Some "480p"
                    else Some "360p"
                | None, None, None =>
                    let samples := newest_segments files in
                    match samples with
                    | [] => None
                    | _ :: _ =>
                        let n := Z.of_nat (length samples) in
                        let total := total_size size_of samples in
                        if 2000000 * n <? total then Some "1080p"
                        else if 1000000 * n <? total then Some "720p"
                        else if 500000 * n <? total then Some "480p"
                        else Some "360p"
                    end
                end
            end
        end
  end.

(** The estimate of [_estimateBitrateFromSegments] (lines 2006-2024) from
    a directory listing: with two segment files or more, the bytes of the
    newest three at two seconds a segment, in bits per second, rounded
    as [Math.round] does. *)
Definition estimateBitrate (files : list (string * Z)) (size_of : string → Z)
    : option Z :=
  let segmentFiles :=
    sort_newest_first (filter (fun f => endsWith ".ts" (fst f) = true) files) in
  if (2 <=? length segmentFiles)%nat then
    let samples := take 3 segmentFiles in
    let n := Z.of_nat (length samples) in
    let total := total_size size_of samples in
    Some ((8 * total + n) / (2 * n))
  else None.

(** ** Rounds of the reconnect cycle *)

(** One round: the reconnect timer of the stream fires at [t1], and the
    probe it started ends at [t2] with the outcome [o]. *)
Definition reconnect_round (env : Env) (o : ProbeOutcome) (id : string)
    (st : State) (t : Z * Z) : State :=
  match reconnectTimers st !! id with
  | Some h =>
      step env (snd t) (EvProbe id o) (step env (fst t) (EvTimer h no_observation) st)
  | None => st
  end.

Definition reconnect_rounds (env : Env) (o : ProbeOutcome) (id : string)
    (times : list (Z * Z)) (st : State) : State :=
  foldl (reconnect_round env o id) st times.

(** The stream waits for its reconnect timer: the record has its
    diagnostics, the counter of attempts is [a], the timer in the
    reconnect table is live and is the only reconnect timer of the
    stream, and no probe of the stream is under way. *)
Definition awaits_reconnect (id : string) (a : nat) (st : State) : Prop :=
  (∃ s, streams st !! id = Some s ∧ is_Some (diagnostics s)) ∧
  attempts_of id st = a ∧
  (∃ h d, reconnectTimers st !! id = Some h ∧
          timers st !! h = Some (mkTimer KReconnect id d) ∧
          ∀ h' t, timers st !! h' = Some t → t_kind t = KReconnect →
                  t_owner t = id → h' = h) ∧
  is_pending id (pendingProbes st) = false.

(** No reconnect timer of the stream is live. *)
Definition no_reconnect_timer (id : string) (st : State) : Prop :=
  ∀ h t, timers st !! h = Some t → t_owner t = id → t_kind t ≠ KReconnect.

(** The cycle has given up on the stream: the record is in error with
    health failed and the status text of line 1455, no reconnect timer of
    the stream is live (the handle left in the reconnect table is that of
    a timer that has fired), and no probe of the stream is under way. *)
Definition reconnect_exhausted (id : string) (st : State) : Prop :=
  status_of id st = Some Error ∧
  health_of id st = Some Failed ∧
  diag_of id "healthCheckStatus" st = Some (JStr "max_reconnect_exceeded") ∧
  no_reconnect_timer id st ∧
  (∀ h, reconnectTimers st !! id = Some h → timers st !! h = None) ∧
  is_pending id (pendingProbes st) = false.

(** A stream started on a variant of 240 lines. *)
Definition low_variant : Analysis :=
  mkAnalysis "http://src/low.m3u8"
    (Some (mkVariantInfo (Some "320x240") 300000 (IsInt 240))).

Definition sample_low_running : State :=
  run default_env [(2000, EvStart "cam1"); (2100, EvLaunch "cam1" low_variant None)]
    sample_added.

(** ** Housekeeping *)

(** [tsFiles.sort()]: ascending by the code units of the name; names are
    compared byte by byte, which is the same order for ASCII names. *)
Fixpoint insert_by_name (x : string) (l : list string) : list string :=
  match l with
  | [] => [x]
  | y :: l' =>
      if String.leb x y then x :: y :: l' else y :: insert_by_name x l'
  end.

Definition sort_names (l : list string) : list string :=
  foldr insert_by_name [] l.

(** The files that [cleanupHlsDirectories] unlinks in one directory
    (lines 1324-1337): when there are more segment files than
    [hlsListSize], the first of them in the order of their names, all but
    [hlsListSize]. *)
Definition filesToDelete (hlsListSize : Z) (files : list string) : list string :=
  let tsFiles := filter (fun f => endsWith ".ts" f = true) files in
  if hlsListSize <? Z.of_nat (length tsFiles)
  then take (Z.to_nat (Z.of_nat (length tsFiles) - hlsListSize)) (sort_names tsFiles)
  else [].

(** [cleanupHlsDirectories] (lines 1303-1357) on the directories of
    data/hls, each with the names of its files: the directory of a stream
    that is running is skipped.  An [unlinkSync] that throws ends the work
    on its directory and is logged; it is taken to succeed. *)
Definition cleanupHlsDirectories (hlsListSize : Z)
    (dirs : gmap string (list string)) (st : State) : gmap string (list string) :=
  map_imap (fun id files =>
    Some (if bool_decide (status_of id st = Some Running) then files
          else filter (fun f => f ∉ filesToDelete hlsListSize files) files)) dirs.

(** Ten rounds of the reconnect cycle, a hundred seconds apart. *)
Definition ten_rounds : list (Z * Z) :=
  map (fun k => (10000 + 100000 * Z.of_nat k, 10100 + 100000 * Z.of_nat k)) (seq 0 10).

(** * Properties *)

(** Closed facts about the sample states are settled by evaluation: that
    a record is there, as a boolean test, and the record itself read back
    with [record_of]. *)
Ltac evaluated :=
  lazymatch goal with
  | |- is_Some _ => apply (bool_decide_eq_true_1 _); reflexivity
  | |- _ => reflexivity
  end.

Lemma lookup_record_of (id : string) (st : State) :
  is_Some (streams st !! id) → streams st !! id = Some (record_of id st).
Proof. intros [s Hs]. unfold record_of. by rewrite Hs. Qed.

Lemma diagnostics_default (s : StreamRecord) :
  is_Some (diagnostics s) → diagnostics s = Some (default ∅ (diagnostics s)).
Proof. intros [d Hd]. by rewrite Hd. Qed.

(** ** Resolution labels *)

Lemma formatResolution_thresholds (h : Z) :
  (1080 <= h → formatResolution (IsInt h) = "1080p") ∧
  (720 <= h < 1080 → formatResolution (IsInt h) = "720p") ∧
  (480 <= h < 720 → formatResolution (IsInt h) = "480p") ∧
  (360 <= h < 480 → formatResolution (IsInt h) = "360p") ∧
  (h < 360 → formatResolution (IsInt h) = pretty h +:+ "p").
Proof.
  unfold formatResolution, render_int.
  repeat split; intros Hh;
    repeat (case_match; try lia; try reflexivity).
Qed.

Lemma formatResolution_values :
  formatResolution (IsInt 1920) = "1080p" ∧
  formatResolution (IsInt 1280) = "1080p" ∧
  formatResolution (IsInt 640) = "480p" ∧
  formatResolution (IsInt 320) = "320p" ∧
  formatResolution (IsInt 100) = "100p".
Proof.
  destruct (formatResolution_thresholds 1920) as (H1 & _).
  destruct (formatResolution_thresholds 1280) as (H2 & _).
  destruct (formatResolution_thresholds 640) as (_ & _ & H3 & _).
  destruct (formatResolution_thresholds 320) as (_ & _ & _ & _ & H4).
  destruct (formatResolution_thresholds 100) as (_ & _ & _ & _ & H5).
  rewrite H1, H2, H3, H4, H5 by lia.
  repeat split; reflexivity.
Qed.

(** C7, as the code has it: the label is chosen by the height, so 1920
    and 1280 are both at least 1080 and get "1080p", 640 gets "480p", and
    320 and 100 are below 360 and get their own number: "320p", "100p".
    In general a height of 1080 or more gets "1080p", one from 720 gets
    "720p", from 480 "480p", from 360 "360p", and a smaller one its
    number followed by "p". *)
Theorem C7_resolution_labels :
  (formatResolution (IsInt 1920) = "1080p" ∧
   formatResolution (IsInt 1280) = "1080p" ∧
   formatResolution (IsInt 640) = "480p" ∧
   formatResolution (IsInt 320) = "320p" ∧
   formatResolution (IsInt 100) = "100p") ∧
  ∀ h : Z,
    formatResolution (IsInt h) =
      if decide (1080 <= h) then "1080p"
      else if decide (720 <= h) then "720p"
      else if decide (480 <= h) then "480p"
      else if decide (360 <= h) then "360p"
      else pretty h +:+ "p".
Proof.
  split; [exact formatResolution_values |].
  intros h.
  destruct (formatResolution_thresholds h) as (H1 & H2 & H3 & H4 & H5).
  repeat case_decide; auto with lia.
Qed.

(** C7 as the specification words it fails: height 1280 is not labelled
    "720p" (and height 320 is not labelled "360p"). *)
Lemma C7_labels_of_1280_and_320 :
  ¬ (formatResolution (IsInt 1920) = "1080p" ∧
     formatResolution (IsInt 1280) = "720p" ∧
     formatResolution (IsInt 640) = "480p" ∧
     formatResolution (IsInt 320) = "360p" ∧
     formatResolution (IsInt 100) = "100p").
Proof.
  intros (_ & H1280 & _).
  destruct formatResolution_values as (_ & H & _).
  rewrite H in H1280. discriminate H1280.
Qed.

(** ** What each method leaves alone *)

Lemma streams_update_stream id f st :
  streams (update_stream id f st) = alter f id (streams st).
Proof.
  unfold update_stream. apply map_eq. intros j.
  rewrite lookup_alter.
  destruct (streams st !! id) as [s|] eqn:E; simpl.
  - rewrite lookup_insert. case_decide; subst; by rewrite ?E.
  - case_decide; subst; by rewrite ?E.
Qed.

Lemma lookup_update_stream id f st j :
  streams (update_stream id f st) !! j =
    if decide (id = j) then f <$> streams st !! id else streams st !! j.
Proof. by rewrite streams_update_stream, lookup_alter. Qed.

Ltac unfold_small_ops :=
  unfold _setupMonitoring, startScreenshotTimer, startSegmentHealthCheck,
    clearReconnectTimer, _clearScreenshotTimer, _clearSegmentHealthCheck,
    _clearMonitoring, kill, clearTimer, setTimer, saveConfig,
    update_stream in *.

(** Goals [field (op st) = field st] for the small operations. *)
Ltac frame :=
  intros; unfold_small_ops; repeat case_match; simpl in *; simplify_eq;
  try reflexivity.

Lemma streams_clearReconnectTimer id st :
  streams (clearReconnectTimer id st) = streams st.
Proof. frame. Qed.
Lemma streams_clearScreenshotTimer id st :
  streams (_clearScreenshotTimer id st) = streams st.
Proof. frame. Qed.
Lemma streams_clearSegmentHealthCheck id st :
  streams (_clearSegmentHealthCheck id st) = streams st.
Proof. frame. Qed.
Lemma streams_clearMonitoring id st :
  streams (_clearMonitoring id st) = streams st.
Proof. frame. Qed.
Lemma streams_setupMonitoring id st :
  streams (_setupMonitoring id st) = streams st.
Proof. frame. Qed.
Lemma streams_startScreenshotTimer cfg id st :
  streams (startScreenshotTimer cfg id st) = streams st.
Proof. frame. Qed.
Lemma streams_startSegmentHealthCheck cfg id st :
  streams (startSegmentHealthCheck cfg id st) = streams st.
Proof. frame. Qed.
Lemma streams_kill pid st : streams (kill pid st) = streams st.
Proof. frame. Qed.
Lemma streams_saveConfig st : streams (saveConfig st) = streams st.
Proof. frame. Qed.

Lemma processes_clearReconnectTimer id st :
  processes (clearReconnectTimer id st) = processes st.
Proof. frame. Qed.
Lemma processes_clearScreenshotTimer id st :
  processes (_clearScreenshotTimer id st) = processes st.
Proof. frame. Qed.
Lemma processes_clearSegmentHealthCheck id st :
  processes (_clearSegmentHealthCheck id st) = processes st.
Proof. frame. Qed.
Lemma processes_clearMonitoring id st :
  processes (_clearMonitoring id st) = processes st.
Proof. frame. Qed.
Lemma processes_setupMonitoring id st :
  processes (_setupMonitoring id st) = processes st.
Proof. frame. Qed.
Lemma processes_startScreenshotTimer cfg id st :
  processes (startScreenshotTimer cfg id st) = processes st.
Proof. frame. Qed.
Lemma processes_startSegmentHealthCheck cfg id st :
  processes (startSegmentHealthCheck cfg id st) = processes st.
Proof. frame. Qed.
Lemma processes_kill pid st : processes (kill pid st) = processes st.
Proof. frame. Qed.
Lemma processes_saveConfig st : processes (saveConfig st) = processes st.
Proof. frame. Qed.
Lemma processes_update_stream id f st :
  processes (update_stream id f st) = processes st.
Proof. frame. Qed.

Create Rewrite HintDb frame.
#[global] Hint Rewrite
  streams_clearReconnectTimer streams_clearScreenshotTimer
  streams_clearSegmentHealthCheck streams_clearMonitoring
  streams_setupMonitoring streams_startScreenshotTimer
  streams_startSegmentHealthCheck streams_kill streams_saveConfig
  processes_clearReconnectTimer processes_clearScreenshotTimer
  processes_clearSegmentHealthCheck processes_clearMonitoring
  processes_setupMonitoring processes_startScreenshotTimer
  processes_startSegmentHealthCheck processes_kill processes_saveConfig
  processes_update_stream streams_update_stream : frame.

(** ** Stopping *)

(** What a stop that has something to do leaves in the two tables. *)
Lemma stopStream_effect id st s :
  streams st !! id = Some s →
  status s ≠ Stopped →
  snd (stopStream id st) = true ∧
  streams (fst (stopStream id st)) =
    <[id := set_health Unknown (set_status Stopped s)]> (streams st) ∧
  processes (fst (stopStream id st)) = delete id (processes st).
Proof.
  intros Hs Hne. unfold stopStream. rewrite Hs.
  destruct (decide (status s = Stopped)) as [|_]; [done|]. simpl.
  split; [done|]. split.
  - autorewrite with frame.
    transitivity (alter (fun s => set_health Unknown (set_status Stopped s)) id (streams st)).
    + f_equal. destruct (processes st !! id); simpl; by autorewrite with frame.
    + apply map_eq. intros j. rewrite lookup_alter, lookup_insert.
      case_decide; subst; by rewrite ?Hs.
  - autorewrite with frame.
    destruct (processes st !! id) eqn:E; simpl; autorewrite with frame; simpl.
    + done.
    + symmetry. by apply delete_id.
Qed.

Lemma stopStream_stopped id st s :
  streams st !! id = Some s →
  status s = Stopped →
  stopStream id st = (st, true).
Proof.
  intros Hs Hst. unfold stopStream. rewrite Hs.
  by destruct (decide (status s = Stopped)).
Qed.

(** C5: for a stream that exists, the stop that follows a stop returns
    true and leaves the whole state as the first stop left it: the record,
    every table of the manager, the timers, the children and the saved
    configuration. *)
Theorem C5_stop_after_stop_changes_nothing (id : string) (st : State)
    (s : StreamRecord) :
  streams st !! id = Some s →
  snd (stopStream id st) = true ∧
  stopStream id (fst (stopStream id st)) = (fst (stopStream id st), true).
Proof.
  intros Hs.
  destruct (decide (status s = Stopped)) as [Hst|Hne].
  - rewrite (stopStream_stopped id st s Hs Hst). simpl.
    split; [done|]. by apply (stopStream_stopped id st s).
  - destruct (stopStream_effect id st s Hs Hne) as (Hret & Hstr & _).
    split; [done|].
    apply (stopStream_stopped _ _ (set_health Unknown (set_status Stopped s))).
    + rewrite Hstr. apply lookup_insert_eq.
    + reflexivity.
Qed.

Lemma C5_stop_after_stop_witness :
  status <$> streams sample_running !! "cam1" = Some Running ∧
  snd (stopStream "cam1" sample_running) = true ∧
  stopStream "cam1" (fst (stopStream "cam1" sample_running)) =
    (fst (stopStream "cam1" sample_running), true).
Proof.
  split; [vm_compute; reflexivity|].
  eapply C5_stop_after_stop_changes_nothing.
  vm_compute. reflexivity.
Defined.

(** ** Adding *)

Lemma issued_empty_manager (uuidv4 : nat → string) : issued uuidv4 0 empty_manager.
Proof. intros id [s Hs]. cbn in Hs. by rewrite lookup_empty in Hs. Qed.

(** C10: for every name and URL, addStream draws the id of the new record
    from the generator and returns a record with that id, status stopped,
    health unknown, uptime 0 and restarts 0; getStream finds it at once;
    no child is launched, no handle registered and no continuation or
    timer left behind.  The id is fresh: with a generator that never
    hands out an id twice, and a table that holds only ids the generator
    handed out before (as the empty table does, and as addStream and the
    events of the machine keep it), no record was stored under the new
    id, every record that was there is still there unchanged, and the
    table again holds only ids the generator handed out. *)
Theorem C10_addStream_new_record (uuidv4 : nat → string) (calls : nat) (now : Z)
    (nm u : string) (st : State) :
  (∀ i j, uuidv4 i = uuidv4 j → i = j) →
  issued uuidv4 calls st →
  let st' := fst (addStream uuidv4 calls now nm u st) in
  let r := snd (addStream uuidv4 calls now nm u st) in
  stream_id r = uuidv4 calls ∧
  getStream (stream_id r) st = None ∧
  (name r = nm ∧ url r = u ∧
   status r = Stopped ∧ health r = Unknown ∧
   uptime (stats r) = 0 ∧ restarts (stats r) = 0) ∧
  getStream (stream_id r) st' = Some r ∧
  (∀ id' r', getStream id' st = Some r' → getStream id' st' = Some r') ∧
  issued uuidv4 (S calls) st' ∧
  (processes st' = processes st ∧ children st' = children st ∧
   nextHandle st' = nextHandle st ∧ pendingStarts st' = pendingStarts st ∧
   timers st' = timers st).
Proof.
  intros Hunique Hissued st' r. subst st' r. unfold addStream, getStream.
  cbn [fst snd stream_id].
  assert (streams st !! uuidv4 calls = None) as Hfresh.
  { destruct (streams st !! uuidv4 calls) as [s|] eqn:E; [exfalso|done].
    destruct (Hissued (uuidv4 calls)) as (k & Hk & Hid); [by rewrite E|].
    apply Hunique in Hid. lia. }
  split; [reflexivity|]. split; [exact Hfresh|].
  split; [repeat split|].
  rewrite streams_saveConfig.
  change (streams (set_streams ?v ?x)) with v.
  split; [apply lookup_insert_eq|]. split.
  - intros id' r' Hr'.
    assert (id' ≠ uuidv4 calls) as Hne by (intros ->; congruence).
    by rewrite lookup_insert_ne.
  - split; [|repeat split].
    intros id Hid. rewrite streams_saveConfig in Hid.
    change (streams (set_streams ?v ?x)) with v in Hid.
    destruct (decide (id = uuidv4 calls)) as [->|Hne].
    + exists calls. split; [lia|done].
    + rewrite lookup_insert_ne in Hid by done.
      destruct (Hissued id Hid) as (k & Hk & ->). exists k. split; [lia|done].
Qed.

(** ** The recent errors *)

Lemma slice_last_short {A} (n : nat) (l : list A) :
  (length l ≤ n)%nat → slice_last n l = l.
Proof.
  intros H. unfold slice_last.
  replace (length l - n)%nat with 0%nat by lia. apply drop_0.
Qed.

Lemma length_slice_last {A} (n : nat) (l : list A) :
  (length (slice_last n l) ≤ n)%nat.
Proof. unfold slice_last. rewrite length_drop. lia. Qed.

(** The cut commutes with later pushes: cutting, appending and cutting
    again keeps what one cut at the end keeps. *)
Lemma slice_last_app_slice {A} (n : nat) (l k : list A) :
  slice_last n (slice_last n l ++ k) = slice_last n (l ++ k).
Proof.
  destruct (decide (length l ≤ n)%nat) as [Hle|Hgt].
  - by rewrite (slice_last_short n l).
  - unfold slice_last.
    rewrite !length_app, length_drop.
    rewrite !drop_app, length_drop, drop_drop.
    f_equal; f_equal; lia.
Qed.

Lemma slice_last_suffix {A} (n : nat) (l : list A) :
  ∃ evicted, l = evicted ++ slice_last n l.
Proof.
  exists (take (length l - n) l). unfold slice_last.
  symmetry. apply take_drop.
Qed.

Lemma push_recent_slice (e : ErrorEntry) (l : list ErrorEntry) :
  push_recent e l = slice_last 10 (l ++ [e]).
Proof.
  unfold push_recent.
  destruct (10 <? length (l ++ [e]))%nat eqn:E; [done|].
  apply Nat.ltb_ge in E. by rewrite slice_last_short.
Qed.

Lemma errors_analyzeErrorPatterns_record (s : StreamRecord) :
  errors (analyzeErrorPatterns_record s) = errors s.
Proof.
  unfold analyzeErrorPatterns_record.
  repeat case_match; simpl; congruence.
Qed.

Lemma recent_recordError_record now ty msg (s : StreamRecord) :
  recent_of (_recordError_record now ty msg s) =
    push_recent (entry_of (now, ty, msg)) (recent_of s).
Proof.
  unfold recent_of, _recordError_record.
  rewrite errors_analyzeErrorPatterns_record. simpl.
  by destruct (errors s).
Qed.

Lemma lookup_recordError now id ty msg st (s : StreamRecord) :
  streams st !! id = Some s →
  streams (_recordError now id ty msg st) !! id =
    Some (_recordError_record now ty msg s).
Proof.
  intros Hs. unfold _recordError. rewrite Hs. simpl. apply lookup_insert_eq.
Qed.

Lemma record_errors_recent id (l : list (Z * string * string)) :
  ∀ st s,
    streams st !! id = Some s →
    (length (recent_of s) ≤ 10)%nat →
    ∃ s', streams (record_errors id l st) !! id = Some s' ∧
          recent_of s' = slice_last 10 (recent_of s ++ map entry_of l).
Proof.
  induction l as [|[[now ty] msg] l IH]; intros st s Hs Hlen.
  - exists s. split; [done|]. simpl.
    by rewrite app_nil_r, slice_last_short.
  - simpl.
    pose proof (lookup_recordError now id ty msg st s Hs) as Hs1.
    destruct (IH _ _ Hs1) as (s' & Hs' & Hrec).
    { rewrite recent_recordError_record, push_recent_slice.
      apply length_slice_last. }
    exists s'. split; [exact Hs'|].
    rewrite Hrec, recent_recordError_record, push_recent_slice.
    rewrite slice_last_app_slice. by rewrite <- app_assoc.
Qed.

(** C4: after the errors of a list were recorded for a stream, one call
    of _recordError each, [errors.recent] holds the last ten entries of
    what it held before followed by the new entries in the order they
    were recorded: at most ten, and what is gone is a prefix of that
    sequence, the oldest entries.  (With no new error the bound needs the
    list to have held at most ten before, as it does for every record the
    manager created.) *)
Theorem C4_recent_errors_last_ten (id : string) (st : State)
    (s : StreamRecord) (l : list (Z * string * string)) :
  streams st !! id = Some s →
  l ≠ [] ∨ (length (recent_of s) ≤ 10)%nat →
  ∃ s',
    streams (record_errors id l st) !! id = Some s' ∧
    recent_of s' = slice_last 10 (recent_of s ++ map entry_of l) ∧
    (length (recent_of s') ≤ 10)%nat ∧
    ∃ evicted, recent_of s ++ map entry_of l = evicted ++ recent_of s'.
Proof.
  intros Hs Hor.
  assert (∃ s', streams (record_errors id l st) !! id = Some s' ∧
            recent_of s' = slice_last 10 (recent_of s ++ map entry_of l))
    as (s' & Hs' & Hrec).
  { destruct l as [|[[now ty] msg] l].
    - destruct Hor as [Hne|Hlen]; [done|].
      by apply record_errors_recent.
    - simpl.
      pose proof (lookup_recordError now id ty msg st s Hs) as Hs1.
      destruct (record_errors_recent id l _ _ Hs1) as (s' & Hs' & Hrec).
      { rewrite recent_recordError_record, push_recent_slice.
        apply length_slice_last. }
      exists s'. split; [exact Hs'|].
      rewrite Hrec, recent_recordError_record, push_recent_slice.
      rewrite slice_last_app_slice. by rewrite <- app_assoc. }
  exists s'. split; [exact Hs'|]. split; [exact Hrec|].
  rewrite Hrec. split; [apply length_slice_last|apply slice_last_suffix].
Qed.

Lemma C4_recent_errors_witness :
  streams sample_added !! "cam1" =
    Some (snd (addStream sample_uuid 0 1000 "Camera" sample_url empty_manager)) ∧
  twelve_errors ≠ [] ∧
  ∃ s',
    streams (record_errors "cam1" twelve_errors sample_added) !! "cam1" = Some s' ∧
    recent_of s' = map entry_of (drop 2 twelve_errors) ∧
    (length (recent_of s') ≤ 10)%nat.
Proof.
  split; [vm_compute; reflexivity|].
  split; [discriminate|].
  destruct (C4_recent_errors_last_ten "cam1" sample_added
              (snd (addStream sample_uuid 0 1000 "Camera" sample_url empty_manager))
              twelve_errors)
    as (s' & Hs' & Hrec & Hlen & _).
  - vm_compute. reflexivity.
  - left. discriminate.
  - exists s'. split; [exact Hs'|]. split; [|exact Hlen].
    rewrite Hrec. vm_compute. reflexivity.
Defined.

(** ** Reconnection *)

Lemma lookup_update_stream_eq id f st (s : StreamRecord) :
  streams st !! id = Some s →
  streams (update_stream id f st) !! id = Some (f s).
Proof.
  intros Hs. rewrite lookup_update_stream.
  destruct (decide (id = id)); [|done]. by rewrite Hs.
Qed.

(** C3: when handleReconnect runs for a stream whose attempt counter has
    reached the configured maximum (an unset counter counting as 0), the
    call ends normally with the status error, the health failed and
    diagnostics.healthCheckStatus 'max_reconnect_exceeded'; it starts no
    timer: the live timers, the reconnect-timer table and the handle
    counter are as before.  The record has its diagnostics object, as
    every record has that went through addStream, importConfig,
    startStream or _recordError. *)
Theorem C3_max_attempts_is_terminal (cfg : Config) (now : Z) (id : string)
    (st : State) (s : StreamRecord) (d : gmap string jsval) :
  streams st !! id = Some s →
  diagnostics s = Some d →
  maxReconnectAttempts cfg <= Z.of_nat (attempts_of id st) →
  ∃ st' s',
    handleReconnect cfg now id st = Normal st' ∧
    streams st' !! id = Some s' ∧
    status s' = Error ∧
    health s' = Failed ∧
    get_diag "healthCheckStatus" s' = Some (JStr "max_reconnect_exceeded") ∧
    timers st' = timers st ∧
    reconnectTimers st' = reconnectTimers st ∧
    nextHandle st' = nextHandle st.
Proof.
  intros Hs Hd Hmax. unfold handleReconnect. rewrite Hs.
  set (st1 := match reconnectAttempts st !! id with
              | Some _ => st
              | None => set_reconnectAttempts (<[id:=0%nat]> (reconnectAttempts st)) st
              end).
  assert (streams st1 = streams st ∧ timers st1 = timers st ∧
          reconnectTimers st1 = reconnectTimers st ∧
          nextHandle st1 = nextHandle st ∧
          attempts_of id st1 = attempts_of id st) as (E1 & E2 & E3 & E4 & E5).
  { subst st1. unfold attempts_of.
    destruct (reconnectAttempts st !! id) eqn:E; simpl; rewrite ?E;
      rewrite ?lookup_insert_eq; done. }
  rewrite E5. apply Z.leb_le in Hmax. rewrite Hmax, Hd.
  eexists _, _. split; [reflexivity|].
  assert (streams st1 !! id = Some s) as Hs1 by (by rewrite E1).
  split.
  { rewrite streams_saveConfig. apply lookup_update_stream_eq.
    apply lookup_update_stream_eq. exact Hs1. }
  split; [reflexivity|]. split; [reflexivity|]. split.
  { unfold get_diag, set_diag. simpl. apply lookup_insert_eq. }
  unfold saveConfig, update_stream. rewrite Hs1. simpl.
  rewrite lookup_insert_eq. simpl. done.
Qed.

Lemma C3_max_attempts_witness :
  is_Some (streams sample_exhausted !! "cam1") ∧
  attempts_of "cam1" sample_exhausted = 10%nat ∧
  ∃ st' s',
    handleReconnect (constructor default_env) 2000100 "cam1" sample_exhausted
      = Normal st' ∧
    streams st' !! "cam1" = Some s' ∧
    status s' = Error ∧ health s' = Failed ∧
    timers st' = timers sample_exhausted.
Proof.
  split; [evaluated|]. split; [evaluated|].
  destruct (C3_max_attempts_is_terminal (constructor default_env) 2000100
              "cam1" sample_exhausted (record_of "cam1" sample_exhausted)
              (default ∅ (diagnostics (record_of "cam1" sample_exhausted))))
    as (st' & s' & H1 & H2 & H3 & H4 & _ & H5 & _).
  - apply lookup_record_of. evaluated.
  - apply diagnostics_default. evaluated.
  - apply Z.leb_le. evaluated.
  - exists st', s'. repeat split; assumption.
Defined.

(** *** Rounding to a double *)

Lemma round_half_even_ge (p r : Z) : 0 < r → p / r <= round_half_even p r.
Proof.
  intros Hr. unfold round_half_even.
  destruct (2 * (p mod r) ?= r); [destruct (Z.even (p / r))|..]; lia.
Qed.

Lemma round_half_even_exact (n r : Z) : 0 < r → round_half_even (n * r) r = n.
Proof.
  intros Hr. unfold round_half_even.
  rewrite Z.mod_mul, Z.div_mul by lia.
  assert ((2 * 0 ?= r) = Lt) as -> by (apply Z.compare_lt_iff; lia). done.
Qed.

Lemma pow2_pos (x : Z) : 0 <= x → 0 < 2 ^ x.
Proof. intros. by apply Z.pow_pos_nonneg. Qed.

(** [2^l <= a / b] for the exponent found. *)
Lemma floor_log2_le (a b : Z) :
  0 < a → 0 < b →
  b * 2 ^ Z.max 0 (floor_log2 a b) <= a * 2 ^ Z.max 0 (- floor_log2 a b).
Proof.
  intros Ha Hb. unfold floor_log2.
  set (d := Z.log2 a - Z.log2 b).
  destruct (Z.leb_spec (b * 2 ^ Z.max 0 d) (a * 2 ^ Z.max 0 (- d))) as [H|_];
    [exact H|].
  destruct (Z.log2_spec a Ha) as [Ha1 _].
  destruct (Z.log2_spec b Hb) as [_ Hb2].
  pose proof (Z.log2_nonneg a). pose proof (Z.log2_nonneg b).
  destruct (Z.le_gt_cases 1 d) as [Hd|Hd].
  - rewrite (Z.max_r 0 (d - 1)), (Z.max_l 0 (- (d - 1))) by lia.
    rewrite Z.pow_0_r, Z.mul_1_r.
    assert (2 ^ Z.log2 a = 2 ^ (Z.log2 b + 1) * 2 ^ (d - 1)) as E.
    { rewrite <- Z.pow_add_r by lia. f_equal. lia. }
    pose proof (pow2_pos (d - 1) ltac:(lia)). nia.
  - rewrite (Z.max_l 0 (d - 1)), (Z.max_r 0 (- (d - 1))) by lia.
    rewrite Z.pow_0_r, Z.mul_1_r.
    assert (2 ^ (Z.log2 b + 1) = 2 ^ Z.log2 a * 2 ^ (- (d - 1))) as E.
    { rewrite <- Z.pow_add_r by lia. f_equal. lia. }
    pose proof (pow2_pos (- (d - 1)) ltac:(lia)). nia.
Qed.

(** The scaled value is at least [2^52]. *)
Lemma scaled_ge (a b : Z) :
  0 < a → 0 < b →
  2 ^ 52 * (b * 2 ^ Z.max 0 (floor_log2 a b - 52))
    <= a * 2 ^ Z.max 0 (- (floor_log2 a b - 52)).
Proof.
  intros Ha Hb. pose proof (floor_log2_le a b Ha Hb) as H.
  set (l := floor_log2 a b) in *.
  destruct (Z.le_gt_cases 52 l) as [Hl|Hl].
  - rewrite (Z.max_r 0 (l - 52)), (Z.max_l 0 (- (l - 52))) by lia.
    rewrite (Z.max_r 0 l), (Z.max_l 0 (- l)) in H by lia.
    assert (2 ^ l = 2 ^ 52 * 2 ^ (l - 52)) as E.
    { rewrite <- Z.pow_add_r by lia. f_equal. lia. }
    rewrite Z.pow_0_r, Z.mul_1_r in *. nia.
  - rewrite (Z.max_l 0 (l - 52)), (Z.max_r 0 (- (l - 52))) by lia.
    rewrite Z.pow_0_r, Z.mul_1_r.
    destruct (Z.le_gt_cases 0 l) as [Hl0|Hl0].
    + rewrite (Z.max_r 0 l), (Z.max_l 0 (- l)) in H by lia.
      rewrite Z.pow_0_r, Z.mul_1_r in H.
      assert (2 ^ 52 = 2 ^ l * 2 ^ (- (l - 52))) as E.
      { rewrite <- Z.pow_add_r by lia. f_equal. lia. }
      pose proof (pow2_pos (- (l - 52)) ltac:(lia)).
      rewrite E. nia.
    + rewrite (Z.max_l 0 l), (Z.max_r 0 (- l)) in H by lia.
      rewrite Z.pow_0_r, Z.mul_1_r in H.
      assert (2 ^ (- (l - 52)) = 2 ^ 52 * 2 ^ (- l)) as E.
      { rewrite <- Z.pow_add_r by lia. f_equal. lia. }
      rewrite E. nia.
Qed.

(** A rational that is a double (53 bits are enough for it) is its own
    rounding. *)
Lemma round_double_exact (q : Q) (M k : Z) :
  0 < M < 2 ^ 53 → 0 <= k →
  (q == M # Z.to_pos (2 ^ k))%Q →
  (round_double q == q)%Q.
Proof.
  intros HM Hk Hq. destruct q as [a b]. unfold Qeq in Hq. cbn [Qnum Qden] in Hq.
  pose proof (pow2_pos k Hk) as Hpk.
  rewrite Z2Pos.id in Hq by done.
  assert (0 < a) as Ha by nia.
  unfold round_double. cbn [Qnum Qden].
  rewrite (Z.abs_eq a) by lia.
  assert ((a =? 0) = false) as -> by (apply Z.eqb_neq; lia).
  assert ((a <? 0) = false) as -> by (apply Z.ltb_ge; lia).
  pose proof (floor_log2_le a (Z.pos b) Ha ltac:(lia)) as Hl.
  set (l := floor_log2 a (Z.pos b)) in *. cbv zeta.
  assert (l - 52 + k <= 0) as He.
  { destruct (Z.le_gt_cases (l - 52 + k) 0) as [|Hc]; [done|exfalso].
    destruct (Z.le_gt_cases 0 l) as [Hl0|Hl0].
    - rewrite (Z.max_r 0 l), (Z.max_l 0 (- l)) in Hl by lia.
      rewrite Z.pow_0_r, Z.mul_1_r in Hl.
      assert (2 ^ (l + k) <= M) as HM'.
      { rewrite Z.pow_add_r by lia. pose proof (pow2_pos l Hl0). nia. }
      assert (2 ^ 53 <= 2 ^ (l + k)) by (apply Z.pow_le_mono_r; lia). lia.
    - rewrite (Z.max_l 0 l), (Z.max_r 0 (- l)) in Hl by lia.
      rewrite Z.pow_0_r, Z.mul_1_r in Hl.
      assert (2 ^ k = 2 ^ (l + k) * 2 ^ (- l)) as E.
      { rewrite <- Z.pow_add_r by lia. f_equal. lia. }
      assert (2 ^ (l + k) <= M) as HM'.
      { pose proof (pow2_pos (- l) ltac:(lia)).
        pose proof (pow2_pos (l + k) ltac:(lia)). nia. }
      assert (2 ^ 53 <= 2 ^ (l + k)) by (apply Z.pow_le_mono_r; lia). lia. }
  rewrite (Z.max_l 0 (l - 52)), (Z.max_r 0 (- (l - 52))) by lia.
  rewrite Z.pow_0_r, !Z.mul_1_r.
  set (j := - (l - 52) - k).
  assert (2 ^ (- (l - 52)) = 2 ^ k * 2 ^ j) as E.
  { rewrite <- Z.pow_add_r by lia. f_equal. lia. }
  pose proof (pow2_pos j ltac:(lia)) as Hpj.
  assert (a * 2 ^ (- (l - 52)) = M * 2 ^ j * Z.pos b) as -> by (rewrite E; nia).
  rewrite round_half_even_exact by lia.
  unfold Qeq. cbn [Qnum Qden].
  rewrite Z2Pos.id by (rewrite E; nia). rewrite E. nia.
Qed.

(** A double that a rational reaches is reached by its rounding too. *)
Lemma round_double_ge (q : Q) (M k : Z) :
  0 < M < 2 ^ 53 → 0 <= k →
  (M # Z.to_pos (2 ^ k) <= q)%Q →
  (M # Z.to_pos (2 ^ k) <= round_double q)%Q.
Proof.
  intros HM Hk Hq. destruct q as [a b]. unfold Qle in Hq. cbn [Qnum Qden] in Hq.
  pose proof (pow2_pos k Hk) as Hpk.
  rewrite Z2Pos.id in Hq by done.
  assert (0 < a) as Ha by nia.
  unfold round_double. cbn [Qnum Qden].
  rewrite (Z.abs_eq a) by lia.
  assert ((a =? 0) = false) as -> by (apply Z.eqb_neq; lia).
  assert ((a <? 0) = false) as -> by (apply Z.ltb_ge; lia).
  pose proof (scaled_ge a (Z.pos b) Ha ltac:(lia)) as Hs.
  set (e := floor_log2 a (Z.pos b) - 52) in *. cbv zeta.
  set (P := a * 2 ^ Z.max 0 (- e)) in *.
  set (R := Z.pos b * 2 ^ Z.max 0 e) in *.
  pose proof (pow2_pos (Z.max 0 e) ltac:(lia)) as Hpe.
  pose proof (pow2_pos (Z.max 0 (- e)) ltac:(lia)) as Hpne.
  assert (0 < R) as HR by (subst R; nia).
  pose proof (round_half_even_ge P R HR) as Hm.
  assert (2 ^ 52 <= P / R) as Hm0 by (apply Z.div_le_lower_bound; lia).
  set (m := round_half_even P R) in *.
  unfold Qle. cbn [Qnum Qden].
  rewrite !Z2Pos.id by done.
  destruct (Z.lt_ge_cases (M * 2 ^ Z.max 0 (- e)) (2 ^ 52 * 2 ^ Z.max 0 e * 2 ^ k))
    as [Hlow|Hhigh].
  { assert (2 ^ 52 * 2 ^ Z.max 0 e * 2 ^ k <= m * 2 ^ Z.max 0 e * 2 ^ k); [|lia].
    apply Z.mul_le_mono_nonneg_r; [lia|].
    apply Z.mul_le_mono_nonneg_r; lia. }
  assert (M * 2 ^ Z.max 0 (- e) <= P / R * 2 ^ Z.max 0 e * 2 ^ k) as Hgoal.
  { destruct (Z.le_gt_cases 0 e) as [He|He].
    - rewrite (Z.max_r 0 e), (Z.max_l 0 (- e)) in * by lia.
      rewrite Z.pow_0_r, Z.mul_1_r in *.
      assert (e + k = 0) as Hek.
      { destruct (Z.le_gt_cases (e + k) 0) as [|Hc]; [lia|exfalso].
        assert (2 ^ 1 <= 2 ^ (e + k)) by (apply Z.pow_le_mono_r; lia).
        rewrite Z.pow_add_r in * by lia.
        change (2 ^ 53) with (2 ^ 52 * 2 ^ 1) in HM. nia. }
      assert (e = 0) as -> by lia. assert (k = 0) as -> by lia.
      rewrite Z.pow_0_r, !Z.mul_1_r in *.
      subst P R. change (2 ^ (0 `max` (- 0))) with 1. change (2 ^ (0 `max` 0)) with 1.
      rewrite !Z.mul_1_r. apply Z.div_le_lower_bound; lia.
    - rewrite (Z.max_l 0 e), (Z.max_r 0 (- e)) in * by lia.
      rewrite Z.pow_0_r, Z.mul_1_r in *.
      assert (k <= - e) as Hke.
      { destruct (Z.le_gt_cases k (- e)) as [|Hc]; [done|exfalso].
        assert (2 ^ (- e + 1) <= 2 ^ k) by (apply Z.pow_le_mono_r; lia).
        rewrite Z.pow_add_r in * by lia.
        change (2 ^ 53) with (2 ^ 52 * 2 ^ 1) in HM. nia. }
      set (j := - e - k).
      assert (2 ^ (- e) = 2 ^ j * 2 ^ k) as E.
      { rewrite <- Z.pow_add_r by lia. f_equal. lia. }
      pose proof (pow2_pos j ltac:(lia)) as Hpj.
      assert (M * 2 ^ j <= P / R) as HC.
      { apply Z.div_le_lower_bound; [lia|]. subst P R.
        rewrite (Z.max_l 0 e), (Z.max_r 0 (- e)) by lia.
        rewrite E, Z.pow_0_r, Z.mul_1_r. nia. }
      rewrite E. nia. }
  assert (P / R * 2 ^ Z.max 0 e * 2 ^ k <= m * 2 ^ Z.max 0 e * 2 ^ k); [|lia].
  apply Z.mul_le_mono_nonneg_r; [lia|].
  apply Z.mul_le_mono_nonneg_r; lia.
Qed.

Lemma power_three_halves (n : nat) :
  ((3 # 2) ^ Z.of_nat n == 3 ^ Z.of_nat n # Z.to_pos (2 ^ Z.of_nat n))%Q.
Proof.
  induction n as [|n IH]; [reflexivity|].
  rewrite Nat2Z.inj_succ, <- Z.add_1_r.
  rewrite Qpower_plus by discriminate. rewrite IH.
  pose proof (pow2_pos (Z.of_nat n) ltac:(lia)) as Hp.
  change ((3 # 2) ^ 1)%Q with (3 # 2)%Q.
  unfold Qeq, Qmult. cbn [Qnum Qden].
  rewrite !Z.pow_add_r by lia. rewrite Pos2Z.inj_mul.
  rewrite !Z2Pos.id by lia. change (2 ^ 1) with 2. change (3 ^ 1) with 3.
  lia.
Qed.

(** Where the product has at most 53 bits no rounding takes place. *)
Lemma backoffDelay_exact (cfg : Config) (n : nat) :
  0 <= reconnectDelay cfg →
  reconnectDelay cfg * 3 ^ Z.of_nat n < 2 ^ 53 →
  (backoffDelay cfg n ==
     Qmin (inject_Z (reconnectDelay cfg) * (3 # 2) ^ Z.of_nat n)
          (inject_Z (maxBackoffDelay cfg)))%Q.
Proof.
  intros H0 Hrep. unfold backoffDelay.
  apply Q.min_compat; [|reflexivity].
  pose proof (Z.pow_pos_nonneg 3 (Z.of_nat n) ltac:(lia) ltac:(lia)) as H3.
  pose proof (pow2_pos (Z.of_nat n) ltac:(lia)) as H2.
  destruct (decide (reconnectDelay cfg = 0)) as [->|Hne].
  - assert (∀ x, round_double (inject_Z 0 * x) = 0%Q) as E.
    { intros [a b]. reflexivity. }
    rewrite E. symmetry. apply Qmult_0_l.
  - assert (round_double ((3 # 2) ^ Z.of_nat n) == (3 # 2) ^ Z.of_nat n)%Q as Hpow.
    { apply (round_double_exact _ (3 ^ Z.of_nat n) (Z.of_nat n));
        [nia|lia|apply power_three_halves]. }
    rewrite <- Hpow at 2.
    apply (round_double_exact _ (reconnectDelay cfg * 3 ^ Z.of_nat n) (Z.of_nat n));
      [nia|lia|].
    rewrite Hpow, power_three_halves.
    unfold Qeq, Qmult, inject_Z. cbn [Qnum Qden]. lia.
Qed.

(** Where the product has more than 53 bits the delay is the rounded
    one.  At attempt 28 with the base 5000 ms and the cap 10^9 ms the
    exact product is 14297995284350625 / 2^25, and the delay is the
    double next to it, 446812352635957 / 2^20 (426113464.9619646). *)
Lemma backoffDelay_rounded :
  (inject_Z 5000 * (3 # 2) ^ 28 == 14297995284350625 # 33554432)%Q ∧
  (backoffDelay (constructor high_cap_env) 28 == 446812352635957 # 1048576)%Q ∧
  ¬ (backoffDelay (constructor high_cap_env) 28 == inject_Z 5000 * (3 # 2) ^ 28)%Q.
Proof.
  split; [vm_compute; reflexivity|]. split; [vm_compute; reflexivity|].
  vm_compute. discriminate.
Qed.

Lemma backoffDelay_clamped (cfg : Config) (n : nat) :
  reconnectDelay cfg = 5000 →
  maxBackoffDelay cfg = 60000 →
  (7 ≤ n)%nat →
  (backoffDelay cfg n == 60000)%Q.
Proof.
  intros Hbase Hcap Hn. unfold backoffDelay. rewrite Hbase, Hcap.
  apply Q.min_r.
  apply (round_double_ge _ 60000 0); [split; reflexivity|lia|].
  apply Qle_trans with (inject_Z 5000 * (2187 # 128))%Q.
  - vm_compute. discriminate.
  - apply Qmult_le_l; [reflexivity|].
    apply (round_double_ge _ 2187 7); [split; reflexivity|lia|].
    apply Qle_trans with ((3 # 2) ^ 7)%Q; [vm_compute; discriminate|].
    apply Qpower_le_compat_l; [lia|]. vm_compute. discriminate.
Qed.

Lemma backoffDelay_table (cfg : Config) (n : nat) :
  reconnectDelay cfg = 5000 →
  maxBackoffDelay cfg = 60000 →
  (backoffDelay cfg n == nth n default_delays 60000)%Q.
Proof.
  intros Hbase Hcap.
  destruct (decide (7 ≤ n)%nat) as [Hn|Hn].
  - rewrite (backoffDelay_clamped cfg n Hbase Hcap Hn).
    rewrite nth_overflow; [reflexivity|]. simpl. lia.
  - unfold backoffDelay. rewrite Hbase, Hcap.
    do 7 (destruct n as [|n]; [vm_compute; reflexivity|]). lia.
Qed.

(** C2: when handleReconnect runs with the attempt counter at n below the
    maximum, it sets the counter to n + 1 and starts one reconnect timer.
    Its delay is min(baseDelay * 1.5^n, maxBackoffDelay) wherever the
    doubles of the code compute that product exactly, that is for a base
    that is not negative with baseDelay * 3^n below 2^53.  With the base
    5000 ms and the cap 60000 ms the delays are 5000, 7500, 11250, 16875,
    25312.5, 37968.75 and 56953.125 ms for attempts 0 to 6, and 60000 ms
    from attempt 7 on, for every n. *)
Theorem C2_reconnect_delay (cfg : Config) (now : Z) (id : string)
    (st : State) (s : StreamRecord) (d : gmap string jsval) (n : nat) :
  streams st !! id = Some s →
  diagnostics s = Some d →
  attempts_of id st = n →
  Z.of_nat n < maxReconnectAttempts cfg →
  ∃ st',
    handleReconnect cfg now id st = Normal st' ∧
    reconnectTimers st' !! id = Some (nextHandle st) ∧
    timers st' = <[nextHandle st := mkTimer KReconnect id (backoffDelay cfg n)]> (timers st) ∧
    attempts_of id st' = S n ∧
    (0 <= reconnectDelay cfg →
     reconnectDelay cfg * 3 ^ Z.of_nat n < 2 ^ 53 →
     (backoffDelay cfg n ==
        Qmin (inject_Z (reconnectDelay cfg) * (15 # 10) ^ Z.of_nat n)
             (inject_Z (maxBackoffDelay cfg)))%Q) ∧
    (reconnectDelay cfg = 5000 → maxBackoffDelay cfg = 60000 →
       (backoffDelay cfg n == nth n default_delays 60000)%Q ∧
       ((7 ≤ n)%nat → (backoffDelay cfg n == 60000)%Q)).
Proof.
  intros Hs Hd Hn Hmax. unfold handleReconnect. rewrite Hs.
  set (st1 := match reconnectAttempts st !! id with
              | Some _ => st
              | None => set_reconnectAttempts (<[id:=0%nat]> (reconnectAttempts st)) st
              end).
  assert (streams st1 = streams st ∧ timers st1 = timers st ∧
          nextHandle st1 = nextHandle st ∧
          attempts_of id st1 = attempts_of id st) as (E1 & E2 & E4 & E5).
  { subst st1. unfold attempts_of.
    destruct (reconnectAttempts st !! id) eqn:E; simpl; rewrite ?E;
      rewrite ?lookup_insert_eq; done. }
  rewrite E5, Hn.
  assert ((maxReconnectAttempts cfg <=? Z.of_nat n) = false) as ->
    by (apply Z.leb_gt; lia).
  rewrite Hd.
  assert (streams st1 !! id = Some s) as Hs1 by (by rewrite E1).
  unfold saveConfig, update_stream, setTimer. rewrite Hs1. simpl.
  eexists. split; [reflexivity|]. simpl.
  split; [rewrite E4; apply lookup_insert_eq|].
  split; [by rewrite E2, E4|].
  split; [unfold attempts_of; simpl; by rewrite lookup_insert_eq|].
  split.
  - intros H0 Hrep. rewrite (backoffDelay_exact cfg n H0 Hrep).
    assert ((3 # 2) ^ Z.of_nat n == (15 # 10) ^ Z.of_nat n)%Q as ->; [|reflexivity].
    apply Qpower_comp; reflexivity.
  - intros Hbase Hcap. split.
    + by apply backoffDelay_table.
    + by apply backoffDelay_clamped.
Qed.

Lemma C2_reconnect_delay_witness :
  is_Some (streams sample_crashed !! "cam1") ∧
  attempts_of "cam1" sample_crashed = 1%nat ∧
  ∃ st',
    handleReconnect (constructor default_env) 9500 "cam1" sample_crashed
      = Normal st' ∧
    timers st' =
      <[nextHandle sample_crashed :=
          mkTimer KReconnect "cam1" (backoffDelay (constructor default_env) 1)]>
        (timers sample_crashed) ∧
    (backoffDelay (constructor default_env) 1 ==
       Qmin (inject_Z 5000 * (15 # 10) ^ 1) (inject_Z 60000))%Q ∧
    (backoffDelay (constructor default_env) 1 == 7500)%Q.
Proof.
  split; [evaluated|]. split; [evaluated|].
  destruct (C2_reconnect_delay (constructor default_env) 9500 "cam1"
              sample_crashed (record_of "cam1" sample_crashed)
              (default ∅ (diagnostics (record_of "cam1" sample_crashed))) 1%nat)
    as (st' & H1 & _ & H2 & _ & H4 & H3).
  - apply lookup_record_of. evaluated.
  - apply diagnostics_default. evaluated.
  - evaluated.
  - apply Z.ltb_lt. evaluated.
  - exists st'. split; [exact H1|]. split; [exact H2|]. split.
    + apply H4; [apply Z.leb_le; reflexivity|apply Z.ltb_lt; reflexivity].
    + apply (H3 eq_refl eq_refl).
Defined.

(** ** Redirects *)

Section PlaylistFacts.

Variable net : string → HttpResult.
Variable origin : string → string.
Variable parseVariants : string → string → list Variant.

Lemma fetchUrl_redirect (u l : string) (statusCode : Z) (body : string) (k : nat) :
  net u = HttpResponse statusCode (Some l) body →
  300 <= statusCode < 400 →
  l ≠ "" →
  fetchUrl net origin u k =
    match k with
    | O => Rejected "Too many redirects"
    | S k' => fetchUrl net origin (if startsWith "http" l then l else origin u +:+ l) k'
    end.
Proof.
  intros Hnet [Hlo Hhi] Hl.
  destruct k; simpl; rewrite Hnet;
    apply Z.leb_le in Hlo; apply Z.ltb_lt in Hhi; rewrite Hlo, Hhi;
    (destruct (String.eqb l "") eqn:E; [apply String.eqb_eq in E; done|]);
    reflexivity.
Qed.

(** One redirect more than the budget: the fetch is rejected. *)
Lemma fetchUrl_too_many_redirects (k : nat) :
  ∀ u, redirects_at_least net origin (S k) u →
       fetchUrl net origin u k = Rejected "Too many redirects".
Proof.
  induction k as [|k IH]; intros u Hred; simpl in Hred;
    destruct (net u) as [statusCode [l|] body|] eqn:Hnet; try done;
    destruct Hred as (Hcode & Hl & Hrest);
    rewrite (fetchUrl_redirect u l statusCode body _ Hnet Hcode Hl).
  - reflexivity.
  - apply IH. exact Hrest.
Qed.

(** C8, as the code has it: for a source URL whose playlist needs more
    than five redirects, the fetch inside the analysis is rejected with
    'Too many redirects'; analyzeHlsPlaylist catches the rejection and
    resolves with the original URL as the candidate, selecting no
    variant. *)
Theorem C8_too_many_redirects_keeps_url (u : string) :
  redirects_at_least net origin 6 u →
  fetchUrl net origin u 5 = Rejected "Too many redirects" ∧
  analyzeHlsPlaylist net origin parseVariants u = Resolved (mkAnalysis u None).
Proof.
  intros Hred.
  pose proof (fetchUrl_too_many_redirects 5 u Hred) as Hfetch.
  split; [exact Hfetch|].
  unfold analyzeHlsPlaylist. by rewrite Hfetch.
Qed.

End PlaylistFacts.

Lemma always_redirect_needs_six :
  redirects_at_least always_redirect no_origin 6 "http://src/video.m3u8".
Proof. simpl. repeat split; (lia || discriminate). Qed.

Lemma C8_too_many_redirects_witness :
  redirects_at_least always_redirect no_origin 6 "http://src/video.m3u8" ∧
  fetchUrl always_redirect no_origin "http://src/video.m3u8" 5
    = Rejected "Too many redirects" ∧
  analyzeHlsPlaylist always_redirect no_origin no_variants "http://src/video.m3u8"
    = Resolved (mkAnalysis "http://src/video.m3u8" None).
Proof.
  split; [exact always_redirect_needs_six|].
  apply (C8_too_many_redirects_keeps_url always_redirect no_origin no_variants).
  exact always_redirect_needs_six.
Defined.

(** C8 as the specification words it fails: on a network where every URL
    redirects, resolving a URL is not rejected with 'Too many redirects';
    it resolves, with a candidate URL. *)
Lemma C8_resolve_returns_a_candidate :
  redirects_at_least always_redirect no_origin 6 "http://src/video.m3u8" ∧
  analyzeHlsPlaylist always_redirect no_origin no_variants "http://src/video.m3u8"
    ≠ Rejected "Too many redirects" ∧
  ∃ candidate,
    analyzeHlsPlaylist always_redirect no_origin no_variants "http://src/video.m3u8"
      = Resolved candidate ∧
    an_selectedUrl candidate = "http://src/video.m3u8".
Proof.
  split; [exact always_redirect_needs_six|].
  split; [vm_compute; discriminate|].
  eexists. split; [vm_compute; reflexivity|reflexivity].
Qed.

(** ** The tables after the timers of a stream were cleared *)

Lemma clearScreenshotTimer_tables id st :
  same_but_timers st (_clearScreenshotTimer id st) ∧
  reconnectTimers (_clearScreenshotTimer id st) = reconnectTimers st ∧
  segmentHealthChecks (_clearScreenshotTimer id st) = segmentHealthChecks st ∧
  monitors (_clearScreenshotTimer id st) = monitors st ∧
  screenshotTimers (_clearScreenshotTimer id st) = delete id (screenshotTimers st) ∧
  timers (_clearScreenshotTimer id st) =
    match screenshotTimers st !! id with
    | Some h => delete h (timers st)
    | None => timers st
    end.
Proof.
  unfold _clearScreenshotTimer, clearTimer, same_but_timers.
  destruct (screenshotTimers st !! id) eqn:E; split_and!; try reflexivity.
  symmetry. by apply delete_id.
Qed.

Lemma clearSegmentHealthCheck_tables id st :
  same_but_timers st (_clearSegmentHealthCheck id st) ∧
  reconnectTimers (_clearSegmentHealthCheck id st) = reconnectTimers st ∧
  screenshotTimers (_clearSegmentHealthCheck id st) = screenshotTimers st ∧
  monitors (_clearSegmentHealthCheck id st) = monitors st ∧
  segmentHealthChecks (_clearSegmentHealthCheck id st) = delete id (segmentHealthChecks st) ∧
  timers (_clearSegmentHealthCheck id st) =
    match segmentHealthChecks st !! id with
    | Some h => delete h (timers st)
    | None => timers st
    end.
Proof.
  unfold _clearSegmentHealthCheck, clearTimer, same_but_timers.
  destruct (segmentHealthChecks st !! id) eqn:E; split_and!; try reflexivity.
  symmetry. by apply delete_id.
Qed.

Lemma clearMonitoring_tables id st :
  same_but_timers st (_clearMonitoring id st) ∧
  reconnectTimers (_clearMonitoring id st) = reconnectTimers st ∧
  screenshotTimers (_clearMonitoring id st) = screenshotTimers st ∧
  segmentHealthChecks (_clearMonitoring id st) = segmentHealthChecks st ∧
  monitors (_clearMonitoring id st) = delete id (monitors st) ∧
  timers (_clearMonitoring id st) =
    match monitors st !! id with
    | Some h => delete h (timers st)
    | None => timers st
    end.
Proof.
  unfold _clearMonitoring, clearTimer, same_but_timers.
  destruct (monitors st !! id) eqn:E; split_and!; try reflexivity.
  symmetry. by apply delete_id.
Qed.

Lemma clearReconnectTimer_tables id st :
  same_but_timers st (clearReconnectTimer id st) ∧
  screenshotTimers (clearReconnectTimer id st) = screenshotTimers st ∧
  segmentHealthChecks (clearReconnectTimer id st) = segmentHealthChecks st ∧
  monitors (clearReconnectTimer id st) = monitors st ∧
  reconnectTimers (clearReconnectTimer id st) = delete id (reconnectTimers st) ∧
  timers (clearReconnectTimer id st) =
    match reconnectTimers st !! id with
    | Some h => delete h (timers st)
    | None => timers st
    end.
Proof.
  unfold clearReconnectTimer, clearTimer, same_but_timers.
  destruct (reconnectTimers st !! id) eqn:E; split_and!; try reflexivity.
  symmetry. by apply delete_id.
Qed.

(** ** Deleting, in general *)

(** What a delete does to a stream that is not running: the record, the
    handle, the directory, the preview file and the three interval timers
    go; the reconnect-timer table is not touched. *)
Lemma deleteStream_not_running id st s :
  streams st !! id = Some s →
  status s ≠ Running →
  snd (deleteStream id st) = true ∧
  streams (fst (deleteStream id st)) = delete id (streams st) ∧
  processes (fst (deleteStream id st)) = delete id (processes st) ∧
  hlsDirs (fst (deleteStream id st)) = hlsDirs st ∖ {[id]} ∧
  screenshotFiles (fst (deleteStream id st)) = screenshotFiles st ∖ {[id]} ∧
  monitors (fst (deleteStream id st)) = delete id (monitors st) ∧
  screenshotTimers (fst (deleteStream id st)) = delete id (screenshotTimers st) ∧
  segmentHealthChecks (fst (deleteStream id st)) = delete id (segmentHealthChecks st) ∧
  reconnectTimers (fst (deleteStream id st)) = reconnectTimers st ∧
  (∀ h, timers (fst (deleteStream id st)) !! h =
          if decide (monitors st !! id = Some h ∨
                     screenshotTimers st !! id = Some h ∨
                     segmentHealthChecks st !! id = Some h)
          then None else timers st !! h).
Proof.
  intros Hs Hne. unfold deleteStream. rewrite Hs.
  destruct (decide (status s = Running)) as [|_]; [done|].
  cbv zeta. cbn [fst snd].
  set (st1 := set_screenshotFiles _ (set_hlsDirs _ st)).
  destruct (clearScreenshotTimer_tables id st1)
    as ((A1 & A2 & A3 & A4 & A5) & A6 & A7 & A8 & A9 & A10).
  set (st2 := _clearScreenshotTimer id st1) in *.
  destruct (clearSegmentHealthCheck_tables id st2)
    as ((B1 & B2 & B3 & B4 & B5) & B6 & B7 & B8 & B9 & B10).
  set (st3 := _clearSegmentHealthCheck id st2) in *.
  destruct (clearMonitoring_tables id st3)
    as ((C1 & C2 & C3 & C4 & C5) & C6 & C7 & C8 & C9 & C10).
  set (st4 := _clearMonitoring id st3) in *.
  set (F := saveConfig _).
  split_and!.
  - reflexivity.
  - change (streams F) with (delete id (streams st4)). by rewrite C1, B1, A1.
  - change (processes F) with (delete id (processes st4)). by rewrite C2, B2, A2.
  - change (hlsDirs F) with (hlsDirs st4). by rewrite C4, B4, A4.
  - change (screenshotFiles F) with (screenshotFiles st4). by rewrite C5, B5, A5.
  - change (monitors F) with (monitors st4). by rewrite C9, B8, A8.
  - change (screenshotTimers F) with (screenshotTimers st4). by rewrite C7, B7, A9.
  - change (segmentHealthChecks F) with (segmentHealthChecks st4).
    by rewrite C8, B9, A7.
  - change (reconnectTimers F) with (reconnectTimers st4). by rewrite C6, B6, A6.
  - intros h. change (timers F) with (timers st4).
    rewrite C10, B8, A8, B10, A7, A10.
    change (monitors st1) with (monitors st).
    change (segmentHealthChecks st1) with (segmentHealthChecks st).
    change (screenshotTimers st1) with (screenshotTimers st).
    change (timers st1) with (timers st).
    destruct (monitors st !! id) as [hm|];
      destruct (segmentHealthChecks st !! id) as [hc|];
      destruct (screenshotTimers st !! id) as [hs|];
      rewrite ?lookup_delete; repeat case_decide; subst;
      first [done | exfalso; intuition congruence].
Qed.

(** What a stop that has something to do does to the timer tables: the
    four timers of the stream are cleared. *)
Lemma stopStream_tables id st s :
  streams st !! id = Some s →
  status s ≠ Stopped →
  hlsDirs (fst (stopStream id st)) = hlsDirs st ∧
  screenshotFiles (fst (stopStream id st)) = screenshotFiles st ∧
  reconnectTimers (fst (stopStream id st)) = delete id (reconnectTimers st) ∧
  screenshotTimers (fst (stopStream id st)) = delete id (screenshotTimers st) ∧
  segmentHealthChecks (fst (stopStream id st)) = delete id (segmentHealthChecks st) ∧
  monitors (fst (stopStream id st)) = delete id (monitors st) ∧
  (∀ h, timers (fst (stopStream id st)) !! h =
          if decide (reconnectTimers st !! id = Some h ∨
                     monitors st !! id = Some h ∨
                     screenshotTimers st !! id = Some h ∨
                     segmentHealthChecks st !! id = Some h)
          then None else timers st !! h).
Proof.
  intros Hs Hne. unfold stopStream. rewrite Hs.
  destruct (decide (status s = Stopped)) as [|_]; [done|].
  cbv zeta. cbn [fst snd].
  set (st1 := match processes st !! id with
              | Some pid => set_processes (delete id (processes st)) (kill pid st)
              | None => st
              end).
  assert (hlsDirs st1 = hlsDirs st ∧ screenshotFiles st1 = screenshotFiles st ∧
          reconnectTimers st1 = reconnectTimers st ∧
          screenshotTimers st1 = screenshotTimers st ∧
          segmentHealthChecks st1 = segmentHealthChecks st ∧
          monitors st1 = monitors st ∧ timers st1 = timers st)
    as (K1 & K2 & K3 & K4 & K5 & K6 & K7).
  { subst st1. unfold kill.
    destruct (processes st !! id); [|by split_and!].
    destruct (children st !! _); by split_and!. }
  destruct (clearReconnectTimer_tables id st1)
    as ((R1 & R2 & R3 & R4 & R5) & R6 & R7 & R8 & R9 & R10).
  set (st2 := clearReconnectTimer id st1) in *.
  destruct (clearScreenshotTimer_tables id st2)
    as ((A1 & A2 & A3 & A4 & A5) & A6 & A7 & A8 & A9 & A10).
  set (st3 := _clearScreenshotTimer id st2) in *.
  destruct (clearSegmentHealthCheck_tables id st3)
    as ((B1 & B2 & B3 & B4 & B5) & B6 & B7 & B8 & B9 & B10).
  set (st4 := _clearSegmentHealthCheck id st3) in *.
  destruct (clearMonitoring_tables id st4)
    as ((C1 & C2 & C3 & C4 & C5) & C6 & C7 & C8 & C9 & C10).
  set (st5 := _clearMonitoring id st4) in *.
  set (F := saveConfig _).
  assert (hlsDirs F = hlsDirs st5 ∧ screenshotFiles F = screenshotFiles st5 ∧
          reconnectTimers F = reconnectTimers st5 ∧
          screenshotTimers F = screenshotTimers st5 ∧
          segmentHealthChecks F = segmentHealthChecks st5 ∧
          monitors F = monitors st5 ∧ timers F = timers st5)
    as (F1 & F2 & F3 & F4 & F5 & F6 & F7).
  { subst F. unfold saveConfig, update_stream.
    destruct (streams st5 !! id); by split_and!. }
  split_and!.
  - by rewrite F1, C4, B4, A4, R4, K1.
  - by rewrite F2, C5, B5, A5, R5, K2.
  - by rewrite F3, C6, B6, A6, R9, K3.
  - by rewrite F4, C7, B7, A9, R6, K4.
  - by rewrite F5, C8, B9, A7, R7, K5.
  - by rewrite F6, C9, B8, A8, R8, K6.
  - intros h.
    rewrite F7, C10, B8, A8, R8, K6, B10, A7, R7, K5, A10, R6, K4, R10, K3, K7.
    destruct (monitors st !! id) as [hm|];
      destruct (segmentHealthChecks st !! id) as [hc|];
      destruct (screenshotTimers st !! id) as [hs|];
      destruct (reconnectTimers st !! id) as [hr|];
      rewrite ?lookup_delete; repeat case_decide; subst;
      first [done | exfalso; intuition congruence].
Qed.

(** A delete of a running stream is the stop followed by the delete of
    the stopped stream. *)
Lemma deleteStream_running id st s :
  streams st !! id = Some s →
  status s = Running →
  deleteStream id st = deleteStream id (fst (stopStream id st)).
Proof.
  intros Hs Hrun.
  assert (status s ≠ Stopped) as Hne by (rewrite Hrun; discriminate).
  destruct (stopStream_effect id st s Hs Hne) as (_ & Hstr & _).
  unfold deleteStream at 1 2. rewrite Hs, Hstr, lookup_insert_eq.
  destruct (decide (status s = Running)); [|done].
  destruct (decide (status (set_health Unknown (set_status Stopped s)) = Running))
    as [Hbad|_]; [discriminate Hbad|]. reflexivity.
Qed.

(** Deleting an existing stream: the record, the handle, the directory
    and the preview file are gone, and the monitoring, screenshot and
    segment-health timers are cleared.  The reconnect timer is cleared
    when the stream was running (by the stop); otherwise the
    reconnect-timer table is as before, and a reconnect timer of the
    stream stays live. *)
Theorem deleteStream_removes (id : string) (st : State) (s : StreamRecord) :
  streams st !! id = Some s →
  snd (deleteStream id st) = true ∧
  getStream id (fst (deleteStream id st)) = None ∧
  processes (fst (deleteStream id st)) !! id = None ∧
  (id ∉ hlsDirs (fst (deleteStream id st))) ∧
  (id ∉ screenshotFiles (fst (deleteStream id st))) ∧
  monitors (fst (deleteStream id st)) !! id = None ∧
  screenshotTimers (fst (deleteStream id st)) !! id = None ∧
  segmentHealthChecks (fst (deleteStream id st)) !! id = None ∧
  (∀ h, monitors st !! id = Some h ∨ screenshotTimers st !! id = Some h ∨
        segmentHealthChecks st !! id = Some h →
        timers (fst (deleteStream id st)) !! h = None) ∧
  (status s = Running →
     reconnectTimers (fst (deleteStream id st)) !! id = None ∧
     ∀ h, reconnectTimers st !! id = Some h →
          timers (fst (deleteStream id st)) !! h = None) ∧
  (status s ≠ Running →
     reconnectTimers (fst (deleteStream id st)) = reconnectTimers st ∧
     ∀ h, reconnectTimers st !! id = Some h →
          monitors st !! id ≠ Some h → screenshotTimers st !! id ≠ Some h →
          segmentHealthChecks st !! id ≠ Some h →
          timers (fst (deleteStream id st)) !! h = timers st !! h).
Proof.
  intros Hs. unfold getStream.
  destruct (decide (status s = Running)) as [Hrun|Hnot].
  - assert (status s ≠ Stopped) as Hne by (rewrite Hrun; discriminate).
    rewrite (deleteStream_running id st s Hs Hrun).
    destruct (stopStream_effect id st s Hs Hne) as (_ & Hstr & _).
    destruct (stopStream_tables id st s Hs Hne) as (_ & _ & T3 & T4 & T5 & T6 & T7).
    set (st0 := fst (stopStream id st)) in *.
    destruct (deleteStream_not_running id st0
                (set_health Unknown (set_status Stopped s)))
      as (D1 & D2 & D3 & D4 & D5 & D6 & D7 & D8 & D9 & D10).
    { rewrite Hstr. apply lookup_insert_eq. }
    { discriminate. }
    split_and!.
    + exact D1.
    + rewrite D2. apply lookup_delete_eq.
    + rewrite D3. apply lookup_delete_eq.
    + rewrite D4, not_elem_of_difference, elem_of_singleton. by right.
    + rewrite D5, not_elem_of_difference, elem_of_singleton. by right.
    + rewrite D6. apply lookup_delete_eq.
    + rewrite D7. apply lookup_delete_eq.
    + rewrite D8. apply lookup_delete_eq.
    + intros h Hh. rewrite D10. case_decide; [done|].
      rewrite T7. case_decide; [done|]. exfalso. intuition.
    + intros _. split.
      * rewrite D9, T3. apply lookup_delete_eq.
      * intros h Hh. rewrite D10. case_decide; [done|].
        rewrite T7. case_decide; [done|]. exfalso. intuition.
    + intros Hbad. done.
  - destruct (deleteStream_not_running id st s Hs Hnot)
      as (D1 & D2 & D3 & D4 & D5 & D6 & D7 & D8 & D9 & D10).
    split_and!.
    + exact D1.
    + rewrite D2. apply lookup_delete_eq.
    + rewrite D3. apply lookup_delete_eq.
    + rewrite D4, not_elem_of_difference, elem_of_singleton. by right.
    + rewrite D5, not_elem_of_difference, elem_of_singleton. by right.
    + rewrite D6. apply lookup_delete_eq.
    + rewrite D7. apply lookup_delete_eq.
    + rewrite D8. apply lookup_delete_eq.
    + intros h Hh. rewrite D10. by case_decide.
    + intros Hbad. done.
    + intros _. split; [exact D9|].
      intros h _ H1 H2 H3. rewrite D10. case_decide; [|done].
      exfalso. intuition.
Qed.

Lemma deleteStream_removes_witness :
  streams sample_running !! "cam1" = Some (record_of "cam1" sample_running) ∧
  snd (deleteStream "cam1" sample_running) = true ∧
  getStream "cam1" (fst (deleteStream "cam1" sample_running)) = None ∧
  processes (fst (deleteStream "cam1" sample_running)) !! "cam1" = None.
Proof.
  assert (streams sample_running !! "cam1" = Some (record_of "cam1" sample_running))
    as Hs by (apply lookup_record_of; evaluated).
  split; [exact Hs|].
  destruct (deleteStream_removes "cam1" sample_running
              (record_of "cam1" sample_running) Hs) as (H1 & H2 & H3 & _).
  split; [exact H1|]. split; [exact H2|exact H3].
Defined.

(** ** Deleting, at the sample stream *)

(** C9, at a stream whose child has exited: the record has status error
    and its reconnect timer (handle 6) is waiting.  deleteStream removes
    the record, the directory and the three interval timers, but the
    reconnect timer is still in the table and still live afterwards. *)
Theorem C9_delete_keeps_reconnect_timer :
  status_of "cam1" sample_crashed = Some Error ∧
  reconnectTimers sample_crashed !! "cam1" = Some 6%nat ∧
  snd (deleteStream "cam1" sample_crashed) = true ∧
  getStream "cam1" (fst (deleteStream "cam1" sample_crashed)) = None ∧
  ("cam1" ∉ hlsDirs (fst (deleteStream "cam1" sample_crashed))) ∧
  monitors (fst (deleteStream "cam1" sample_crashed)) !! "cam1" = None ∧
  screenshotTimers (fst (deleteStream "cam1" sample_crashed)) !! "cam1" = None ∧
  segmentHealthChecks (fst (deleteStream "cam1" sample_crashed)) !! "cam1" = None ∧
  reconnectTimers (fst (deleteStream "cam1" sample_crashed)) !! "cam1" = Some 6%nat ∧
  t_kind <$> timers (fst (deleteStream "cam1" sample_crashed)) !! 6%nat
    = Some KReconnect ∧
  t_owner <$> timers (fst (deleteStream "cam1" sample_crashed)) !! 6%nat
    = Some "cam1".
Proof.
  repeat split; try (vm_compute; reflexivity).
  apply (bool_decide_eq_true_1 _). vm_compute. reflexivity.
Qed.

(** ** The stale-segment threshold *)

Lemma lookup_updateStreamHealth now id h st (s : StreamRecord) :
  streams st !! id = Some s →
  streams (_updateStreamHealth now id (Some h) st) !! id = Some (set_health h s).
Proof.
  intros Hs. unfold _updateStreamHealth. rewrite Hs.
  by apply lookup_update_stream_eq.
Qed.

Lemma lookup_check_fails now id ty msg text st (s : StreamRecord) :
  streams st !! id = Some s →
  streams (check_fails now id ty msg text st) !! id =
    Some (set_health Poor
            (set_diag "healthCheckStatus" (JStr text)
               (_recordError_record now ty msg s))).
Proof.
  intros Hs. unfold check_fails.
  apply lookup_updateStreamHealth, lookup_update_stream_eq.
  by apply lookup_recordError.
Qed.

Lemma health_diag_after_set (h : Health) (text : string) (id : string)
    (st : State) (f : StreamRecord → StreamRecord) (s : StreamRecord) :
  streams st !! id =
    Some (f (set_health h (set_diag "healthCheckStatus" (JStr text) s))) →
  (∀ r, health (f r) = health r ∧ diagnostics (f r) = diagnostics r) →
  health_of id st = Some h ∧
  diag_of id "healthCheckStatus" st = Some (JStr text).
Proof.
  intros Hs Hf. unfold health_of, diag_of. rewrite Hs. cbn.
  destruct (Hf (set_health h (set_diag "healthCheckStatus" (JStr text) s)))
    as [-> Hd].
  split; [reflexivity|]. unfold get_diag. rewrite Hd.
  unfold set_diag. cbn. apply lookup_insert_eq.
Qed.

(** The sort of the segment files is a stable sort, newest first: it
    permutes its input, and no file stands before a newer one. *)
Lemma insert_newest_first_perm x l : insert_newest_first x l ≡ₚ x :: l.
Proof.
  induction l as [|y l IH]; [done|]. cbn [insert_newest_first].
  destruct (snd y <? snd x); [done|]. rewrite IH. apply Permutation_swap.
Qed.

Lemma sort_newest_first_perm l : sort_newest_first l ≡ₚ l.
Proof.
  unfold sort_newest_first.
  assert (∀ acc, foldl (fun acc x => insert_newest_first x acc) acc l ≡ₚ l ++ acc)
    as H; [|by rewrite H, app_nil_r].
  induction l as [|x l IH]; intros acc; [done|]. cbn [foldl].
  rewrite IH, insert_newest_first_perm. cbn [app].
  by rewrite Permutation_middle.
Qed.

Lemma insert_newest_first_sorted x l :
  StronglySorted (fun a b : string * Z => snd b <= snd a) l →
  StronglySorted (fun a b : string * Z => snd b <= snd a) (insert_newest_first x l).
Proof.
  induction 1 as [|y l Hl IH Hy]; cbn [insert_newest_first].
  - repeat constructor.
  - destruct (snd y <? snd x) eqn:E.
    + apply Z.ltb_lt in E.
      constructor; [by constructor|]. constructor; [lia|].
      eapply Forall_impl; [exact Hy|]. intros z Hz. cbn in Hz. lia.
    + apply Z.ltb_ge in E. constructor; [done|].
      rewrite insert_newest_first_perm. by constructor.
Qed.

Lemma sort_newest_first_sorted l :
  StronglySorted (fun a b : string * Z => snd b <= snd a) (sort_newest_first l).
Proof.
  unfold sort_newest_first.
  assert (∀ acc, StronglySorted (fun a b : string * Z => snd b <= snd a) acc →
            StronglySorted (fun a b : string * Z => snd b <= snd a)
              (foldl (fun acc x => insert_newest_first x acc) acc l)) as H;
    [|apply H; constructor].
  induction l as [|x l IH]; intros acc Hacc; [done|]. cbn [foldl].
  by apply IH, insert_newest_first_sorted.
Qed.

(** The first file of the sorted list is a file of the listing, and none
    of the listing is newer. *)
Lemma sort_newest_first_head l x rest :
  sort_newest_first l = x :: rest →
  x ∈ l ∧ ∀ f, f ∈ l → snd f <= snd x.
Proof.
  intros Hsort. pose proof (sort_newest_first_perm l) as Hperm.
  pose proof (sort_newest_first_sorted l) as Hsorted.
  rewrite Hsort in Hperm, Hsorted. split.
  - rewrite <- Hperm. apply elem_of_cons. by left.
  - intros f Hf. rewrite <- Hperm in Hf.
    apply elem_of_cons in Hf as [->|Hf]; [lia|].
    inversion Hsorted as [|? ? _ Hall]; subst.
    rewrite Forall_forall in Hall. by apply Hall.
Qed.

(** The check on the first file of the sorted list. *)
Lemma check_decides_by_head (env : Env) (now : Z) (id : string)
    (st : State) (s : StreamRecord) (content : string)
    (files : list (string * Z)) (latest : string * Z) (rest : list (string * Z))
    (resolution : option string) :
  streams st !! id = Some s →
  status s = Running →
  count_matches ".ts" content ≠ 0%nat →
  sort_newest_first (filter (fun f => endsWith ".ts" (fst f) = true) files)
    = latest :: rest →
  let st' := checkStreamSegmentHealth env now id (DirReads (Some content) files)
               resolution st in
  if decide (env_or (MAX_SEGMENT_AGE env) 30 * 1000 < now - snd latest)
  then health_of id st' = Some Poor ∧
       diag_of id "healthCheckStatus" st' = Some (JStr "Stale segments")
  else health_of id st' = Some Good ∧
       diag_of id "healthCheckStatus" st' = Some (JStr "Healthy").
Proof.
  intros Hs Hrun Hcount Hsort st'. subst st'.
  unfold checkStreamSegmentHealth. rewrite Hs.
  destruct (decide (status s = Running)) as [_|]; [|done].
  cbv zeta.
  (* the record after the preamble of the check *)
  match goal with
  | |- context [update_stream id (set_diag "segmentCount" ?v) ?x] =>
      set (st1 := update_stream id (set_diag "segmentCount" v) x)
  end.
  assert (∃ s1, streams st1 !! id = Some s1) as [s1 Hs1].
  { subst st1.
    match goal with
    | |- context [set_hlsDirs _ ?x] => set (st0 := x)
    end.
    assert (∃ s0, streams st0 !! id = Some s0) as [s0 Hs0].
    { subst st0. destruct (hlsPath s) as [p|]; [destruct (String.eqb p "")|];
        eexists; first [exact Hs | by apply lookup_update_stream_eq]. }
    eexists.
    apply lookup_update_stream_eq, lookup_update_stream_eq, lookup_update_stream_eq.
    exact Hs0. }
  destruct (count_matches ".ts" content =? 0)%nat eqn:E;
    [apply Nat.eqb_eq in E; done|].
  rewrite Hsort.
  match goal with
  | |- context [segment_too_old env now (snd latest)] =>
      unfold segment_too_old
  end.
  set (st2 := update_stream id _ st1).
  assert (∃ s2, streams st2 !! id = Some s2) as [s2 Hs2].
  { subst st2. eexists. by apply lookup_update_stream_eq. }
  destruct (decide (env_or (MAX_SEGMENT_AGE env) 30 * 1000 < now - snd latest))
    as [Hold|Hfresh].
  - apply Z.ltb_lt in Hold. rewrite Hold.
    apply (health_diag_after_set _ _ _ _ (fun r => r) _
             (lookup_check_fails _ _ _ _ _ _ _ Hs2)).
    by intros r.
  - apply Z.ltb_nlt in Hfresh. rewrite Hfresh.
    set (st3 := _updateStreamHealth now id (Some Good) _).
    assert (streams st3 !! id =
              Some (set_health Good (set_diag "healthCheckStatus" (JStr "Healthy") s2)))
      as Hs3.
    { subst st3. by apply lookup_updateStreamHealth, lookup_update_stream_eq. }
    rewrite Hs3.
    destruct (truthy _);
      [by apply (health_diag_after_set _ _ _ _ (fun r => r) _ Hs3)|].
    destruct resolution as [r|];
      [|by apply (health_diag_after_set _ _ _ _ (fun r => r) _ Hs3)].
    destruct (String.eqb r "");
      [by apply (health_diag_after_set _ _ _ _ (fun r => r) _ Hs3)|].
    apply (health_diag_after_set _ _ _ _
             (fun s => set_info "resolution" (JStr r)
                         match streamInfo s with
                         | Some _ => s
                         | None => set_streamInfo (Some ∅) s
                         end) s2).
    + rewrite streams_saveConfig.
      apply lookup_update_stream_eq.
      exact (lookup_update_stream_eq id _ st3 _ Hs3).
    + intros r'. by destruct (streamInfo r').
Qed.

(** The check of a running stream whose playlist lists segments and whose
    directory holds segment files: the age of a newest segment file (one
    whose modification time no segment file of the directory exceeds)
    decides, and the threshold is MAX_SEGMENT_AGE seconds, 30 when the
    variable is not set; [maxSegmentAge] of the settings plays no part.
    Older than that, the health is poor and the status text 'Stale
    segments'; otherwise the health is good and the text 'Healthy'. *)
Theorem checkStreamSegmentHealth_threshold (env : Env) (now : Z) (id : string)
    (st : State) (s : StreamRecord) (content : string)
    (files : list (string * Z)) (newest : string * Z)
    (resolution : option string) :
  streams st !! id = Some s →
  status s = Running →
  count_matches ".ts" content ≠ 0%nat →
  newest ∈ files →
  endsWith ".ts" (fst newest) = true →
  (∀ f, f ∈ files → endsWith ".ts" (fst f) = true → snd f <= snd newest) →
  let st' := checkStreamSegmentHealth env now id (DirReads (Some content) files)
               resolution st in
  if decide (env_or (MAX_SEGMENT_AGE env) 30 * 1000 < now - snd newest)
  then health_of id st' = Some Poor ∧
       diag_of id "healthCheckStatus" st' = Some (JStr "Stale segments")
  else health_of id st' = Some Good ∧
       diag_of id "healthCheckStatus" st' = Some (JStr "Healthy").
Proof.
  intros Hs Hrun Hcount Hin Hts Hmax.
  destruct (sort_newest_first (filter (fun f => endsWith ".ts" (fst f) = true) files))
    as [|latest rest] eqn:Hsort.
  { pose proof (sort_newest_first_perm
                  (filter (fun f => endsWith ".ts" (fst f) = true) files)) as Hperm.
    rewrite Hsort in Hperm. apply Permutation_nil_l in Hperm.
    assert (newest ∈ filter (fun f => endsWith ".ts" (fst f) = true) files) as Hn
      by (by apply list_elem_of_filter).
    rewrite <- Hperm in Hn. by apply not_elem_of_nil in Hn. }
  destruct (sort_newest_first_head _ _ _ Hsort) as [Hlatest Hall].
  apply list_elem_of_filter in Hlatest as [Hlts Hlin].
  assert (snd latest = snd newest) as <-.
  { apply Z.le_antisymm; [by apply Hmax|].
    apply Hall. by apply list_elem_of_filter. }
  exact (check_decides_by_head env now id st s content files latest rest resolution
           Hs Hrun Hcount Hsort).
Qed.

Lemma checkStreamSegmentHealth_threshold_witness :
  streams sample_running !! "cam1" = Some (record_of "cam1" sample_running) ∧
  status (record_of "cam1" sample_running) = Running ∧
  health_of "cam1"
    (checkStreamSegmentHealth default_env 100000 "cam1" sample_dir None sample_running)
    = Some Good ∧
  diag_of "cam1" "healthCheckStatus"
    (checkStreamSegmentHealth default_env 100000 "cam1" sample_dir None sample_running)
    = Some (JStr "Healthy").
Proof.
  assert (streams sample_running !! "cam1" = Some (record_of "cam1" sample_running))
    as Hs by (apply lookup_record_of; evaluated).
  assert (status (record_of "cam1" sample_running) = Running) as Hrun by evaluated.
  split; [exact Hs|]. split; [exact Hrun|].
  pose proof (checkStreamSegmentHealth_threshold default_env 100000 "cam1"
                sample_running (record_of "cam1" sample_running) sample_playlist
                [("playlist.m3u8", 80000); ("segment_000.ts", 78000);
                 ("segment_001.ts", 80000)]
                ("segment_001.ts", 80000) None
                Hs Hrun) as H.
  cbv zeta in H.
  destruct (decide (env_or (MAX_SEGMENT_AGE default_env) 30 * 1000
                    < 100000 - ("segment_001.ts", 80000).2)) as [Hlt|_].
  - exfalso. apply Z.ltb_lt in Hlt. discriminate Hlt.
  - apply H; [apply Nat.eqb_neq; evaluated | | evaluated |].
    + apply elem_of_cons; right. apply elem_of_cons; right.
      apply elem_of_cons; by left.
    + intros f Hf _.
      apply elem_of_cons in Hf as [->|Hf]; [apply Z.leb_le; reflexivity|].
      apply elem_of_cons in Hf as [->|Hf]; [apply Z.leb_le; reflexivity|].
      apply elem_of_cons in Hf as [->|Hf]; [apply Z.leb_le; reflexivity|].
      by apply not_elem_of_nil in Hf.
Defined.

(** C6, with no environment variable set: the constructor computes
    maxSegmentAge as 3 times the 4 s segment time, 12000 ms, but the check
    compares with 30 s.  The newest segment of the running sample stream
    is 20 s old, older than 12 s, and the check reports 'Healthy' and
    health good. *)
Theorem C6_check_ignores_maxSegmentAge :
  maxSegmentAge (constructor default_env) = 3 * hlsSegmentTime (constructor default_env) * 1000 ∧
  maxSegmentAge (constructor default_env) = 12000 ∧
  status_of "cam1" sample_running = Some Running ∧
  maxSegmentAge (constructor default_env) < 100000 - 80000 ∧
  diag_of "cam1" "latestSegment"
    (checkStreamSegmentHealth default_env 100000 "cam1" sample_dir None sample_running)
    = Some (JStr "segment_001.ts") ∧
  diag_of "cam1" "latestSegmentAge"
    (checkStreamSegmentHealth default_env 100000 "cam1" sample_dir None sample_running)
    = Some (JNum 20) ∧
  diag_of "cam1" "healthCheckStatus"
    (checkStreamSegmentHealth default_env 100000 "cam1" sample_dir None sample_running)
    = Some (JStr "Healthy") ∧
  health_of "cam1"
    (checkStreamSegmentHealth default_env 100000 "cam1" sample_dir None sample_running)
    = Some Good.
Proof.
  repeat split; vm_compute; reflexivity.
Qed.

(** ** The lifecycle invariant *)

Lemma fmap_status_alter_keep f id (m : gmap string StreamRecord) :
  keeps_status f → status <$> alter f id m = status <$> m.
Proof.
  intros Hf. apply map_eq. intros j.
  rewrite !lookup_fmap, lookup_alter.
  case_decide; subst; [|done].
  destruct (m !! j); simpl; [|done]. by rewrite Hf.
Qed.

Lemma fmap_status_alter_set f v id (m : gmap string StreamRecord) :
  (∀ s, status (f s) = v) →
  status <$> alter f id m = alter (fun _ => v) id (status <$> m).
Proof.
  intros Hf. apply map_eq. intros j.
  rewrite lookup_fmap, !lookup_alter.
  case_decide; subst; rewrite lookup_fmap; [|done].
  destruct (m !! j); simpl; [|done]. by rewrite Hf.
Qed.

Lemma streams_recordError now id ty msg st :
  streams (_recordError now id ty msg st) =
    alter (_recordError_record now ty msg) id (streams st).
Proof.
  unfold _recordError. apply map_eq. intros j. rewrite lookup_alter.
  destruct (streams st !! id) as [s|] eqn:E; simpl.
  - rewrite lookup_insert. case_decide; subst; by rewrite ?E.
  - case_decide; subst; by rewrite ?E.
Qed.

Lemma status_analyzeErrorPatterns_record s :
  status (analyzeErrorPatterns_record s) = status s.
Proof. unfold analyzeErrorPatterns_record. repeat case_match; reflexivity. Qed.

Lemma keeps_status_recordError_record now ty msg :
  keeps_status (_recordError_record now ty msg).
Proof.
  intros s. unfold _recordError_record.
  by rewrite status_analyzeErrorPatterns_record.
Qed.

Lemma processes_recordError now id ty msg st :
  processes (_recordError now id ty msg st) = processes st.
Proof. unfold _recordError. by case_match. Qed.

Ltac unfold_setters :=
  unfold set_streams, set_processes, set_reconnectAttempts, set_reconnectTimers,
    set_screenshotTimers, set_segmentHealthChecks, set_monitors,
    set_selectedVariantInfo, set_timers, set_children, set_nextHandle,
    set_pendingStarts, set_pendingProbes, set_saved, set_hlsDirs,
    set_screenshotFiles in *.

Ltac norm_state :=
  unfold_setters;
  cbn [streams processes reconnectAttempts reconnectTimers screenshotTimers
       segmentHealthChecks monitors selectedVariantInfo timers children
       nextHandle pendingStarts pendingProbes saved hlsDirs screenshotFiles
       fst snd state_of] in *.

Ltac solve_keeps :=
  let s := fresh "s" in
  intros s; cbn; repeat case_match; reflexivity.

Lemma processes_updateStreamHealth now id h st :
  processes (_updateStreamHealth now id h st) = processes st.
Proof.
  unfold _updateStreamHealth. repeat case_match; by rewrite ?processes_update_stream.
Qed.

Lemma statuses_updateStreamHealth now id h st :
  status <$> streams (_updateStreamHealth now id h st) = status <$> streams st.
Proof.
  unfold _updateStreamHealth.
  repeat case_match; rewrite ?streams_update_stream;
    try reflexivity; apply fmap_status_alter_keep; solve_keeps.
Qed.

Lemma quiet_refl st : quiet st st.
Proof. by split. Qed.

Lemma quiet_trans st1 st2 st3 : quiet st1 st2 → quiet st2 st3 → quiet st1 st3.
Proof. intros [H1 H2] [H3 H4]. split; congruence. Qed.

Lemma quiet_update_stream id f st :
  keeps_status f → quiet st (update_stream id f st).
Proof.
  intros Hf. split.
  - rewrite streams_update_stream. by apply fmap_status_alter_keep.
  - apply processes_update_stream.
Qed.

Lemma quiet_recordError now id ty msg st : quiet st (_recordError now id ty msg st).
Proof.
  split.
  - rewrite streams_recordError.
    apply fmap_status_alter_keep, keeps_status_recordError_record.
  - apply processes_recordError.
Qed.

Lemma quiet_updateStreamHealth now id h st : quiet st (_updateStreamHealth now id h st).
Proof. split; [apply statuses_updateStreamHealth|apply processes_updateStreamHealth]. Qed.

Lemma quiet_saveConfig st : quiet st (saveConfig st).
Proof. by split. Qed.


Lemma quiet_frame st st' :
  streams st' = streams st → processes st' = processes st → quiet st st'.
Proof. intros H1 H2. split; congruence. Qed.

Ltac quiet_by_frame := apply quiet_frame; frame.

Lemma quiet_clearReconnectTimer id st : quiet st (clearReconnectTimer id st).
Proof. quiet_by_frame. Qed.
Lemma quiet_clearScreenshotTimer id st : quiet st (_clearScreenshotTimer id st).
Proof. quiet_by_frame. Qed.
Lemma quiet_clearSegmentHealthCheck id st : quiet st (_clearSegmentHealthCheck id st).
Proof. quiet_by_frame. Qed.
Lemma quiet_clearMonitoring id st : quiet st (_clearMonitoring id st).
Proof. quiet_by_frame. Qed.
Lemma quiet_setupMonitoring id st : quiet st (_setupMonitoring id st).
Proof. quiet_by_frame. Qed.
Lemma quiet_startScreenshotTimer cfg id st : quiet st (startScreenshotTimer cfg id st).
Proof. quiet_by_frame. Qed.
Lemma quiet_startSegmentHealthCheck cfg id st :
  quiet st (startSegmentHealthCheck cfg id st).
Proof. quiet_by_frame. Qed.
Lemma quiet_setTimer k id delay st : quiet st (snd (setTimer k id delay st)).
Proof. quiet_by_frame. Qed.
Lemma quiet_kill pid st : quiet st (kill pid st).
Proof. quiet_by_frame. Qed.

(** Chains of quiet operations, outermost first. *)
Ltac quiet_setter x := eapply (quiet_trans _ x); [|by apply quiet_frame].

Ltac quiet_step :=
  lazymatch goal with
  | |- quiet ?a ?a => apply quiet_refl
  | |- quiet _ (saveConfig _) => eapply quiet_trans; [|apply quiet_saveConfig]
  | |- quiet _ (_updateStreamHealth _ _ _ _) =>
      eapply quiet_trans; [|apply quiet_updateStreamHealth]
  | |- quiet _ (_recordError _ _ _ _ _) =>
      eapply quiet_trans; [|apply quiet_recordError]
  | |- quiet _ (update_stream _ _ _) =>
      eapply quiet_trans; [|apply quiet_update_stream; solve_keeps]
  | |- quiet _ (clearReconnectTimer _ _) =>
      eapply quiet_trans; [|apply quiet_clearReconnectTimer]
  | |- quiet _ (_clearScreenshotTimer _ _) =>
      eapply quiet_trans; [|apply quiet_clearScreenshotTimer]
  | |- quiet _ (_clearSegmentHealthCheck _ _) =>
      eapply quiet_trans; [|apply quiet_clearSegmentHealthCheck]
  | |- quiet _ (_clearMonitoring _ _) =>
      eapply quiet_trans; [|apply quiet_clearMonitoring]
  | |- quiet _ (_setupMonitoring _ _) =>
      eapply quiet_trans; [|apply quiet_setupMonitoring]
  | |- quiet _ (startScreenshotTimer _ _ _) =>
      eapply quiet_trans; [|apply quiet_startScreenshotTimer]
  | |- quiet _ (startSegmentHealthCheck _ _ _) =>
      eapply quiet_trans; [|apply quiet_startSegmentHealthCheck]
  | |- quiet _ (snd (setTimer _ _ _ _)) =>
      eapply quiet_trans; [|apply quiet_setTimer]
  | |- quiet _ (kill _ _) => eapply quiet_trans; [|apply quiet_kill]
  | |- quiet _ (set_reconnectAttempts _ ?x) => quiet_setter x
  | |- quiet _ (set_reconnectTimers _ ?x) => quiet_setter x
  | |- quiet _ (set_screenshotTimers _ ?x) => quiet_setter x
  | |- quiet _ (set_segmentHealthChecks _ ?x) => quiet_setter x
  | |- quiet _ (set_monitors _ ?x) => quiet_setter x
  | |- quiet _ (set_selectedVariantInfo _ ?x) => quiet_setter x
  | |- quiet _ (set_timers _ ?x) => quiet_setter x
  | |- quiet _ (set_children _ ?x) => quiet_setter x
  | |- quiet _ (set_nextHandle _ ?x) => quiet_setter x
  | |- quiet _ (set_pendingStarts _ ?x) => quiet_setter x
  | |- quiet _ (set_pendingProbes _ ?x) => quiet_setter x
  | |- quiet _ (set_saved _ ?x) => quiet_setter x
  | |- quiet _ (set_hlsDirs _ ?x) => quiet_setter x
  | |- quiet _ (set_screenshotFiles _ ?x) => quiet_setter x
  end.

Ltac quiet_chain := cbv zeta; repeat quiet_step; try exact (quiet_refl _).

Lemma quiet_check_fails now id ty msg text st :
  quiet st (check_fails now id ty msg text st).
Proof. unfold check_fails. quiet_chain. Qed.

Lemma quiet_checkStreamSegmentHealth env now id dir res st :
  quiet st (checkStreamSegmentHealth env now id dir res st).
Proof.
  unfold checkStreamSegmentHealth. cbv zeta.
  repeat case_match; subst;
    repeat first [ quiet_step
                 | eapply quiet_trans; [|apply quiet_check_fails] ].
Qed.

Lemma quiet_uptime_tick id st : quiet st (uptime_tick id st).
Proof.
  unfold uptime_tick. repeat case_match; cbv zeta; repeat case_match;
    repeat first [quiet_step].
Qed.

Lemma quiet_takeScreenshot id ok st : quiet st (fst (takeScreenshot id ok st)).
Proof. unfold takeScreenshot. repeat case_match; cbn [fst]; quiet_chain. Qed.

Lemma quiet_testSourceUrl_begin now id st : quiet st (testSourceUrl_begin now id st).
Proof.
  unfold testSourceUrl_begin. cbv zeta.
  repeat case_match; quiet_chain.
Qed.

Lemma quiet_resolution_pass id res st : quiet st (resolution_pass id res st).
Proof.
  unfold resolution_pass. cbv zeta.
  eapply quiet_trans; [|apply quiet_setTimer].
  repeat case_match; quiet_chain.
Qed.

Lemma quiet_analyzeHlsStreamInfo id found st :
  quiet st (fst (analyzeHlsStreamInfo id found st)).
Proof.
  unfold analyzeHlsStreamInfo. cbv zeta.
  repeat case_match; cbn [fst]; quiet_chain.
Qed.

Lemma quiet_onStderr now id output st : quiet st (onStderr now id output st).
Proof. unfold onStderr. repeat case_match; quiet_chain. Qed.

Lemma lifecycle_step_quiet_l b id st st1 st2 :
  quiet st st1 → lifecycle_step b id st1 st2 → lifecycle_step b id st st2.
Proof.
  intros [Hs Hp] H.
  destruct H as [[H1 H2]|H1 H2|Hb H1 H2|pid H1 H2|v Hv H1 H2].
  - apply ls_none. split; congruence.
  - apply ls_starting; congruence.
  - apply ls_error; congruence.
  - apply (ls_launch _ _ _ _ pid); congruence.
  - apply (ls_drop _ _ _ _ v); congruence.
Qed.

Lemma mark_status id f v st :
  (∀ s, status (f s) = v) →
  status <$> streams (update_stream id f st) =
    alter (fun _ => v) id (status <$> streams st) ∧
  processes (update_stream id f st) = processes st.
Proof.
  intros Hf. split; [|apply processes_update_stream].
  rewrite streams_update_stream. by apply fmap_status_alter_set.
Qed.

Lemma handleReconnect_lifecycle cfg now id st :
  quiet st (state_of (handleReconnect cfg now id st)) ∨
  (status <$> streams (state_of (handleReconnect cfg now id st)) =
     alter (fun _ => Error) id (status <$> streams st) ∧
   processes (state_of (handleReconnect cfg now id st)) = processes st).
Proof.
  unfold handleReconnect.
  destruct (streams st !! id) as [s|] eqn:Hs; [|left; apply quiet_refl].
  set (st1 := match reconnectAttempts st !! id with
              | Some _ => st
              | None => set_reconnectAttempts (<[id:=0%nat]> (reconnectAttempts st)) st
              end).
  assert (quiet st st1) as [Q1 Q2].
  { subst st1. case_match; quiet_chain. }
  cbv zeta.
  destruct (maxReconnectAttempts cfg <=? Z.of_nat (attempts_of id st1)).
  - right.
    destruct (mark_status id (fun s => set_health Failed (set_status Error s)) Error st1)
      as [M1 M2]; [done|].
    destruct (diagnostics s); cbn [state_of].
    + assert (quiet (update_stream id (fun s => set_health Failed (set_status Error s)) st1)
                (saveConfig (update_stream id
                   (set_diag "healthCheckStatus" (JStr "max_reconnect_exceeded"))
                   (update_stream id (fun s => set_health Failed (set_status Error s)) st1))))
        as [Q3 Q4] by quiet_chain.
      split; congruence.
    + split; congruence.
  - left. destruct (diagnostics s); cbn [state_of]; [|by split].
    unfold setTimer. cbn [state_of].
    eapply quiet_trans; [by split|]. quiet_chain.
Qed.

Lemma startStream_lifecycle cfg id st :
  quiet st (fst (startStream cfg id st)) ∨
  (status <$> streams (fst (startStream cfg id st)) =
     alter (fun _ => Starting) id (status <$> streams st) ∧
   processes (fst (startStream cfg id st)) = processes st).
Proof.
  unfold startStream.
  destruct (streams st !! id) as [s|]; [|left; apply quiet_refl].
  destruct (decide (status s = Running)); [left; apply quiet_refl|].
  right. cbv zeta. cbn [fst].
  destruct (mark_status id (set_status Starting) Starting st) as [M1 M2]; [done|].
  match goal with
  | |- context [set_pendingStarts ?v ?x] =>
      assert (quiet (update_stream id (set_status Starting) st)
                    (set_pendingStarts v x)) as [Q1 Q2] by quiet_chain
  end.
  split; congruence.
Qed.

Lemma status_apply_analysis a info s :
  status (fst (apply_analysis a info s)) = status s.
Proof. unfold apply_analysis. repeat case_match; reflexivity. Qed.

Lemma fmap_status_insert_keep id (s s' : StreamRecord) (m : gmap string StreamRecord) :
  m !! id = Some s → status s' = status s →
  status <$> <[id := s']> m = status <$> m.
Proof.
  intros Hm Hs. apply map_eq. intros j.
  rewrite !lookup_fmap, lookup_insert.
  case_decide; subst; [|done]. rewrite Hm. simpl. by rewrite Hs.
Qed.

(** The part of the continuation before the launch. *)
Lemma quiet_before_launch a id st :
  quiet st
    (let st := match an_variant a with
               | Some vi => set_selectedVariantInfo (Some vi) st
               | None => st
               end in
     match streams st !! id with
     | Some s =>
         let '(s', save) := apply_analysis a (selectedVariantInfo st) s in
         let st := set_streams (<[id := s']> (streams st)) st in
         if save then saveConfig st else st
     | None => st
     end).
Proof.
  cbv zeta.
  set (st1 := match an_variant a with
              | Some vi => set_selectedVariantInfo (Some vi) st
              | None => st
              end).
  assert (quiet st st1) as Q by (subst st1; case_match; quiet_chain).
  eapply quiet_trans; [exact Q|].
  destruct (streams st1 !! id) as [s|] eqn:Hs; [|apply quiet_refl].
  pose proof (status_apply_analysis a (selectedVariantInfo st1) s) as Hst.
  destruct (apply_analysis a (selectedVariantInfo st1) s) as [s' save].
  cbn [fst] in Hst.
  assert (quiet st1 (set_streams (<[id:=s']> (streams st1)) st1)) as Q'.
  { split; [|done]. cbn. by eapply fmap_status_insert_keep. }
  destruct save; [eapply quiet_trans; [exact Q'|quiet_chain]|exact Q'].
Qed.

Lemma startStream_resume_lifecycle cfg now id a spawn_error st :
  match spawn_error with
  | None =>
      ∃ pid,
        status <$> streams (fst (startStream_resume cfg now id a spawn_error st)) =
          alter (fun _ => Running) id (status <$> streams st) ∧
        processes (fst (startStream_resume cfg now id a spawn_error st)) =
          <[id := pid]> (processes st)
  | Some _ =>
      status <$> streams (fst (startStream_resume cfg now id a spawn_error st)) =
        alter (fun _ => Error) id (status <$> streams st) ∧
      processes (fst (startStream_resume cfg now id a spawn_error st)) = processes st
  end.
Proof.
  unfold startStream_resume.
  pose proof (quiet_before_launch a id st) as [Q1 Q2].
  cbv zeta in *.
  match type of Q1 with
  | context [streams ?x] => set (st1 := x) in *
  end.
  destruct spawn_error as [msg|]; cbn [fst].
  - destruct (mark_status id (set_status Error) Error st1) as [M1 M2]; [done|].
    assert (quiet (update_stream id (set_status Error) st1)
              (saveConfig (_recordError now id "system" ("Failed to start: " +:+ msg)
                 (update_stream id (set_status Error) st1)))) as [Q3 Q4] by quiet_chain.
    split; congruence.
  - exists (nextHandle st1).
    set (st2 := set_processes (<[id := nextHandle st1]> (processes st1))
                  (set_children (<[nextHandle st1 := mkChild id false]> (children st1))
                     (set_nextHandle (S (nextHandle st1)) st1))).
    destruct (mark_status id (set_status Running) Running st2) as [M1 M2]; [done|].
    match goal with
    | |- context [saveConfig ?x] =>
        assert (quiet (update_stream id (set_status Running) st2) (saveConfig x))
          as [Q3 Q4] by quiet_chain
    end.
    split.
    + rewrite Q3, M1. subst st2. cbn. by rewrite <- Q1.
    + rewrite Q4, M2. subst st2. cbn. by rewrite Q2.
Qed.

Lemma fmap_status_insert_set id (s s' : StreamRecord) (m : gmap string StreamRecord) :
  m !! id = Some s →
  status <$> <[id := s']> m = alter (fun _ => status s') id (status <$> m).
Proof.
  intros Hm. apply map_eq. intros j.
  rewrite lookup_fmap, lookup_insert, lookup_alter.
  case_decide; subst; rewrite lookup_fmap; [|done]. by rewrite Hm.
Qed.

Lemma stopStream_lifecycle id st :
  quiet st (fst (stopStream id st)) ∨
  (status <$> streams (fst (stopStream id st)) =
     alter (fun _ => Stopped) id (status <$> streams st) ∧
   processes (fst (stopStream id st)) = delete id (processes st)).
Proof.
  destruct (streams st !! id) as [s|] eqn:Hs.
  - destruct (decide (status s = Stopped)) as [Hst|Hne].
    + left. rewrite (stopStream_stopped id st s Hs Hst). apply quiet_refl.
    + right. destruct (stopStream_effect id st s Hs Hne) as (_ & H1 & H2).
      split; [|exact H2]. rewrite H1.
      by rewrite (fmap_status_insert_set id s _ _ Hs).
  - left. unfold stopStream. rewrite Hs. apply quiet_refl.
Qed.

Lemma restartStream_lifecycle id st :
  quiet st (fst (restartStream id st)) ∨
  (status <$> streams (fst (restartStream id st)) =
     alter (fun _ => Stopped) id (status <$> streams st) ∧
   processes (fst (restartStream id st)) = delete id (processes st)).
Proof.
  unfold restartStream.
  destruct (streams st !! id) as [s|] eqn:Hs; [|left; apply quiet_refl].
  pose proof (stopStream_lifecycle id st) as Hstop.
  destruct (stopStream id st) as [st1 success]. cbn [fst] in Hstop.
  destruct success; cbn [negb fst]; [|exact Hstop].
  match goal with
  | |- context [setTimer ?k ?i ?d ?x] =>
      assert (quiet st1 (snd (setTimer k i d x))) as [Q1 Q2] by quiet_chain
  end.
  destruct Hstop as [[H1 H2]|[H1 H2]]; [left; split|right; split]; congruence.
Qed.

Lemma alter_const_twice (v : Status) id (m : gmap string Status) :
  alter (fun _ => v) id (alter (fun _ => v) id m) = alter (fun _ => v) id m.
Proof.
  by rewrite alter_alter_eq.
Qed.

Lemma onProcessExit_lifecycle cfg now id code signal st :
  quiet st (state_of (onProcessExit cfg now id code signal st)) ∨
  (status <$> streams (state_of (onProcessExit cfg now id code signal st)) =
     alter (fun _ => Error) id (status <$> streams st) ∧
   processes (state_of (onProcessExit cfg now id code signal st)) =
     delete id (processes st)).
Proof.
  unfold onProcessExit.
  destruct (streams st !! id) as [s|] eqn:Hs; [|left; apply quiet_refl].
  destruct (decide (status s = Running)); [|left; apply quiet_refl].
  right. cbv zeta.
  match goal with
  | |- context [handleReconnect cfg now id (set_processes _ (update_stream id _ ?x))] =>
      set (st1 := x)
  end.
  match goal with
  | |- context [handleReconnect cfg now id ?x] => set (st2 := x)
  end.
  assert (quiet st st1) as [Q1 Q2] by (subst st1; quiet_chain).
  destruct (mark_status id (set_status Error) Error st1) as [M1 M2]; [done|].
  assert (status <$> streams st2 = alter (fun _ => Error) id (status <$> streams st) ∧
          processes st2 = delete id (processes st)) as [E1 E2].
  { subst st2. norm_state. split.
    - etransitivity; [exact M1|]. by rewrite Q1.
    - etransitivity; [exact (f_equal (delete id) M2)|]. by rewrite Q2. }
  destruct (handleReconnect_lifecycle cfg now id st2) as [[H1 H2]|[H1 H2]].
  - split; congruence.
  - split; [|congruence]. by rewrite H1, E1, alter_const_twice.
Qed.

Lemma timer_callback_lifecycle env now t o st :
  lifecycle_step false (t_owner t) st (timer_callback env now t o st).
Proof.
  unfold timer_callback. cbv zeta.
  destruct (t_kind t).
  - apply ls_none, quiet_uptime_tick.
  - apply ls_none, quiet_takeScreenshot.
  - apply ls_none, quiet_checkStreamSegmentHealth.
  - apply ls_none, quiet_testSourceUrl_begin.
  - destruct (startStream_lifecycle (constructor env) (t_owner t) st) as [Q|[H1 H2]].
    + by apply ls_none.
    + by apply ls_starting.
  - apply ls_none, quiet_checkStreamSegmentHealth.
  - apply ls_none, quiet_resolution_pass.
  - apply ls_none, quiet_analyzeHlsStreamInfo.
Qed.

Lemma keeps_status_probe_record o : keeps_status (probe_record o).
Proof.
  intros s. unfold probe_record. repeat case_match; reflexivity.
Qed.

Lemma after_probe_lifecycle cfg now id o st :
  lifecycle_step true id st (after_probe cfg now id o st).
Proof.
  unfold after_probe. cbv zeta.
  set (st1 := saveConfig (update_stream id (probe_record o) st)).
  assert (quiet st st1) as Q.
  { subst st1. eapply quiet_trans; [|apply quiet_saveConfig].
    apply quiet_update_stream, keeps_status_probe_record. }
  apply (lifecycle_step_quiet_l _ _ _ _ _ Q).
  destruct (probe_valid o).
  - destruct (startStream_lifecycle cfg id st1) as [Q'|[H1 H2]].
    + by apply ls_none.
    + by apply ls_starting.
  - destruct (handleReconnect_lifecycle cfg now id st1) as [Q'|[H1 H2]].
    + by apply ls_none.
    + by apply ls_error.
Qed.

Lemma step_lifecycle env now e st :
  lifecycle_step (may_mark_error e) (event_stream e st) st (step env now e st).
Proof.
  destruct e as [id|id a spawn_error|id|id|pid code signal|pid output|h o|id o];
    cbn [step may_mark_error event_stream]; cbv zeta.
  - destruct (startStream_lifecycle (constructor env) id st) as [Q|[H1 H2]].
    + by apply ls_none.
    + by apply ls_starting.
  - destruct (is_pending id (pendingStarts st)); [|apply ls_none, quiet_refl].
    match goal with
    | |- context [startStream_resume _ _ _ _ _ ?x] =>
        assert (quiet st x) as Q by quiet_chain;
        pose proof (startStream_resume_lifecycle (constructor env) now id a spawn_error x) as H
    end.
    eapply lifecycle_step_quiet_l; [exact Q|].
    destruct spawn_error as [msg|].
    + destruct H as [H1 H2]. by apply ls_error.
    + destruct H as (pid & H1 & H2). by apply (ls_launch _ _ _ _ pid).
  - destruct (stopStream_lifecycle id st) as [Q|[H1 H2]].
    + by apply ls_none.
    + by apply (ls_drop _ _ _ _ Stopped).
  - destruct (restartStream_lifecycle id st) as [Q|[H1 H2]].
    + by apply ls_none.
    + by apply (ls_drop _ _ _ _ Stopped).
  - destruct (children st !! pid) as [c|]; [|apply ls_none, quiet_refl].
    match goal with
    | |- context [onProcessExit _ _ _ _ _ ?x] =>
        assert (quiet st x) as Q by quiet_chain;
        destruct (onProcessExit_lifecycle (constructor env) now (c_owner c) code signal x)
          as [Q'|[H1 H2]]
    end.
    + apply ls_none. by eapply quiet_trans.
    + eapply lifecycle_step_quiet_l; [exact Q|].
      by apply (ls_drop _ _ _ _ Error).
  - destruct (children st !! pid) as [c|]; apply ls_none;
      [apply quiet_onStderr|apply quiet_refl].
  - destruct (timers st !! h) as [t|]; [|apply ls_none, quiet_refl].
    eapply lifecycle_step_quiet_l; [|apply timer_callback_lifecycle].
    case_match; [apply quiet_refl|]. unfold clearTimer. quiet_chain.
  - destruct (is_pending id (pendingProbes st)); [|apply ls_none, quiet_refl].
    eapply lifecycle_step_quiet_l; [|apply after_probe_lifecycle].
    quiet_chain.
Qed.

Lemma status_of_eq id (st' : State) (m : gmap string Status) :
  status <$> streams st' = m → status_of id st' = m !! id.
Proof. intros <-. unfold status_of. by rewrite lookup_fmap. Qed.

Lemma status_of_quiet id st st' : quiet st st' → status_of id st' = status_of id st.
Proof.
  intros [H _]. rewrite (status_of_eq id st' _ H).
  unfold status_of. by rewrite lookup_fmap.
Qed.

Lemma status_of_marked id j v st st' :
  status <$> streams st' = alter (fun _ => v) id (status <$> streams st) →
  status_of j st' =
    if decide (id = j) then (fun _ => v) <$> status_of id st else status_of j st.
Proof.
  intros H. rewrite (status_of_eq j st' _ H), lookup_alter.
  unfold status_of. by rewrite !lookup_fmap.
Qed.

Lemma lifecycle_step_ok b id st st' :
  lifecycle_step b id st st' → lifecycle_ok st → lifecycle_ok st'.
Proof.
  intros Hstep Hok j. destruct (Hok j) as [Hrun Hstop].
  destruct Hstep as [[H1 H2]|H1 H2|Hb H1 H2|pid H1 H2|v Hv H1 H2].
  - rewrite (status_of_quiet j st st') by (by split). by rewrite H2.
  - rewrite (status_of_marked id j _ st st' H1), H2.
    case_decide; subst; [|done].
    destruct (status_of j st); simpl; split; intros; simplify_eq.
  - rewrite (status_of_marked id j _ st st' H1), H2.
    case_decide; subst; [|done].
    destruct (status_of j st); simpl; split; intros; simplify_eq.
  - rewrite (status_of_marked id j _ st st' H1), H2, lookup_insert.
    case_decide; subst; [|done].
    destruct (status_of j st); simpl; split; intros; simplify_eq; eauto.
  - rewrite (status_of_marked id j _ st st' H1), H2, lookup_delete.
    case_decide; subst; [|done].
    destruct (status_of j st); simpl; split; intros; simplify_eq; done.
Qed.

Lemma lifecycle_step_error_unregistered id st st' :
  lifecycle_step false id st st' → lifecycle_ok st →
  error_unregistered st → error_unregistered st'.
Proof.
  intros Hstep Hok Herr j. specialize (Herr j). destruct (Hok j) as [Hrun Hstop].
  destruct Hstep as [[H1 H2]|H1 H2|Hb H1 H2|pid H1 H2|v Hv H1 H2].
  - rewrite (status_of_quiet j st st') by (by split). by rewrite H2.
  - rewrite (status_of_marked id j _ st st' H1), H2.
    case_decide; subst; [|done].
    destruct (status_of j st); simpl; intros; simplify_eq.
  - discriminate Hb.
  - rewrite (status_of_marked id j _ st st' H1), H2, lookup_insert.
    case_decide; subst; [|done].
    destruct (status_of j st); simpl; intros; simplify_eq.
  - rewrite (status_of_marked id j _ st st' H1), H2, lookup_delete.
    case_decide; subst; done.
Qed.

Lemma marked_error_unregistered id st st' :
  status <$> streams st' = alter (fun _ => Error) id (status <$> streams st) →
  processes st' = processes st →
  processes st !! id = None →
  error_unregistered st → error_unregistered st'.
Proof.
  intros H1 H2 Hnone Herr j. specialize (Herr j).
  rewrite (status_of_marked id j _ st st' H1), H2.
  case_decide; subst; done.
Qed.

(** The running and stopped halves of the invariant in the machine. *)
Lemma run_lifecycle_ok env (tr : list (Z * Event)) :
  ∀ st, lifecycle_ok st → lifecycle_ok (run env tr st).
Proof.
  induction tr as [|[now e] tr IH]; intros st Hok; [exact Hok|].
  apply IH. cbn [fst snd].
  exact (lifecycle_step_ok _ _ _ _ (step_lifecycle env now e st) Hok).
Qed.

(** The running and stopped halves of the invariant hold along every run
    of the machine that begins with no start under way. *)
Theorem lifecycle_ok_run env (tr : list (Z * Event)) (st : State) :
  no_start_pending st →
  lifecycle_ok st →
  lifecycle_ok (run env tr st).
Proof. intros _. apply run_lifecycle_ok. Qed.

Lemma failed_launch_lifecycle env now id a msg st :
  quiet st (step env now (EvLaunch id a (Some msg)) st) ∨
  (status <$> streams (step env now (EvLaunch id a (Some msg)) st) =
     alter (fun _ => Error) id (status <$> streams st) ∧
   processes (step env now (EvLaunch id a (Some msg)) st) = processes st).
Proof.
  cbn [step]. cbv zeta.
  destruct (is_pending id (pendingStarts st)); [|left; apply quiet_refl].
  right.
  match goal with
  | |- context [startStream_resume _ _ _ _ _ ?x] =>
      assert (quiet st x) as [Q1 Q2] by quiet_chain;
      destruct (startStream_resume_lifecycle (constructor env) now id a (Some msg) x)
        as [H1 H2]
  end.
  split; congruence.
Qed.

(** The error half of the invariant in the machine. *)
Lemma run_error_unregistered env (tr : list (Z * Event)) :
  ∀ st,
    lifecycle_ok st →
    error_unregistered st →
    Forall (fun te => lifecycle_event (snd te) = true) tr →
    failed_launches_unregistered env tr st →
    error_unregistered (run env tr st).
Proof.
  induction tr as [|[now e] tr IH]; intros st Hok Herr Hall Hfail; [exact Herr|].
  inversion Hall as [|? ? He Hall']; subst. cbn [snd] in He.
  destruct Hfail as [Hhere Hrest]. cbn [fst snd] in Hhere, Hrest.
  apply IH; cbn [fst snd]; [| |exact Hall'|exact Hrest].
  - exact (lifecycle_step_ok _ _ _ _ (step_lifecycle env now e st) Hok).
  - destruct (may_mark_error e) eqn:Hm.
    + destruct e as [| id a [msg|] | | | | | |]; try discriminate Hm; try discriminate He.
      destruct (failed_launch_lifecycle env now id a msg st) as [Q|[H1 H2]].
      * apply (lifecycle_step_error_unregistered id st); [apply ls_none, Q|done..].
      * by eapply marked_error_unregistered.
    + pose proof (step_lifecycle env now e st) as Hstep. rewrite Hm in Hstep.
      by eapply lifecycle_step_error_unregistered.
Qed.

(** The error half of the invariant holds along every run of lifecycle
    events that begins with no start under way and in which no launch
    throws while a handle is registered. *)
Theorem error_unregistered_run env (tr : list (Z * Event)) (st : State) :
  no_start_pending st →
  lifecycle_ok st →
  error_unregistered st →
  Forall (fun te => lifecycle_event (snd te) = true) tr →
  failed_launches_unregistered env tr st →
  error_unregistered (run env tr st).
Proof. intros _. apply run_error_unregistered. Qed.

(** The invariants hold in the empty manager, and addStream keeps
    them. *)
Lemma lifecycle_ok_empty : lifecycle_ok empty_manager.
Proof.
  intros id. unfold status_of. cbn. rewrite !lookup_empty. by split.
Qed.

Lemma error_unregistered_empty : error_unregistered empty_manager.
Proof. intros id _. apply lookup_empty. Qed.

Lemma status_of_addStream uuidv4 calls now nm u st j :
  status_of j (fst (addStream uuidv4 calls now nm u st)) =
    if decide (uuidv4 calls = j) then Some Stopped else status_of j st.
Proof.
  unfold status_of, addStream. cbn. rewrite lookup_insert.
  by case_decide.
Qed.

Lemma lifecycle_ok_addStream uuidv4 calls now nm u st :
  processes st !! uuidv4 calls = None →
  lifecycle_ok st → lifecycle_ok (fst (addStream uuidv4 calls now nm u st)).
Proof.
  intros Hnone Hok j. rewrite status_of_addStream.
  replace (processes (fst (addStream uuidv4 calls now nm u st))) with (processes st)
    by reflexivity.
  case_decide; subst; [|apply Hok]. by split.
Qed.

Lemma error_unregistered_addStream uuidv4 calls now nm u st :
  error_unregistered st →
  error_unregistered (fst (addStream uuidv4 calls now nm u st)).
Proof.
  intros Herr j. rewrite status_of_addStream.
  replace (processes (fst (addStream uuidv4 calls now nm u st))) with (processes st)
    by reflexivity.
  case_decide; subst; [done|apply Herr].
Qed.

(** No event of the machine adds an id to the table: the ids stay ids
    the generator handed out. *)
Lemma lifecycle_step_ids b id st st' j :
  lifecycle_step b id st st' →
  is_Some (streams st' !! j) → is_Some (streams st !! j).
Proof.
  intros Hstep Hj.
  assert (∀ x, is_Some (streams x !! j) ↔ is_Some (status_of j x)) as E.
  { intros x. unfold status_of. by rewrite fmap_is_Some. }
  apply E in Hj. apply E.
  destruct Hstep as [Q|H1 _|_ H1 _|pid H1 _|v _ H1 _].
  - by rewrite <- (status_of_quiet j st st' Q).
  - rewrite (status_of_marked id j _ st st' H1) in Hj.
    case_decide; subst; [by apply fmap_is_Some in Hj|done].
  - rewrite (status_of_marked id j _ st st' H1) in Hj.
    case_decide; subst; [by apply fmap_is_Some in Hj|done].
  - rewrite (status_of_marked id j _ st st' H1) in Hj.
    case_decide; subst; [by apply fmap_is_Some in Hj|done].
  - rewrite (status_of_marked id j _ st st' H1) in Hj.
    case_decide; subst; [by apply fmap_is_Some in Hj|done].
Qed.

Lemma issued_run uuidv4 calls env (tr : list (Z * Event)) :
  ∀ st, issued uuidv4 calls st → issued uuidv4 calls (run env tr st).
Proof.
  induction tr as [|[now e] tr IH]; intros st Hissued; [exact Hissued|].
  apply IH. cbn [fst snd]. intros j Hj. apply Hissued.
  exact (lifecycle_step_ids _ _ _ _ j (step_lifecycle env now e st) Hj).
Qed.

Lemma zeros_inj (i : nat) : ∀ j, zeros i = zeros j → i = j.
Proof.
  induction i as [|i IH]; intros [|j] H; cbn in H; try done.
  f_equal. apply IH. by injection H.
Qed.

Lemma sample_uuid_unique (i j : nat) : sample_uuid i = sample_uuid j → i = j.
Proof.
  destruct i as [|i], j as [|j]; cbn; intros H; try done.
  f_equal. apply zeros_inj. by injection H.
Qed.

Lemma C10_addStream_witness :
  (∀ i j, sample_uuid i = sample_uuid j → i = j) ∧
  issued sample_uuid 1 sample_running ∧
  getStream "cam2" sample_running = None ∧
  stream_id (snd (addStream sample_uuid 1 20000 "Yard" sample_url sample_running))
    = "cam2" ∧
  status (snd (addStream sample_uuid 1 20000 "Yard" sample_url sample_running))
    = Stopped ∧
  getStream "cam1"
    (fst (addStream sample_uuid 1 20000 "Yard" sample_url sample_running))
    = Some (record_of "cam1" sample_running) ∧
  processes (fst (addStream sample_uuid 1 20000 "Yard" sample_url sample_running))
    = processes sample_running.
Proof.
  assert (issued sample_uuid 1 sample_added) as Hadded.
  { apply (C10_addStream_new_record sample_uuid 0 1000 "Camera" sample_url
             empty_manager sample_uuid_unique (issued_empty_manager sample_uuid)). }
  assert (issued sample_uuid 1 sample_running) as Hrunning.
  { unfold sample_running, sample_starting. by do 2 apply issued_run. }
  pose proof (C10_addStream_new_record sample_uuid 1 20000 "Yard" sample_url
                sample_running sample_uuid_unique Hrunning)
    as (Hid & Hfresh & (_ & _ & Hstatus & _) & _ & Hkept & _ & Hproc & _).
  split; [exact sample_uuid_unique|]. split; [exact Hrunning|].
  split; [exact Hfresh|]. split; [exact Hid|]. split; [exact Hstatus|].
  split; [|exact Hproc].
  apply Hkept. unfold getStream. apply lookup_record_of. evaluated.
Defined.

Lemma lifecycle_ok_sample_added : lifecycle_ok sample_added.
Proof.
  apply lifecycle_ok_addStream; [apply lookup_empty|apply lifecycle_ok_empty].
Qed.

Lemma error_unregistered_sample_added : error_unregistered sample_added.
Proof. apply error_unregistered_addStream, error_unregistered_empty. Qed.

Lemma lifecycle_ok_run_witness :
  no_start_pending sample_added ∧
  lifecycle_ok sample_added ∧
  lifecycle_ok (run default_env overlapping_starts sample_added).
Proof.
  split; [reflexivity|]. split; [exact lifecycle_ok_sample_added|].
  apply lifecycle_ok_run; [reflexivity|exact lifecycle_ok_sample_added].
Defined.

Lemma error_unregistered_run_witness :
  no_start_pending sample_added ∧
  failed_launches_unregistered default_env failed_then_started sample_added ∧
  error_unregistered (run default_env failed_then_started sample_added) ∧
  status_of "cam1" (run default_env failed_then_started sample_added) = Some Error.
Proof.
  assert (failed_launches_unregistered default_env failed_then_started sample_added)
    as Hfail.
  { cbn [failed_launches_unregistered failed_then_started snd fst].
    split; [exact I|]. split; [evaluated|]. repeat split. }
  split; [reflexivity|]. split; [exact Hfail|]. split; [|evaluated].
  apply error_unregistered_run.
  - reflexivity.
  - exact lifecycle_ok_sample_added.
  - exact error_unregistered_sample_added.
  - repeat constructor.
  - exact Hfail.
Defined.

(** ** Overlapping starts *)

(** C1, at two overlapping starts of one stream: the first launch
    registers its child (handle 0) and sets the status running; the
    second launch throws, and its catch block sets the status error
    without touching the process table.  The record then has status error
    while a handle is registered for its id, and the child is alive. *)
Theorem C1_failed_launch_leaves_handle :
  status_of "cam1" sample_added = Some Stopped ∧
  processes sample_added !! "cam1" = None ∧
  Forall (fun te => lifecycle_event (snd te) = true) overlapping_starts ∧
  status_of "cam1" (run default_env overlapping_starts sample_added) = Some Error ∧
  processes (run default_env overlapping_starts sample_added) !! "cam1"
    = Some 0%nat ∧
  children (run default_env overlapping_starts sample_added) !! 0%nat
    = Some (mkChild "cam1" false).
Proof.
  repeat split; try (vm_compute; reflexivity).
  repeat constructor.
Qed.

(** * Further properties of the supervisor *)

(** ** The failing exits of the segment health check *)

(** The check of a running stream, up to the point where it looks for the
    playlist: [s1] names the record it has written by then. *)
Ltac enter_check Hs s1 Hs1 :=
  unfold checkStreamSegmentHealth; rewrite Hs;
  destruct (decide (_ = Running)) as [_|]; [|done]; cbv zeta;
  match goal with
  | |- context [update_stream ?id (set_diag "lastHealthCheck" ?v) ?x] =>
      let st1 := fresh "st1" in
      set (st1 := update_stream id (set_diag "lastHealthCheck" v) x);
      assert (∃ s1, streams st1 !! id = Some s1) as [s1 Hs1];
      [ subst st1;
        match goal with
        | |- context [set_hlsDirs _ ?y] =>
            let st0 := fresh "st0" in
            set (st0 := y);
            assert (∃ s0, streams st0 !! id = Some s0) as [? ?];
            [ subst st0; repeat case_match; eexists;
              first [exact Hs | by apply lookup_update_stream_eq]
            | eexists;
              apply lookup_update_stream_eq, lookup_update_stream_eq;
              eassumption ]
        end
      | ]
  end.

Ltac check_failed Hs1 :=
  apply (health_diag_after_set _ _ _ _ (fun r => r) _
           (lookup_check_fails _ _ _ _ _ _ _ Hs1));
  by intros ?.

(** The check of a running stream that finds no playlist, a playlist
    without segments, no segment file, or that fails while reading: the
    health is poor whatever it was, and the status text says which. *)
Theorem checkStreamSegmentHealth_failures (env : Env) (now : Z) (id : string)
    (st : State) (s : StreamRecord) (resolution : option string) :
  streams st !! id = Some s →
  status s = Running →
  (∀ files,
     let st' := checkStreamSegmentHealth env now id (DirReads None files) resolution st in
     health_of id st' = Some Poor ∧
     diag_of id "healthCheckStatus" st' = Some (JStr "No playlist")) ∧
  (∀ content files,
     count_matches ".ts" content = 0%nat →
     let st' := checkStreamSegmentHealth env now id (DirReads (Some content) files)
                  resolution st in
     health_of id st' = Some Poor ∧
     diag_of id "healthCheckStatus" st' = Some (JStr "No segments")) ∧
  (∀ content files,
     count_matches ".ts" content ≠ 0%nat →
     filter (fun f => endsWith ".ts" (fst f) = true) files = [] →
     let st' := checkStreamSegmentHealth env now id (DirReads (Some content) files)
                  resolution st in
     health_of id st' = Some Poor ∧
     diag_of id "healthCheckStatus" st' = Some (JStr "No segment files")) ∧
  (∀ message,
     let st' := checkStreamSegmentHealth env now id (DirFails message) resolution st in
     health_of id st' = Some Poor ∧
     diag_of id "healthCheckStatus" st' = Some (JStr "Check error")).
Proof.
  intros Hs Hrun. split_and!.
  - intros files st'. subst st'. enter_check Hs s1 Hs1. check_failed Hs1.
  - intros content files Hcount st'. subst st'. enter_check Hs s1 Hs1.
    rewrite Hcount. cbn [Nat.eqb].
    check_failed (lookup_update_stream_eq _
                    (set_diag "segmentCount" (JNum (Z.of_nat 0))) _ _ Hs1).
  - intros content files Hcount Hfiles st'. subst st'. enter_check Hs s1 Hs1.
    destruct (count_matches ".ts" content =? 0)%nat eqn:E;
      [apply Nat.eqb_eq in E; done|].
    rewrite Hfiles. cbn [sort_newest_first foldl].
    check_failed (lookup_update_stream_eq _
                    (set_diag "segmentCount"
                       (JNum (Z.of_nat (count_matches ".ts" content)))) _ _ Hs1).
  - intros message st'. subst st'. enter_check Hs s1 Hs1. check_failed Hs1.
Qed.

Lemma checkStreamSegmentHealth_failures_witness :
  status_of "cam1" sample_running = Some Running ∧
  health_of "cam1"
    (checkStreamSegmentHealth default_env 100000 "cam1" (DirReads None []) None
       sample_running) = Some Poor ∧
  diag_of "cam1" "healthCheckStatus"
    (checkStreamSegmentHealth default_env 100000 "cam1" (DirReads None []) None
       sample_running) = Some (JStr "No playlist").
Proof.
  split; [evaluated|].
  destruct (checkStreamSegmentHealth_failures default_env 100000 "cam1"
              sample_running (record_of "cam1" sample_running) None)
    as (H & _).
  - apply lookup_record_of. evaluated.
  - evaluated.
  - exact (H []).
Defined.

(** ** Stopping *)

(** stopStream of a stream that is not stopped returns true; the record
    is then stopped with health unknown, its handle is out of the process
    table, its reconnect, screenshot, segment-health and monitoring timers
    are cleared and out of their tables, the segment directories and
    preview files are as before, and no other record is touched. *)
Theorem stopStream_stops (id : string) (st : State) (s : StreamRecord) :
  streams st !! id = Some s →
  status s ≠ Stopped →
  snd (stopStream id st) = true ∧
  status_of id (fst (stopStream id st)) = Some Stopped ∧
  health_of id (fst (stopStream id st)) = Some Unknown ∧
  processes (fst (stopStream id st)) !! id = None ∧
  reconnectTimers (fst (stopStream id st)) !! id = None ∧
  screenshotTimers (fst (stopStream id st)) !! id = None ∧
  segmentHealthChecks (fst (stopStream id st)) !! id = None ∧
  monitors (fst (stopStream id st)) !! id = None ∧
  (∀ h, reconnectTimers st !! id = Some h ∨ monitors st !! id = Some h ∨
        screenshotTimers st !! id = Some h ∨ segmentHealthChecks st !! id = Some h →
        timers (fst (stopStream id st)) !! h = None) ∧
  hlsDirs (fst (stopStream id st)) = hlsDirs st ∧
  screenshotFiles (fst (stopStream id st)) = screenshotFiles st ∧
  (∀ j, j ≠ id → streams (fst (stopStream id st)) !! j = streams st !! j).
Proof.
  intros Hs Hne.
  destruct (stopStream_effect id st s Hs Hne) as (E1 & E2 & E3).
  destruct (stopStream_tables id st s Hs Hne) as (T1 & T2 & T3 & T4 & T5 & T6 & T7).
  unfold status_of, health_of. rewrite E2, E3, T1, T2, T3, T4, T5, T6.
  rewrite lookup_insert_eq, !lookup_delete_eq.
  split_and!; try done.
  - intros h Hh. rewrite T7. by case_decide.
  - intros j Hj. by rewrite lookup_insert_ne.
Qed.

Lemma stopStream_stops_witness :
  status_of "cam1" sample_running = Some Running ∧
  status_of "cam1" (fst (stopStream "cam1" sample_running)) = Some Stopped ∧
  health_of "cam1" (fst (stopStream "cam1" sample_running)) = Some Unknown ∧
  processes (fst (stopStream "cam1" sample_running)) !! "cam1" = None.
Proof.
  split; [evaluated|].
  destruct (stopStream_stops "cam1" sample_running (record_of "cam1" sample_running))
    as (_ & H1 & H2 & H3 & _).
  - apply lookup_record_of. evaluated.
  - assert (status (record_of "cam1" sample_running) = Running) as -> by evaluated.
    discriminate.
  - by split_and!.
Defined.

(** ** The exit of a stopped child *)

(** A stream is stopped and the child that was killed then exits: the
    exit listener finds the record stopped and does nothing.  No error is
    recorded, the status stays stopped, no reconnect is scheduled; only
    the child leaves the table of live children. *)
Theorem exit_after_stop_ignored (env : Env) (now : Z) (id : string) (pid : nat)
    (code : option Z) (signal : option string) (st : State) (s : StreamRecord) :
  streams st !! id = Some s →
  status s ≠ Stopped →
  processes st !! id = Some pid →
  (∃ c, children st !! pid = Some c ∧ c_owner c = id) →
  let stopped := fst (stopStream id st) in
  children stopped !! pid = Some (mkChild id true) ∧
  step env now (EvExit pid code signal) stopped
    = set_children (delete pid (children stopped)) stopped.
Proof.
  intros Hs Hne Hp (c & Hc & Hown) stopped.
  destruct (stopStream_effect id st s Hs Hne) as (_ & E2 & _).
  assert (children stopped !! pid = Some (mkChild id true)) as Hchild.
  { subst stopped. unfold stopStream. rewrite Hs.
    destruct (decide (status s = Stopped)); [done|].
    rewrite Hp. cbv zeta. cbn [fst].
    transitivity (children (kill pid st) !! pid).
    - f_equal. unfold saveConfig, update_stream.
      repeat case_match; cbn;
        unfold _clearMonitoring, _clearSegmentHealthCheck, _clearScreenshotTimer,
          clearReconnectTimer, clearTimer;
        repeat case_match; reflexivity.
    - unfold kill. rewrite Hc. cbn. rewrite lookup_insert_eq. by rewrite Hown. }
  split; [exact Hchild|].
  cbn [step]. rewrite Hchild. cbn [c_owner]. unfold onProcessExit.
  change (streams (set_children ?v ?x)) with (streams x).
  subst stopped. rewrite E2, lookup_insert_eq.
  by destruct (decide (status (set_health Unknown (set_status Stopped s)) = Running)).
Qed.

Lemma exit_after_stop_ignored_witness :
  processes sample_running !! "cam1" = Some 0%nat ∧
  children sample_running !! 0%nat = Some (mkChild "cam1" false) ∧
  step default_env 3000 (EvExit 0%nat None (Some "SIGTERM"))
    (fst (stopStream "cam1" sample_running))
    = set_children (delete 0%nat (children (fst (stopStream "cam1" sample_running))))
        (fst (stopStream "cam1" sample_running)).
Proof.
  assert (processes sample_running !! "cam1" = Some 0%nat) as Hp by evaluated.
  assert (children sample_running !! 0%nat = Some (mkChild "cam1" false)) as Hc
    by evaluated.
  split; [exact Hp|]. split; [exact Hc|].
  apply (exit_after_stop_ignored default_env 3000 "cam1" 0%nat None (Some "SIGTERM")
           sample_running (record_of "cam1" sample_running)).
  - apply lookup_record_of. evaluated.
  - assert (status (record_of "cam1" sample_running) = Running) as -> by evaluated.
    discriminate.
  - exact Hp.
  - exists (mkChild "cam1" false). by split.
Defined.

(** ** Output on stderr, and recorded errors *)

Lemma health_analyzeErrorPatterns_record s :
  health (analyzeErrorPatterns_record s) = health s.
Proof. unfold analyzeErrorPatterns_record. repeat case_match; reflexivity. Qed.

Lemma health_recordError_record now ty msg s :
  health (_recordError_record now ty msg s) = health s.
Proof.
  unfold _recordError_record. by rewrite health_analyzeErrorPatterns_record.
Qed.

Lemma recordError_quiet (now : Z) (id errorType message : string) (st : State) :
  (∀ j, status_of j (_recordError now id errorType message st) = status_of j st) ∧
  (∀ j, health_of j (_recordError now id errorType message st) = health_of j st) ∧
  processes (_recordError now id errorType message st) = processes st.
Proof.
  split_and!.
  - intros j. unfold status_of. rewrite streams_recordError, lookup_alter.
    case_decide; subst; [|done].
    destruct (streams st !! j); [|done].
    cbn [fmap option_fmap option_map]. f_equal.
    apply keeps_status_recordError_record.
  - intros j. unfold health_of. rewrite streams_recordError, lookup_alter.
    case_decide; subst; [|done].
    destruct (streams st !! j); [|done].
    cbn [fmap option_fmap option_map]. f_equal.
    apply health_recordError_record.
  - apply processes_recordError.
Qed.

(** Recording an error changes neither the status nor the health of any
    stream, and leaves the process table, the timers and the reconnect
    counters alone: the method named analyzeErrorPatterns that is in
    force only notes a run of three errors of one type. *)
Theorem recordError_keeps_status_and_health (now : Z) (id errorType message : string)
    (st : State) :
  let st' := _recordError now id errorType message st in
  (∀ j, status_of j st' = status_of j st) ∧
  (∀ j, health_of j st' = health_of j st) ∧
  processes st' = processes st ∧
  timers st' = timers st ∧
  reconnectTimers st' = reconnectTimers st ∧
  reconnectAttempts st' = reconnectAttempts st.
Proof.
  cbv zeta.
  destruct (recordError_quiet now id errorType message st) as (H1 & H2 & H3).
  split_and!; try done; unfold _recordError; by case_match.
Qed.

(** Output on the stderr of a child changes no status and no health and
    leaves the process table as it is: the classifier only records
    errors. *)
Theorem stderr_keeps_status (env : Env) (now : Z) (pid : nat) (output : string)
    (st : State) :
  let st' := step env now (EvStderr pid output) st in
  (∀ id, status_of id st' = status_of id st) ∧
  (∀ id, health_of id st' = health_of id st) ∧
  processes st' = processes st.
Proof.
  cbn [step]. destruct (children st !! pid) as [c|]; [|done].
  unfold onStderr.
  repeat case_match; try done; apply recordError_quiet.
Qed.

(** ** Selecting a variant *)

(** The sort puts at the head the first variant of the highest
    bandwidth. *)
Lemma sort_by_bandwidth_head_inv (rest : list Variant) :
  ∀ (acc processed : list Variant) (v : Variant) (pre post : list Variant),
    head acc = Some v →
    processed = pre ++ v :: post →
    (∀ w, w ∈ pre → var_bandwidth w < var_bandwidth v) →
    (∀ w, w ∈ post → var_bandwidth w <= var_bandwidth v) →
    ∃ v' pre' post',
      head (foldl (fun acc x => insert_by_bandwidth x acc) acc rest) = Some v' ∧
      processed ++ rest = pre' ++ v' :: post' ∧
      (∀ w, w ∈ pre' → var_bandwidth w < var_bandwidth v') ∧
      (∀ w, w ∈ post' → var_bandwidth w <= var_bandwidth v').
Proof.
  induction rest as [|x rest IH]; intros acc processed v pre post Hh Hp Hpre Hpost.
  - exists v, pre, post. rewrite app_nil_r. done.
  - destruct acc as [|y acc']; [done|]. simpl in Hh. injection Hh as ->.
    cbn [foldl insert_by_bandwidth].
    destruct (var_bandwidth v <? var_bandwidth x) eqn:E.
    + apply Z.ltb_lt in E.
      destruct (IH (x :: v :: acc') (processed ++ [x]) x processed [])
        as (v' & pre' & post' & H1 & H2 & H3 & H4).
      * done.
      * done.
      * intros w Hw. rewrite Hp in Hw.
        apply elem_of_app in Hw as [Hw|Hw]; [specialize (Hpre w Hw); lia|].
        apply elem_of_cons in Hw as [->|Hw]; [done|].
        specialize (Hpost w Hw). lia.
      * intros w Hw. by apply elem_of_nil in Hw.
      * exists v', pre', post'. rewrite <- app_assoc in H2. done.
    + apply Z.ltb_ge in E.
      destruct (IH (v :: insert_by_bandwidth x acc') (processed ++ [x]) v pre (post ++ [x]))
        as (v' & pre' & post' & H1 & H2 & H3 & H4).
      * done.
      * rewrite Hp. by rewrite <- app_assoc.
      * done.
      * intros w Hw. apply elem_of_app in Hw as [Hw|Hw]; [by apply Hpost|].
        apply list_elem_of_singleton in Hw as ->. done.
      * exists v', pre', post'. rewrite <- app_assoc in H2. done.
Qed.

Lemma sort_by_bandwidth_head (vs : list Variant) :
  vs ≠ [] →
  ∃ v pre post,
    head (sort_by_bandwidth vs) = Some v ∧
    vs = pre ++ v :: post ∧
    (∀ w, w ∈ pre → var_bandwidth w < var_bandwidth v) ∧
    (∀ w, w ∈ post → var_bandwidth w <= var_bandwidth v).
Proof.
  destruct vs as [|v0 rest]; [done|]. intros _.
  unfold sort_by_bandwidth. cbn [foldl insert_by_bandwidth].
  destruct (sort_by_bandwidth_head_inv rest [v0] [v0] v0 [] [])
    as (v & pre & post & H1 & H2 & H3 & H4); try done.
  - intros w Hw. by apply elem_of_nil in Hw.
  - intros w Hw. by apply elem_of_nil in Hw.
  - by exists v, pre, post.
Qed.

Section Selection.

Variable net : string → HttpResult.
Variable origin : string → string.
Variable parseVariants : string → string → list Variant.

(** The analysis of a master playlist with variants selects the variant
    of the highest bandwidth, the first parsed among equals, and returns
    its URL with its resolution, bandwidth and height. *)
Theorem analyzeHlsPlaylist_highest_bandwidth (u content : string) :
  fetchUrl net origin u 5 = Resolved content →
  includes "#EXT-X-STREAM-INF" content = true →
  parseVariants u content ≠ [] →
  ∃ v pre post,
    parseVariants u content = pre ++ v :: post ∧
    (∀ w, w ∈ pre → var_bandwidth w < var_bandwidth v) ∧
    (∀ w, w ∈ post → var_bandwidth w <= var_bandwidth v) ∧
    analyzeHlsPlaylist net origin parseVariants u =
      Resolved (mkAnalysis (var_url v)
                  (Some (mkVariantInfo (var_resolution v) (var_bandwidth v)
                           (var_height v)))).
Proof.
  intros Hfetch Hmaster Hvs.
  destruct (sort_by_bandwidth_head _ Hvs) as (v & pre & post & H1 & H2 & H3 & H4).
  exists v, pre, post. split_and!; try done.
  unfold analyzeHlsPlaylist. rewrite Hfetch, Hmaster.
  destruct (sort_by_bandwidth (parseVariants u content)) as [|v' l]; [done|].
  simpl in H1. by injection H1 as ->.
Qed.

(** The analysis never rejects: it resolves with the URL it was given and
    no variant, or with the URL of one of the variants parsed from the
    content it fetched. *)
Theorem analyzeHlsPlaylist_never_rejects (u : string) :
  ∃ a,
    analyzeHlsPlaylist net origin parseVariants u = Resolved a ∧
    (a = mkAnalysis u None ∨
     ∃ content v,
       fetchUrl net origin u 5 = Resolved content ∧
       includes "#EXT-X-STREAM-INF" content = true ∧
       v ∈ parseVariants u content ∧
       a = mkAnalysis (var_url v)
             (Some (mkVariantInfo (var_resolution v) (var_bandwidth v)
                      (var_height v)))).
Proof.
  unfold analyzeHlsPlaylist.
  destruct (fetchUrl net origin u 5) as [content|message] eqn:Hfetch;
    [|eexists; split; [reflexivity|by left]].
  destruct (includes "#EXT-X-STREAM-INF" content) eqn:Hmaster;
    [|eexists; split; [reflexivity|by left]].
  destruct (decide (parseVariants u content = [])) as [E|Hvs].
  { rewrite E. cbn. eexists. split; [reflexivity|by left]. }
  destruct (sort_by_bandwidth_head _ Hvs) as (v & pre & post & H1 & H2 & _).
  destruct (sort_by_bandwidth (parseVariants u content)) as [|v' l]; [done|].
  simpl in H1. injection H1 as ->.
  eexists. split; [reflexivity|]. right. exists content, v.
  split_and!; try done. rewrite H2. apply elem_of_app. right. apply elem_of_cons. by left.
Qed.

End Selection.

Lemma analyzeHlsPlaylist_highest_bandwidth_witness :
  fetchUrl master_net no_origin sample_url 5 = Resolved sample_master ∧
  analyzeHlsPlaylist master_net no_origin three_variants sample_url =
    Resolved (mkAnalysis "http://src/mid.m3u8"
                (Some (mkVariantInfo (Some "1280x720") 2800000 (IsInt 720)))) ∧
  ∃ v pre post,
    three_variants sample_url sample_master = pre ++ v :: post ∧
    (∀ w, w ∈ pre → var_bandwidth w < var_bandwidth v) ∧
    (∀ w, w ∈ post → var_bandwidth w <= var_bandwidth v) ∧
    analyzeHlsPlaylist master_net no_origin three_variants sample_url =
      Resolved (mkAnalysis (var_url v)
                  (Some (mkVariantInfo (var_resolution v) (var_bandwidth v)
                           (var_height v)))).
Proof.
  split; [reflexivity|]. split; [reflexivity|].
  apply analyzeHlsPlaylist_highest_bandwidth; [reflexivity|reflexivity|discriminate].
Defined.

(** ** Counting errors *)

Lemma diag_analyzeErrorPatterns_record (k : string) (s : StreamRecord) :
  k ≠ "consecutiveErrorType" → k ≠ "consecutiveErrorCount" →
  get_diag k (analyzeErrorPatterns_record s) = get_diag k s.
Proof.
  intros H1 H2. unfold analyzeErrorPatterns_record, get_diag.
  repeat case_match; try reflexivity; simplify_eq; cbn.
  - by rewrite !lookup_insert_ne by done.
  - match goal with H : diagnostics s = None |- _ => by rewrite H end.
Qed.

Lemma errorCount_recordError_record now ty msg (s : StreamRecord) :
  get_diag "errorCount" (_recordError_record now ty msg s) =
    Some (js_incr (default fresh_diagnostics (diagnostics s) !! "errorCount")).
Proof.
  unfold _recordError_record.
  rewrite diag_analyzeErrorPatterns_record by done.
  unfold get_diag. cbn. unfold bump_type_counter.
  repeat case_match; rewrite ?lookup_insert_ne by done;
    rewrite lookup_insert_eq; by rewrite lookup_insert_ne.
Qed.

Lemma systemErrors_recordError_record now ty msg (s : StreamRecord) :
  get_diag "systemErrors" (_recordError_record now ty msg s) =
    if String.eqb ty "system"
    then Some (js_incr (default fresh_diagnostics (diagnostics s) !! "systemErrors"))
    else default fresh_diagnostics (diagnostics s) !! "systemErrors".
Proof.
  unfold _recordError_record.
  rewrite diag_analyzeErrorPatterns_record by done.
  unfold get_diag. cbn. unfold bump_type_counter.
  destruct (String.eqb ty "network") eqn:E1.
  { apply String.eqb_eq in E1 as ->. cbn. by rewrite !lookup_insert_ne. }
  destruct (String.eqb ty "source") eqn:E2.
  { apply String.eqb_eq in E2 as ->. cbn. by rewrite !lookup_insert_ne. }
  destruct (String.eqb ty "ffmpeg") eqn:E3.
  { apply String.eqb_eq in E3 as ->. cbn. by rewrite !lookup_insert_ne. }
  destruct (String.eqb ty "system") eqn:E4.
  - rewrite lookup_insert_eq. by rewrite !lookup_insert_ne.
  - by rewrite !lookup_insert_ne.
Qed.

(** After a series of recorded errors the counter errorCount of a record
    that had a number there has grown by the number of errors.  The
    counter systemErrors is in none of the diagnostics objects the class
    creates: it stays absent as long as no error of type system is
    recorded, and is NaN from the first such error on. *)
Theorem record_errors_counters (id : string) (l : list (Z * string * string)) :
  ∀ (st : State) (s : StreamRecord) (d : gmap string jsval) (c : Z),
    streams st !! id = Some s →
    diagnostics s = Some d →
    d !! "errorCount" = Some (JNum c) →
    d !! "systemErrors" = None ∨ d !! "systemErrors" = Some JNaN →
    diag_of id "errorCount" (record_errors id l st)
      = Some (JNum (c + Z.of_nat (length l))) ∧
    diag_of id "systemErrors" (record_errors id l st)
      = if existsb (fun e => String.eqb (snd (fst e)) "system") l
        then Some JNaN else d !! "systemErrors".
Proof.
  induction l as [|[[now ty] msg] l IH]; intros st s d c Hs Hd Hc Hsys.
  - cbn. unfold diag_of, get_diag. rewrite Hs. cbn. rewrite Hd. cbn.
    rewrite Hc, Z.add_0_r. done.
  - cbn [record_errors foldl fst snd].
    pose proof (lookup_recordError now id ty msg st s Hs) as Hs1.
    pose proof (errorCount_recordError_record now ty msg s) as Hc1.
    pose proof (systemErrors_recordError_record now ty msg s) as Hsys1.
    rewrite Hd in Hc1, Hsys1. cbn [from_option Datatypes.id] in Hc1, Hsys1.
    rewrite Hc in Hc1. cbn [js_incr] in Hc1.
    unfold get_diag in Hc1, Hsys1.
    destruct (diagnostics (_recordError_record now ty msg s)) as [d1|] eqn:Hd1;
      [|done].
    cbn in Hc1, Hsys1.
    assert (d1 !! "systemErrors" = None ∨ d1 !! "systemErrors" = Some JNaN) as Hsys2.
    { rewrite Hsys1. destruct (String.eqb ty "system"); [|done].
      right. by destruct Hsys as [->| ->]. }
    destruct (IH _ _ d1 (c + 1) Hs1 Hd1 Hc1 Hsys2) as [H1 H2].
    change (record_errors id l (_recordError now id ty msg st))
      with (foldl (fun st e => _recordError (fst (fst e)) id (snd (fst e)) (snd e) st)
              (_recordError now id ty msg st) l) in H1, H2.
    split.
    + rewrite H1. do 2 f_equal. cbn [length]. lia.
    + rewrite H2. cbn [existsb fst snd]. rewrite Hsys1.
      destruct (String.eqb ty "system"); cbn [orb].
      * destruct (existsb _ l); [done|]. by destruct Hsys as [->| ->].
      * done.
Qed.

Lemma record_errors_counters_witness :
  diag_of "cam1" "errorCount"
    (record_errors "cam1" [(1000, "network", "refused"); (2000, "system", "killed")]
       sample_added) = Some (JNum 2) ∧
  diag_of "cam1" "systemErrors"
    (record_errors "cam1" [(1000, "network", "refused"); (2000, "system", "killed")]
       sample_added) = Some JNaN.
Proof.
  destruct (record_errors_counters "cam1"
              [(1000, "network", "refused"); (2000, "system", "killed")]
              sample_added (record_of "cam1" sample_added) fresh_diagnostics 0)
    as [H1 H2].
  - apply lookup_record_of. evaluated.
  - reflexivity.
  - reflexivity.
  - by left.
  - split; [exact H1|exact H2].
Defined.

(** ** Taking stock *)

Lemma size_filter_insert_fresh {A} (P : string * A → Prop)
    `{!∀ p, Decision (P p)} (m : gmap string A) (i : string) (x : A) :
  m !! i = None →
  size (filter P (<[i := x]> m)) =
    if decide (P (i, x)) then S (size (filter P m)) else size (filter P m).
Proof.
  intros Hi. rewrite map_filter_insert. case_decide.
  - rewrite map_size_insert_None; [done|].
    apply map_lookup_filter_None. by left.
  - by rewrite delete_id.
Qed.

(** The counters of getHealthStatus: each status counter is the number of
    records of that status, a record that is starting being counted by
    none; good, degraded and failed count the records of that health, and
    unknown counts the rest, the records of health poor among them. *)
Theorem getHealthStatus_counts (st : State) :
  let c := getHealthStatus st in
  hs_running c = size (filter (fun p => status (snd p) = Running) (streams st)) ∧
  hs_stopped c = size (filter (fun p => status (snd p) = Stopped) (streams st)) ∧
  hs_error c = size (filter (fun p => status (snd p) = Error) (streams st)) ∧
  hs_good c = size (filter (fun p => health (snd p) = Good) (streams st)) ∧
  hs_degraded c = size (filter (fun p => health (snd p) = Degraded) (streams st)) ∧
  hs_failed c = size (filter (fun p => health (snd p) = Failed) (streams st)) ∧
  hs_unknown c =
    size (filter (fun p => health (snd p) = Unknown ∨ health (snd p) = Poor)
            (streams st)) ∧
  (hs_good c + hs_degraded c + hs_failed c + hs_unknown c = size (streams st))%nat ∧
  (hs_running c + hs_stopped c + hs_error c
     + size (filter (fun p => status (snd p) = Starting) (streams st))
   = size (streams st))%nat.
Proof.
  cbv zeta. unfold getHealthStatus.
  apply (map_fold_weak_ind
           (fun c m =>
              hs_running c = size (filter (fun p => status (snd p) = Running) m) ∧
              hs_stopped c = size (filter (fun p => status (snd p) = Stopped) m) ∧
              hs_error c = size (filter (fun p => status (snd p) = Error) m) ∧
              hs_good c = size (filter (fun p => health (snd p) = Good) m) ∧
              hs_degraded c = size (filter (fun p => health (snd p) = Degraded) m) ∧
              hs_failed c = size (filter (fun p => health (snd p) = Failed) m) ∧
              hs_unknown c =
                size (filter (fun p => health (snd p) = Unknown ∨ health (snd p) = Poor) m) ∧
              (hs_good c + hs_degraded c + hs_failed c + hs_unknown c = size m)%nat ∧
              (hs_running c + hs_stopped c + hs_error c
                 + size (filter (fun p => status (snd p) = Starting) m)
               = size m)%nat)).
  - rewrite !map_filter_empty, !map_size_empty. done.
  - intros i x m c Hi (H1 & H2 & H3 & H4 & H5 & H6 & H7 & H8 & H9).
    rewrite !size_filter_insert_fresh by done.
    rewrite map_size_insert_None by done.
    unfold count_stream. cbn [snd].
    destruct (status x), (health x); cbn;
      repeat (case_decide; try done; try (exfalso; intuition congruence));
      rewrite <- ?H1, <- ?H2, <- ?H3, <- ?H4, <- ?H5, <- ?H6, <- ?H7;
      split_and!; try done; lia.
Qed.

(** ** The call of startStream *)

Lemma update_stream_frame {A} (g : State → A) id f st :
  (∀ v x, g (set_streams v x) = g x) → g (update_stream id f st) = g st.
Proof. intros Hg. unfold update_stream. by destruct (streams st !! id). Qed.

Lemma clearReconnectTimer_frame {A} (g : State → A) id st :
  (∀ v x, g (set_reconnectTimers v x) = g x) →
  (∀ v x, g (set_timers v x) = g x) →
  g (clearReconnectTimer id st) = g st.
Proof.
  intros H1 H2. unfold clearReconnectTimer, clearTimer.
  destruct (reconnectTimers st !! id); [|done]. by rewrite H1, H2.
Qed.

(** What the call does to a record that is not running, and to the
    tables. *)
Lemma startStream_effect cfg id st (s : StreamRecord) :
  streams st !! id = Some s →
  status s ≠ Running →
  snd (startStream cfg id st) = StartPending ∧
  (∃ s',
     streams (fst (startStream cfg id st)) = <[id := s']> (streams st) ∧
     status s' = Starting ∧ hlsPath s' = Some (hls_path_of id) ∧
     is_Some (diagnostics s') ∧
     (is_Some (diagnostics s) → diagnostics s' = diagnostics s) ∧
     stream_id s' = stream_id s ∧ name s' = name s ∧ url s' = url s ∧
     health s' = health s ∧ stats s' = stats s ∧ errors s' = errors s ∧
     streamInfo s' = streamInfo s ∧
     selectedResolution s' = selectedResolution s ∧ createdAt s' = createdAt s) ∧
  processes (fst (startStream cfg id st)) = processes st ∧
  children (fst (startStream cfg id st)) = children st ∧
  reconnectAttempts (fst (startStream cfg id st)) = <[id := 0%nat]> (reconnectAttempts st) ∧
  reconnectTimers (fst (startStream cfg id st)) = delete id (reconnectTimers st) ∧
  timers (fst (startStream cfg id st)) =
    match reconnectTimers st !! id with
    | Some h => delete h (timers st)
    | None => timers st
    end ∧
  screenshotTimers (fst (startStream cfg id st)) = screenshotTimers st ∧
  segmentHealthChecks (fst (startStream cfg id st)) = segmentHealthChecks st ∧
  monitors (fst (startStream cfg id st)) = monitors st ∧
  pendingStarts (fst (startStream cfg id st)) = id :: pendingStarts st ∧
  hlsDirs (fst (startStream cfg id st)) = {[id]} ∪ hlsDirs st ∧
  screenshotFiles (fst (startStream cfg id st)) = screenshotFiles st ∧
  nextHandle (fst (startStream cfg id st)) = nextHandle st.
Proof.
  intros Hs Hne. unfold startStream. rewrite Hs.
  destruct (decide (status s = Running)) as [|_]; [done|].
  cbv zeta. cbn [fst snd].
  set (st1 := saveConfig (update_stream id (set_status Starting) st)).
  set (st2 := set_hlsDirs ({[id]} ∪ hlsDirs st1) st1).
  set (st3 := update_stream id (set_hlsPath (Some (hls_path_of id))) st2).
  set (st4 := set_reconnectAttempts (<[id:=0%nat]> (reconnectAttempts st3)) st3).
  set (st5 := clearReconnectTimer id st4).
  match goal with
  | |- context [update_stream id ?g st5] => set (st6 := update_stream id g st5)
  end.
  assert (∀ {A} (g : State → A),
            (∀ v x, g (set_streams v x) = g x) →
            (∀ v x, g (set_saved v x) = g x) →
            (∀ v x, g (set_hlsDirs v x) = g x) →
            (∀ v x, g (set_reconnectAttempts v x) = g x) →
            (∀ v x, g (set_reconnectTimers v x) = g x) →
            (∀ v x, g (set_timers v x) = g x) →
            g st6 = g st) as Hframe.
  { intros A g G1 G2 G3 G4 G5 G6. subst st6 st5 st4 st3 st2 st1.
    rewrite (update_stream_frame g) by done.
    rewrite (clearReconnectTimer_frame g) by done.
    rewrite G4. rewrite (update_stream_frame g) by done.
    rewrite G3. unfold saveConfig. rewrite G2.
    by rewrite (update_stream_frame g). }
  assert (streams st1 !! id = Some (set_status Starting s)) as Hs1.
  { subst st1. rewrite streams_saveConfig. by apply lookup_update_stream_eq. }
  assert (streams st3 !! id
            = Some (set_hlsPath (Some (hls_path_of id)) (set_status Starting s)))
    as Hs3.
  { subst st3. apply lookup_update_stream_eq. exact Hs1. }
  assert (streams st5 = streams st3) as E5.
  { subst st5 st4. by rewrite streams_clearReconnectTimer. }
  assert (reconnectTimers st4 = reconnectTimers st) as Ert.
  { subst st4 st3 st2 st1. cbn.
    rewrite (update_stream_frame reconnectTimers) by done. cbn.
    by rewrite (update_stream_frame reconnectTimers). }
  assert (timers st4 = timers st) as Etm.
  { subst st4 st3 st2 st1. cbn.
    rewrite (update_stream_frame timers) by done. cbn.
    by rewrite (update_stream_frame timers). }
  destruct (clearReconnectTimer_tables id st4) as (_ & _ & _ & _ & C1 & C2).
  split; [done|]. split.
  { exists (match diagnostics s with
            | Some _ => set_hlsPath (Some (hls_path_of id)) (set_status Starting s)
            | None =>
                set_diagnostics (Some (start_diagnostics cfg))
                  (set_hlsPath (Some (hls_path_of id)) (set_status Starting s))
            end).
    split.
    - change (streams (set_pendingStarts ?v ?x)) with (streams x).
      subst st6. rewrite streams_update_stream, E5.
      apply map_eq. intros j. rewrite lookup_alter, lookup_insert.
      destruct (decide (id = j)) as [<-|Hj].
      + rewrite Hs3. cbn. by destruct (diagnostics s).
      + subst st3. rewrite lookup_update_stream.
        destruct (decide (id = j)); [done|].
        subst st2. change (streams (set_hlsDirs ?v ?x)) with (streams x).
        subst st1. rewrite streams_saveConfig, lookup_update_stream.
        by destruct (decide (id = j)).
    - destruct (diagnostics s) eqn:Hd; cbn; rewrite ?Hd;
        split_and!; try done; try (by eexists); by intros [? ?]. }
  change (pendingStarts (set_pendingStarts ?v ?x)) with v.
  split_and!;
    try (change (?f (set_pendingStarts ?v ?x)) with (f x); by apply Hframe).
  - change (reconnectAttempts (set_pendingStarts ?v ?x)) with (reconnectAttempts x).
    subst st6. rewrite (update_stream_frame reconnectAttempts) by done.
    subst st5. rewrite (clearReconnectTimer_frame reconnectAttempts) by done.
    subst st4. cbn. subst st3. rewrite (update_stream_frame reconnectAttempts) by done.
    subst st2 st1. cbn. by rewrite (update_stream_frame reconnectAttempts).
  - change (reconnectTimers (set_pendingStarts ?v ?x)) with (reconnectTimers x).
    subst st6. rewrite (update_stream_frame reconnectTimers) by done.
    subst st5. by rewrite C1, Ert.
  - change (timers (set_pendingStarts ?v ?x)) with (timers x).
    subst st6. rewrite (update_stream_frame timers) by done.
    subst st5. by rewrite C2, Ert, Etm.
  - f_equal. change (pendingStarts st6 = pendingStarts st). by apply Hframe.
  - change (hlsDirs (set_pendingStarts ?v ?x)) with (hlsDirs x).
    subst st6. rewrite (update_stream_frame hlsDirs) by done.
    subst st5. rewrite (clearReconnectTimer_frame hlsDirs) by done.
    subst st4. cbn. subst st3. rewrite (update_stream_frame hlsDirs) by done.
    subst st2. cbn. subst st1. cbn. by rewrite (update_stream_frame hlsDirs).
Qed.

(** A call of startStream: for an unknown id and for a running stream it
    changes nothing; otherwise it marks the record starting, resets the
    reconnect counter, cancels a pending reconnect timer, makes sure the
    segment directory exists and leaves the launch to its continuation.
    It registers no handle and touches no other record. *)
Theorem startStream_call (cfg : Config) (id : string) (st : State) :
  match streams st !! id with
  | None => startStream cfg id st = (st, StartNotFound)
  | Some s =>
      if decide (status s = Running)
      then startStream cfg id st = (st, StartAlreadyRunning)
      else
        let st' := fst (startStream cfg id st) in
        snd (startStream cfg id st) = StartPending ∧
        status_of id st' = Some Starting ∧
        attempts_of id st' = 0%nat ∧
        reconnectTimers st' !! id = None ∧
        (∀ h, reconnectTimers st !! id = Some h → timers st' !! h = None) ∧
        id ∈ hlsDirs st' ∧
        id ∈ pendingStarts st' ∧
        processes st' = processes st ∧
        (∀ j, j ≠ id → streams st' !! j = streams st !! j)
  end.
Proof.
  destruct (streams st !! id) as [s|] eqn:Hs.
  - destruct (decide (status s = Running)) as [Hrun|Hne].
    + unfold startStream. rewrite Hs. by destruct (decide (status s = Running)).
    + destruct (startStream_effect cfg id st s Hs Hne)
        as (E0 & (s' & E1 & E2 & _) & E3 & _ & E4 & E5 & E6 & _ & _ & _ & E7 & E8 & _).
      cbv zeta. unfold status_of, attempts_of.
      rewrite E1, E3, E4, E5, E6, E7, E8.
      rewrite !lookup_insert_eq, lookup_delete_eq. cbn. rewrite E2.
      split_and!; try done.
      * intros h Hh. rewrite Hh. apply lookup_delete_eq.
      * apply elem_of_union. left. by apply elem_of_singleton.
      * apply elem_of_cons. by left.
      * intros j Hj. by rewrite lookup_insert_ne.
  - unfold startStream. by rewrite Hs.
Qed.

(** ** Updating a stream *)



(** ** Backup and restore *)

(** One entry of the loop of importConfig: skipped, or entered as a new
    record that a start then marks starting. *)
Lemma import_entry_spec cfg now starts append st (id : string) (b : BackupStream) :
  (append = true ∧ is_Some (streams st !! id) ∧
   import_entry cfg now starts append st (id, b) = st) ∨
  ((append = false ∨ streams st !! id = None) ∧
   processes (import_entry cfg now starts append st (id, b)) = processes st ∧
   ∃ s',
     streams (import_entry cfg now starts append st (id, b)) = <[id := s']> (streams st) ∧
     stream_id s' = id ∧ name s' = b_name b ∧ url s' = b_url b ∧
     createdAt s' = default now (b_createdAt b) ∧
     streamInfo s' = b_streamInfo b ∧
     status s' = (if starts then Starting else Stopped) ∧
     health s' = Unknown ∧ stats s' = mkStats 0 0 None None ∧ errors s' = None).
Proof.
  unfold import_entry. cbn [fst snd].
  destruct (append && bool_decide (is_Some (streams st !! id))) eqn:E.
  - left. apply andb_prop in E as [-> E]. apply bool_decide_eq_true_1 in E. done.
  - right. split.
    { destruct append; [|by left]. right. cbn in E.
      apply bool_decide_eq_false_1 in E. by apply eq_None_not_Some. }
    set (st1 := set_streams (<[id:=imported_record id now b]> (streams st)) st).
    destruct starts.
    + assert (streams st1 !! id = Some (imported_record id now b)) as Hs1
        by apply lookup_insert_eq.
      destruct (startStream_effect cfg id st1 _ Hs1)
        as (_ & (s' & E1 & E2 & _ & _ & _ & E3 & E4 & E5 & E6 & E7 & E8 & E9 & _ & E10)
              & E11 & _); [done|].
      split; [by rewrite E11|].
      exists s'. rewrite E1, E2, E3, E4, E5, E6, E7, E8, E9, E10.
      split_and!; try done. subst st1. cbn. apply insert_insert_eq.
    + split; [done|]. exists (imported_record id now b). by split_and!.
Qed.

Lemma import_loop_processes cfg now starts append (config : list (string * BackupStream)) :
  ∀ st, processes (foldl (import_entry cfg now starts append) st config) = processes st.
Proof.
  induction config as [|[id b] config IH]; intros st; [done|].
  cbn [foldl]. rewrite IH.
  destruct (import_entry_spec cfg now starts append st id b)
    as [(_ & _ & ->)|(_ & H & _)]; done.
Qed.

Lemma import_loop_other cfg now starts append (config : list (string * BackupStream))
    (id : string) :
  ∀ st, id ∉ config.*1 →
    streams (foldl (import_entry cfg now starts append) st config) !! id
      = streams st !! id.
Proof.
  induction config as [|[k b] config IH]; intros st Hid; [done|].
  cbn [foldl]. cbn in Hid. apply not_elem_of_cons in Hid as [Hk Hid].
  rewrite IH by done.
  destruct (import_entry_spec cfg now starts append st k b)
    as [(_ & _ & ->)|(_ & _ & s' & -> & _)]; [done|].
  by rewrite lookup_insert_ne.
Qed.

Lemma import_loop_keeps cfg now starts (config : list (string * BackupStream))
    (id : string) (s : StreamRecord) :
  ∀ st, streams st !! id = Some s →
    streams (foldl (import_entry cfg now starts true) st config) !! id = Some s.
Proof.
  induction config as [|[k b] config IH]; intros st Hs; [done|].
  cbn [foldl]. apply IH.
  destruct (import_entry_spec cfg now starts true st k b)
    as [(_ & _ & ->)|([?|Hk] & _ & s' & -> & _)]; [done|done|].
  rewrite lookup_insert_ne; [done|]. intros ->. by rewrite Hs in Hk.
Qed.

Lemma import_loop_entered cfg now starts append (config : list (string * BackupStream))
    (id : string) (b : BackupStream) :
  ∀ st,
    NoDup config.*1 →
    (id, b) ∈ config →
    append = false ∨ streams st !! id = None →
    ∃ s',
      streams (foldl (import_entry cfg now starts append) st config) !! id = Some s' ∧
      stream_id s' = id ∧ name s' = b_name b ∧ url s' = b_url b ∧
      createdAt s' = default now (b_createdAt b) ∧
      streamInfo s' = b_streamInfo b ∧
      status s' = (if starts then Starting else Stopped) ∧
      health s' = Unknown ∧ stats s' = mkStats 0 0 None None ∧ errors s' = None.
Proof.
  induction config as [|[k b'] config IH]; intros st Hnd Hin Hfree.
  - by apply elem_of_nil in Hin.
  - cbn in Hnd. apply NoDup_cons in Hnd as [Hk Hnd].
    cbn [foldl]. apply elem_of_cons in Hin as [Heq|Hin].
    + injection Heq as <- <-.
      rewrite import_loop_other by done.
      destruct (import_entry_spec cfg now starts append st id b)
        as [(-> & Hsome & _)|(_ & _ & s' & -> & H)].
      * destruct Hfree as [?|Hnone]; [done|]. rewrite Hnone in Hsome.
        by destruct Hsome.
      * exists s'. by rewrite lookup_insert_eq.
    + assert (k ≠ id) as Hne.
      { intros ->. apply Hk. apply list_elem_of_fmap. by exists (id, b). }
      apply IH; [done|done|].
      destruct Hfree as [?|Hnone]; [by left|]. right.
      destruct (import_entry_spec cfg now starts append st k b')
        as [(_ & _ & ->)|(_ & _ & s' & -> & _)]; [done|].
      by rewrite lookup_insert_ne.
Qed.

(** A stop of one stream drops no other handle and adds none. *)
Lemma stopStream_processes_None id j st :
  processes st !! j = None → processes (fst (stopStream id st)) !! j = None.
Proof.
  intros Hj. destruct (streams st !! id) as [s|] eqn:Hs.
  - destruct (decide (status s = Stopped)) as [E|Hne].
    + by rewrite (stopStream_stopped id st s Hs E).
    + destruct (stopStream_effect id st s Hs Hne) as (_ & _ & ->).
      rewrite lookup_delete. by case_decide.
  - unfold stopStream. by rewrite Hs.
Qed.

Lemma stopAll_processes_None (keys : list string) (j : string) :
  ∀ st, processes st !! j = None → processes (_stopAllStreams keys st) !! j = None.
Proof.
  induction keys as [|k keys IH]; intros st Hj; [done|].
  cbn [_stopAllStreams foldl]. apply IH.
  destruct (streams st !! k) as [s|]; [|done].
  destruct (decide (status s = Running)); [|done].
  by apply stopStream_processes_None.
Qed.

Lemma stopAll_stops (keys : list string) (j : string) :
  ∀ st, j ∈ keys → status_of j st = Some Running →
    processes (_stopAllStreams keys st) !! j = None.
Proof.
  induction keys as [|k keys IH]; intros st Hin Hrun.
  - by apply elem_of_nil in Hin.
  - cbn [_stopAllStreams foldl].
    destruct (decide (k = j)) as [->|Hne].
    + unfold status_of in Hrun.
      destruct (streams st !! j) as [s|] eqn:Hs; [|done].
      injection Hrun as Hrun.
      destruct (decide (status s = Running)); [|done].
      apply stopAll_processes_None.
      assert (status s ≠ Stopped) as Hns by (rewrite Hrun; discriminate).
      destruct (stopStream_effect j st s Hs Hns) as (_ & _ & ->).
      apply lookup_delete_eq.
    + apply elem_of_cons in Hin as [->|Hin]; [done|].
      apply IH; [done|].
      destruct (streams st !! k) as [s|] eqn:Hs; [|done].
      destruct (decide (status s = Running)) as [Hr|]; [|done].
      assert (status s ≠ Stopped) as Hns by (rewrite Hr; discriminate).
      destruct (stopStream_effect k st s Hs Hns) as (_ & E & _).
      unfold status_of. rewrite E, lookup_insert_ne by done. exact Hrun.
Qed.

(** importConfig in append mode never overwrites: every record that was
    there is there unchanged afterwards, an entry of the configuration
    under a new id is entered, and no id appears that is neither.  No
    handle is registered or dropped. *)
Theorem importConfig_append_keeps (cfg : Config) (now : Z) (keys : list string)
    (config : list (string * BackupStream)) (startStreams : bool) (st : State) :
  let st' := importConfig cfg now keys config startStreams true st in
  (∀ id s, streams st !! id = Some s → streams st' !! id = Some s) ∧
  (∀ id, id ∈ config.*1 → is_Some (streams st' !! id)) ∧
  (∀ id, streams st !! id = None → id ∉ config.*1 → streams st' !! id = None) ∧
  processes st' = processes st.
Proof.
  cbv zeta. unfold importConfig. rewrite streams_saveConfig.
  change (processes (saveConfig ?x)) with (processes x).
  split_and!.
  - intros id s Hs. by apply import_loop_keeps.
  - intros id Hin.
    destruct (streams st !! id) as [s|] eqn:Hs.
    { rewrite (import_loop_keeps _ _ _ _ _ _ _ Hs). by eexists. }
    clear keys. revert st Hs.
    induction config as [|[k b] config IH]; intros st Hs.
    + by apply elem_of_nil in Hin.
    + cbn [foldl].
      destruct (import_entry_spec cfg now startStreams true st k b)
        as [(_ & Hsome & ->)|(_ & _ & s' & E & _)].
      * cbn in Hin. apply elem_of_cons in Hin as [->|Hin].
        { rewrite Hs in Hsome. by destruct Hsome. }
        by apply IH.
      * destruct (decide (k = id)) as [->|Hne].
        { erewrite import_loop_keeps; [by eexists|]. rewrite E. apply lookup_insert_eq. }
        cbn in Hin. apply elem_of_cons in Hin as [->|Hin]; [done|].
        apply IH; [done|]. rewrite E. by rewrite lookup_insert_ne.
  - intros id Hs Hid. by rewrite import_loop_other.
  - apply import_loop_processes.
Qed.

(** importConfig in overwrite mode, for a configuration whose ids are
    distinct: the streams that were running are stopped first, so no
    handle stays registered for them; afterwards the records are exactly
    those of the configuration, each with the name, the URL and the
    stream information of its entry, its creation time or the time of
    the import, no errors, zeroed counters and health unknown, and each
    stopped, or starting when the import starts the streams. *)
Theorem importConfig_overwrite_replaces (cfg : Config) (now : Z) (keys : list string)
    (config : list (string * BackupStream)) (startStreams : bool) (st : State) :
  NoDup config.*1 →
  let st' := importConfig cfg now keys config startStreams false st in
  (∀ id, id ∉ config.*1 → streams st' !! id = None) ∧
  (∀ id b, (id, b) ∈ config →
     ∃ s',
       streams st' !! id = Some s' ∧
       stream_id s' = id ∧ name s' = b_name b ∧ url s' = b_url b ∧
       createdAt s' = default now (b_createdAt b) ∧
       streamInfo s' = b_streamInfo b ∧
       status s' = (if startStreams then Starting else Stopped) ∧
       health s' = Unknown ∧ stats s' = mkStats 0 0 None None ∧ errors s' = None) ∧
  (∀ id, id ∈ keys → status_of id st = Some Running → processes st' !! id = None).
Proof.
  intros Hnd. cbv zeta. unfold importConfig. rewrite streams_saveConfig.
  change (processes (saveConfig ?x)) with (processes x).
  split_and!.
  - intros id Hid. rewrite import_loop_other by done. apply lookup_empty.
  - intros id b Hin. apply import_loop_entered; [done|done|by left].
  - intros id Hin Hrun. rewrite import_loop_processes.
    change (processes (set_streams ?v ?x)) with (processes x).
    by apply stopAll_stops.
Qed.

(** A backup restored over the manager it was taken from (overwrite
    mode): the same ids are there afterwards, each record with the name,
    the URL, the creation time and the stream information it had; status,
    health, counters and errors start afresh. *)
Theorem export_import_round_trip (cfg : Config) (now : Z) (keys : list string)
    (startStreams : bool) (st : State) :
  let st' := importConfig cfg now keys
               (map_to_list (backup_of <$> exportConfig st)) startStreams false st in
  ∀ id,
    match streams st !! id with
    | None => streams st' !! id = None
    | Some s =>
        ∃ s',
          streams st' !! id = Some s' ∧
          stream_id s' = id ∧ name s' = name s ∧ url s' = url s ∧
          createdAt s' = createdAt s ∧ streamInfo s' = streamInfo s ∧
          status s' = (if startStreams then Starting else Stopped) ∧
          health s' = Unknown ∧ stats s' = mkStats 0 0 None None ∧ errors s' = None
    end.
Proof.
  cbv zeta. intros id. unfold importConfig. rewrite streams_saveConfig.
  unfold exportConfig.
  destruct (streams st !! id) as [s|] eqn:Hs.
  - destruct (import_loop_entered cfg now startStreams false
                (map_to_list (backup_of <$> streams st)) id (backup_of s)
                (set_streams ∅ (_stopAllStreams keys st)))
      as (s' & H); [apply NoDup_fst_map_to_list| |by left|by exists s'].
    apply elem_of_map_to_list. by rewrite lookup_fmap, Hs.
  - rewrite import_loop_other; [apply lookup_empty|].
    intros Hin. apply list_elem_of_fmap in Hin as ([k b] & -> & Hin).
    apply elem_of_map_to_list in Hin. cbn [fst] in Hs.
    by rewrite lookup_fmap, Hs in Hin.
Qed.

(** ** Following redirects *)

Section RedirectFacts.

Variable net : string → HttpResult.
Variable origin : string → string.

(** fetchUrl on a URL that leads by [n] redirects to a URL answering 200:
    with a budget of at least [n] redirects it resolves with the body of
    that answer; with a smaller budget it is rejected with 'Too many
    redirects'.  The budget of analyzeHlsPlaylist is 5. *)
Theorem fetchUrl_redirect_budget (n : nat) :
  ∀ (budget : nat) (u target : string) (location : option string) (body : string),
    redirects_to net origin n u target →
    net target = HttpResponse 200 location body →
    fetchUrl net origin u budget =
      if (n <=? budget)%nat then Resolved body else Rejected "Too many redirects".
Proof.
  induction n as [|n IH]; intros budget u target location body Hchain Hend.
  - cbn in Hchain. subst u. cbn [Nat.leb].
    destruct budget; cbn [fetchUrl]; rewrite Hend;
      destruct location as [l|]; cbn; reflexivity.
  - cbn [redirects_to] in Hchain.
    destruct (net u) as [statusCode [l|] body'|] eqn:Hu; try done.
    destruct Hchain as ((Hlo & Hhi) & Hl & Hchain).
    assert ((300 <=? statusCode) && (statusCode <? 400) && negb (String.eqb l "") = true)
      as Hredirect.
    { apply andb_true_intro. split; [apply andb_true_intro; split|].
      - by apply Z.leb_le.
      - by apply Z.ltb_lt.
      - apply negb_true_iff. by apply String.eqb_neq. }
    destruct budget as [|budget].
    + cbn [fetchUrl]. rewrite Hu, Hredirect. reflexivity.
    + cbn [fetchUrl]. rewrite Hu, Hredirect.
      rewrite (IH budget _ target location body Hchain Hend). reflexivity.
Qed.

End RedirectFacts.

Lemma fetchUrl_redirect_budget_witness :
  redirects_to hop_net no_origin 3 "http://src/hop0" "http://src/video.m3u8" ∧
  fetchUrl hop_net no_origin "http://src/hop0" 5 = Resolved "#EXTM3U" ∧
  fetchUrl hop_net no_origin "http://src/hop0" 2 = Rejected "Too many redirects".
Proof.
  assert (redirects_to hop_net no_origin 3 "http://src/hop0" "http://src/video.m3u8")
    as Hchain.
  { cbn. split_and!; try done; try lia. }
  split; [exact Hchain|]. split.
  - exact (fetchUrl_redirect_budget hop_net no_origin 3 5 _ _ None "#EXTM3U"
             Hchain eq_refl).
  - exact (fetchUrl_redirect_budget hop_net no_origin 3 2 _ _ None "#EXTM3U"
             Hchain eq_refl).
Defined.

(** ** Resolution labels outside the playlist analysis *)

(** The label of the stream-test route against the label the manager
    stores: they agree for heights from 360 to 1439 and below 240; from
    1440 up the route says 1440p or 4K where the manager says 1080p, and
    from 240 to 359 the route says 240p where the manager writes the
    height itself. *)
Theorem resolutionLabel_and_formatResolution (h : Z) :
  (360 <= h < 1440 ∨ h < 240 → resolutionLabel h = formatResolution (IsInt h)) ∧
  (2160 <= h → resolutionLabel h = "4K" ∧ formatResolution (IsInt h) = "1080p") ∧
  (1440 <= h < 2160 →
     resolutionLabel h = "1440p" ∧ formatResolution (IsInt h) = "1080p") ∧
  (240 <= h < 360 →
     resolutionLabel h = "240p" ∧ formatResolution (IsInt h) = pretty h +:+ "p").
Proof.
  unfold resolutionLabel, formatResolution, render_int.
  split_and!; intros H;
    repeat match goal with
    | |- context [?a <=? ?b] =>
        let E := fresh in
        destruct (a <=? b) eqn:E;
        [apply Z.leb_le in E | apply Z.leb_gt in E]
    end; try done; try lia.
Qed.

(** The resolution of a stream whose start selected a variant: the
    directory being there, _analyzeStreamResolution answers from the
    selected resolution alone, whatever the playlist and the segments
    are.  From 360 lines up it gives the label startStream stored; below
    it gives the resolution string itself, not the '{height}p' that
    startStream stored. *)
Theorem analyzeStreamResolution_selected (id : string) (st : State)
    (s : StreamRecord) (p r : string) (h : Z)
    (playlist : option PlaylistMatches) (files : list (string * Z))
    (size_of : string → Z) :
  streams st !! id = Some s →
  hlsPath s = Some p → p ≠ "" → id ∈ hlsDirs st →
  selectedResolution s = Some r → r ≠ "" →
  includes "x" r = true →
  resolution_height r = IsInt h →
  _analyzeStreamResolution id playlist files size_of st =
    Some (if 360 <=? h then formatResolution (IsInt h) else r).
Proof.
  intros Hs Hp Hpne Hdir Hr Hrne Hx Hh.
  apply String.eqb_neq in Hpne, Hrne.
  unfold _analyzeStreamResolution. rewrite Hs, Hp, Hr, Hpne, Hrne.
  rewrite bool_decide_eq_true_2 by done. cbn [negb andb]. cbv zeta.
  rewrite Hx, Hh.
  unfold formatResolution.
  repeat match goal with
    | |- context [?a <=? ?b] =>
        let E := fresh in
        destruct (a <=? b) eqn:E;
        [apply Z.leb_le in E | apply Z.leb_gt in E]
    end; try done; lia.
Qed.

(** ** Estimating the bit rate *)

Lemma total_size_const (size_of : string → Z) (c : Z) (samples : list (string * Z)) :
  (∀ f, f ∈ samples → size_of (fst f) = c) →
  ∀ acc, foldl (fun sum f => sum + size_of (fst f)) acc samples
           = acc + c * Z.of_nat (length samples).
Proof.
  induction samples as [|f samples IH]; intros Hall acc.
  - cbn. lia.
  - cbn [foldl length]. rewrite IH.
    + rewrite (Hall f) by (apply elem_of_cons; by left). lia.
    + intros g Hg. apply Hall. apply elem_of_cons. by right.
Qed.

(** The estimate of the bit rate from the segment files: there is none
    with fewer than two segment files; otherwise the samples are
    min(3, count) segment files that none of the other segment files is
    newer than, and the estimate is four times their mean size, rounded
    half up (the bits per second of segments of two seconds), exactly four
    times the size when the samples all have one size. *)
Theorem estimateBitrate_value (files : list (string * Z)) (size_of : string → Z) :
  let segmentFiles := filter (fun f => endsWith ".ts" (fst f) = true) files in
  ((length segmentFiles < 2)%nat → estimateBitrate files size_of = None) ∧
  ((2 ≤ length segmentFiles)%nat →
     ∃ samples rest b,
       samples ++ rest ≡ₚ segmentFiles ∧
       length samples = Nat.min 3 (length segmentFiles) ∧
       (∀ f r, f ∈ samples → r ∈ rest → snd r <= snd f) ∧
       estimateBitrate files size_of = Some b ∧
       let n := Z.of_nat (length samples) in
       let total := total_size size_of samples in
       2 * n * b <= 8 * total + n < 2 * n * (b + 1) ∧
       ∀ c, (∀ f, f ∈ samples → size_of (fst f) = c) → b = 4 * c).
Proof.
  cbv zeta. unfold estimateBitrate.
  pose proof (sort_newest_first_perm
                (filter (fun f => endsWith ".ts" (fst f) = true) files)) as Hperm.
  pose proof (sort_newest_first_sorted
                (filter (fun f => endsWith ".ts" (fst f) = true) files)) as Hsorted.
  pose proof (Permutation_length Hperm) as Hlen.
  set (sorted := sort_newest_first _) in *.
  set (segmentFiles := filter _ files) in *.
  split.
  - intros Hlt. destruct (2 <=? length sorted)%nat eqn:E; [|done].
    apply Nat.leb_le in E. lia.
  - intros Hge. assert ((2 <=? length sorted)%nat = true) as ->
      by (apply Nat.leb_le; lia).
    exists (take 3 sorted), (drop 3 sorted).
    set (samples := take 3 sorted).
    assert (length samples = Nat.min 3 (length segmentFiles)) as Hn.
    { subst samples. rewrite length_take. lia. }
    eexists. split; [subst samples; by rewrite take_drop|]. split; [exact Hn|]. split.
    { intros f r Hf Hr. rewrite <- (take_drop 3 sorted) in Hsorted.
      exact (StronglySorted_app_1_elem_of _ _ _ f r Hsorted Hf Hr). }
    split; [reflexivity|]. split.
    + set (n := Z.of_nat (length samples)) in *.
      set (t := 8 * total_size size_of samples + n).
      pose proof (Z.mul_div_le t (2 * n) ltac:(lia)).
      pose proof (Z.mul_succ_div_gt t (2 * n) ltac:(lia)).
      lia.
    + intros c Hall. unfold total_size.
      rewrite (total_size_const size_of c samples Hall).
      set (n := Z.of_nat (length samples)) in *.
      replace (8 * (0 + c * n) + n) with (n + 4 * c * (2 * n)) by lia.
      rewrite Z.div_add by lia.
      rewrite Z.div_small by lia. lia.
Qed.

Lemma estimateBitrate_value_witness :
  estimateBitrate
    [("playlist.m3u8", 7000); ("segment_000.ts", 3000); ("segment_001.ts", 5000);
     ("segment_002.ts", 7000)] (fun _ => 250000) = Some 1000000.
Proof.
  destruct (estimateBitrate_value
              [("playlist.m3u8", 7000); ("segment_000.ts", 3000);
               ("segment_001.ts", 5000); ("segment_002.ts", 7000)]
              (fun _ => 250000)) as [_ H].
  destruct H as (samples & rest & b & _ & _ & _ & -> & _ & Hb);
    [apply Nat.leb_le; reflexivity|].
  by rewrite (Hb 250000).
Defined.

(** ** The reconnect cycle *)

(** What handleReconnect does to a record that has its diagnostics. *)
Lemma handleReconnect_spec cfg now id st (s : StreamRecord) :
  streams st !! id = Some s →
  is_Some (diagnostics s) →
  ∃ st' s',
    handleReconnect cfg now id st = Normal st' ∧
    streams st' = <[id := s']> (streams st) ∧
    is_Some (diagnostics s') ∧
    processes st' = processes st ∧
    pendingProbes st' = pendingProbes st ∧
    pendingStarts st' = pendingStarts st ∧
    if maxReconnectAttempts cfg <=? Z.of_nat (attempts_of id st) then
      status s' = Error ∧ health s' = Failed ∧
      get_diag "healthCheckStatus" s' = Some (JStr "max_reconnect_exceeded") ∧
      timers st' = timers st ∧
      reconnectTimers st' = reconnectTimers st ∧
      attempts_of id st' = attempts_of id st
    else
      status s' = status s ∧ health s' = health s ∧
      timers st' =
        <[nextHandle st := mkTimer KReconnect id (backoffDelay cfg (attempts_of id st))]>
          (timers st) ∧
      reconnectTimers st' = <[id := nextHandle st]> (reconnectTimers st) ∧
      attempts_of id st' = S (attempts_of id st).
Proof.
  intros Hs [d Hd]. unfold handleReconnect. rewrite Hs.
  set (st1 := match reconnectAttempts st !! id with
              | Some _ => st
              | None => set_reconnectAttempts (<[id:=0%nat]> (reconnectAttempts st)) st
              end).
  assert (streams st1 = streams st ∧ timers st1 = timers st ∧
          reconnectTimers st1 = reconnectTimers st ∧
          nextHandle st1 = nextHandle st ∧ processes st1 = processes st ∧
          pendingProbes st1 = pendingProbes st ∧
          pendingStarts st1 = pendingStarts st ∧
          attempts_of id st1 = attempts_of id st)
    as (E1 & E2 & E3 & E4 & E5 & E6 & E7 & E8).
  { subst st1. unfold attempts_of.
    destruct (reconnectAttempts st !! id) eqn:E; simpl; rewrite ?E;
      rewrite ?lookup_insert_eq; done. }
  cbv zeta. rewrite E8, Hd.
  assert (streams st1 !! id = Some s) as Hs1 by (by rewrite E1).
  destruct (maxReconnectAttempts cfg <=? Z.of_nat (attempts_of id st)).
  - eexists _, (set_diag "healthCheckStatus" (JStr "max_reconnect_exceeded")
                  (set_health Failed (set_status Error s))).
    split; [reflexivity|].
    unfold saveConfig, update_stream. rewrite Hs1. cbn.
    rewrite lookup_insert_eq. cbn.
    split; [by rewrite E1, insert_insert_eq|].
    split; [by eexists|].
    split_and!; try done.
    unfold get_diag. cbn. apply lookup_insert_eq.
  - unfold saveConfig, update_stream, setTimer. rewrite Hs1. cbn.
    eexists _, _. split; [reflexivity|]. cbn.
    split; [by rewrite E1|].
    split; [by eexists|].
    split_and!; try done.
    + by rewrite E2, E4.
    + by rewrite E3, E4.
    + unfold attempts_of. cbn. by rewrite lookup_insert_eq.
Qed.

(** The reconnect timer fires: the probe of the source starts. *)
Lemma reconnect_timer_fires env now id a st (h : nat) :
  awaits_reconnect id a st →
  reconnectTimers st !! id = Some h →
  let st' := step env now (EvTimer h no_observation) st in
  (∃ s', streams st' = <[id := s']> (streams st) ∧ is_Some (diagnostics s') ∧
         (∀ s, streams st !! id = Some s → status s' = status s ∧ health s' = health s)) ∧
  timers st' = delete h (timers st) ∧
  reconnectTimers st' = reconnectTimers st ∧
  reconnectAttempts st' = reconnectAttempts st ∧
  processes st' = processes st ∧
  pendingStarts st' = pendingStarts st ∧
  nextHandle st' = nextHandle st ∧
  pendingProbes st' = id :: pendingProbes st.
Proof.
  intros ((s & Hs & [dg Hd]) & Ha & (h0 & d0 & Hh0 & Htm & Huniq) & Hpend) Hh.
  rewrite Hh0 in Hh. injection Hh as <-.
  cbv zeta. cbn [step]. rewrite Htm. cbn [t_kind is_interval timer_callback t_owner].
  unfold testSourceUrl_begin, clearTimer.
  change (streams (set_timers ?v ?x)) with (streams x).
  rewrite Hs, Hd. unfold saveConfig, update_stream.
  change (streams (set_timers ?v ?x)) with (streams x).
  rewrite Hs. cbn.
  split_and!; try done.
  eexists. split; [reflexivity|]. split; [by eexists|].
  intros s0 Hs0. assert (s0 = s) as -> by congruence. done.
Qed.

Lemma is_pending_head id (pp : list string) : is_pending id (id :: pp) = true.
Proof. unfold is_pending. cbn. by rewrite String.eqb_refl. Qed.

Lemma remove_first_head id (pp : list string) : remove_first id (id :: pp) = pp.
Proof. cbn. by rewrite String.eqb_refl. Qed.

Lemma diagnostics_probe_record o (s : StreamRecord) :
  is_Some (diagnostics s) →
  is_Some (diagnostics (probe_record o s)) ∧
  status (probe_record o s) = status s ∧ health (probe_record o s) = health s.
Proof.
  intros [d Hd]. unfold probe_record. rewrite Hd.
  destruct o as [|code errorOutput]; [by split_and!; try eexists|].
  destruct (negb (code =? 0) && negb (String.eqb errorOutput ""));
    split_and!; try done; by eexists.
Qed.

(** One round with a probe that fails: below the maximum the stream waits
    again, one attempt further, for a timer of the backoff delay of the
    attempt; at the maximum the cycle gives up. *)
Lemma reconnect_round_fails env o id a st t :
  awaits_reconnect id a st →
  probe_valid o = false →
  let cfg := constructor env in
  let st' := reconnect_round env o id st t in
  if maxReconnectAttempts cfg <=? Z.of_nat a
  then reconnect_exhausted id st'
  else awaits_reconnect id (S a) st' ∧
       (∀ s s', streams st !! id = Some s → streams st' !! id = Some s' →
                status s' = status s ∧ health s' = health s) ∧
       (∃ h, reconnectTimers st' !! id = Some h ∧
             timers st' !! h = Some (mkTimer KReconnect id (backoffDelay cfg a))) ∧
       processes st' = processes st.
Proof.
  intros Hw Hinvalid. cbv zeta.
  pose proof Hw as ((s & Hs & Hdg) & Ha & (h & d & Hh & Htm & Huniq) & Hpend).
  unfold reconnect_round. rewrite Hh.
  destruct (reconnect_timer_fires env (fst t) id a st h Hw Hh)
    as ((s1 & F1 & F2 & F3) & F4 & F5 & F6 & F7 & F8 & F9 & F10).
  set (st1 := step env (fst t) (EvTimer h no_observation) st) in *.
  cbn [step]. rewrite F10, is_pending_head, remove_first_head.
  unfold after_probe. rewrite Hinvalid.
  set (st2 := saveConfig (update_stream id (probe_record o) (set_pendingProbes _ st1))).
  assert (streams st2 = <[id := probe_record o s1]> (streams st)) as G1.
  { subst st2. rewrite streams_saveConfig, streams_update_stream.
    change (streams (set_pendingProbes ?v ?x)) with (streams x).
    rewrite F1. apply map_eq. intros j. rewrite lookup_alter.
    case_decide; subst; [by rewrite !lookup_insert_eq|].
    by rewrite !lookup_insert_ne. }
  assert (∀ {A} (g : State → A),
            (∀ v x, g (set_streams v x) = g x) →
            (∀ v x, g (set_saved v x) = g x) →
            (∀ v x, g (set_pendingProbes v x) = g x) →
            g st2 = g st1) as Hframe.
  { intros A g H1 H2 H3. subst st2. unfold saveConfig. rewrite H2.
    rewrite (update_stream_frame g) by done. by rewrite H3. }
  assert (pendingProbes st2 = pendingProbes st) as G2.
  { subst st2. unfold saveConfig.
    change (pendingProbes (set_saved ?v ?x)) with (pendingProbes x).
    by rewrite (update_stream_frame pendingProbes). }
  destruct (diagnostics_probe_record o s1 F2) as (P1 & P2 & P3).
  destruct (F3 s Hs) as [F3a F3b].
  assert (streams st2 !! id = Some (probe_record o s1)) as Hs2
    by (rewrite G1; apply lookup_insert_eq).
  assert (attempts_of id st2 = a) as Ha2.
  { unfold attempts_of. rewrite (Hframe _ reconnectAttempts) by done.
    by rewrite F6. }
  destruct (handleReconnect_spec (constructor env) (snd t) id st2 _ Hs2 P1)
    as (st' & s' & -> & R1 & R2 & R3 & R4 & R5 & R6).
  cbn [state_of]. rewrite Ha2 in R6.
  assert (timers st2 = delete h (timers st)) as G3.
  { rewrite (Hframe _ timers) by done. exact F4. }
  assert (reconnectTimers st2 = reconnectTimers st) as G4.
  { rewrite (Hframe _ reconnectTimers) by done. exact F5. }
  assert (nextHandle st2 = nextHandle st) as G5.
  { rewrite (Hframe _ nextHandle) by done. exact F9. }
  assert (processes st2 = processes st) as G6.
  { rewrite (Hframe _ processes) by done. exact F7. }
  destruct (maxReconnectAttempts (constructor env) <=? Z.of_nat a).
  - destruct R6 as (T1 & T2 & T3 & T4 & T5 & T6).
    unfold reconnect_exhausted, no_reconnect_timer, status_of, health_of, diag_of.
    rewrite R1, lookup_insert_eq, R4, G2, T4, T5, G3, G4. cbn. rewrite T1, T2, T3.
    split_and!; try done.
    + intros h' t' Ht' Hown Hkind.
      apply lookup_delete_Some in Ht' as [Hne Ht'].
      apply Hne. symmetry. by apply (Huniq h' t').
    + intros h' Hh'. rewrite Hh in Hh'. injection Hh' as <-. apply lookup_delete_eq.
  - destruct R6 as (T1 & T2 & T3 & T4 & T5).
    assert (timers st' =
              <[nextHandle st := mkTimer KReconnect id (backoffDelay (constructor env) a)]>
                (delete h (timers st))) as Htimers.
    { by rewrite T3, G3, G5. }
    assert (reconnectTimers st' !! id = Some (nextHandle st)) as Hrt.
    { rewrite T4, G5. apply lookup_insert_eq. }
    split_and!.
    + unfold awaits_reconnect. split_and!.
      * exists s'. rewrite R1, lookup_insert_eq. done.
      * exact T5.
      * exists (nextHandle st), (backoffDelay (constructor env) a).
        split; [exact Hrt|]. rewrite Htimers. split; [apply lookup_insert_eq|].
        intros h' t' Ht' Hkind Hown.
        destruct (decide (h' = nextHandle st)) as [|Hne]; [done|].
        rewrite lookup_insert_ne in Ht' by done.
        apply lookup_delete_Some in Ht' as [Hne' Ht'].
        exfalso. apply Hne'. symmetry. by apply (Huniq h' t').
      * by rewrite R4, G2.
    + intros s0 s0' Hs0 Hs0'. assert (s0 = s) as -> by congruence.
      rewrite R1, lookup_insert_eq in Hs0'. injection Hs0' as <-.
      rewrite T1, T2, P2, P3. done.
    + exists (nextHandle st). split; [exact Hrt|]. rewrite Htimers.
      apply lookup_insert_eq.
    + by rewrite R3, G6.
Qed.

(** Once the cycle has given up, a further round changes nothing. *)
Lemma reconnect_round_exhausted env o id st t :
  reconnect_exhausted id st → reconnect_round env o id st t = st.
Proof.
  intros (_ & _ & _ & _ & Hstale & Hpend). unfold reconnect_round.
  destruct (reconnectTimers st !! id) as [h|] eqn:Hh; [|done].
  cbn [step]. rewrite (Hstale h eq_refl). by rewrite Hpend.
Qed.

(** A stream that waits for its reconnect timer while every probe of its
    source fails: after one round for each attempt left, and one more,
    the cycle has given up.  The record is in error with health failed
    and the status text max_reconnect_exceeded, no reconnect timer of the
    stream is live, and further rounds change nothing. *)
Theorem reconnect_gives_up (env : Env) (o : ProbeOutcome) (id : string)
    (times : list (Z * Z)) :
  ∀ (a : nat) (st : State),
    awaits_reconnect id a st →
    probe_valid o = false →
    (Z.to_nat (maxReconnectAttempts (constructor env) - Z.of_nat a) + 1
       ≤ length times)%nat →
    reconnect_exhausted id (reconnect_rounds env o id times st).
Proof.
  induction times as [|t times IH]; intros a st Hw Hinvalid Hlen.
  - cbn in Hlen. lia.
  - unfold reconnect_rounds. cbn [foldl].
    pose proof (reconnect_round_fails env o id a st t Hw Hinvalid) as Hround.
    cbv zeta in Hround.
    destruct (maxReconnectAttempts (constructor env) <=? Z.of_nat a) eqn:E.
    + clear IH Hlen. induction times as [|t' times IH']; [exact Hround|].
      cbn [foldl]. by rewrite reconnect_round_exhausted.
    + apply Z.leb_gt in E. destruct Hround as (Hw' & _).
      apply (IH (S a)); [done|done|]. cbn [length] in Hlen. lia.
Qed.

(** A round whose probe finds the source available: the stream is
    started again.  The record is starting, the counter of attempts is
    back at 0, the reconnect table has no entry for the stream and no
    reconnect timer of it is live; the launch is left to the continuation
    of the start. *)
Theorem reconnect_round_succeeds (env : Env) (o : ProbeOutcome) (id : string)
    (a : nat) (st : State) (t : Z * Z) :
  awaits_reconnect id a st →
  status_of id st ≠ Some Running →
  probe_valid o = true →
  let st' := reconnect_round env o id st t in
  status_of id st' = Some Starting ∧
  attempts_of id st' = 0%nat ∧
  reconnectTimers st' !! id = None ∧
  no_reconnect_timer id st' ∧
  id ∈ pendingStarts st' ∧
  processes st' = processes st.
Proof.
  intros Hw Hnr Hvalid. cbv zeta.
  pose proof Hw as ((s & Hs & Hdg) & Ha & (h & d & Hh & Htm & Huniq) & Hpend).
  unfold reconnect_round. rewrite Hh.
  destruct (reconnect_timer_fires env (fst t) id a st h Hw Hh)
    as ((s1 & F1 & F2 & F3) & F4 & F5 & F6 & F7 & F8 & F9 & F10).
  set (st1 := step env (fst t) (EvTimer h no_observation) st) in *.
  cbn [step]. rewrite F10, is_pending_head, remove_first_head.
  unfold after_probe. rewrite Hvalid.
  set (st2 := saveConfig (update_stream id (probe_record o) (set_pendingProbes _ st1))).
  assert (∀ {A} (g : State → A),
            (∀ v x, g (set_streams v x) = g x) →
            (∀ v x, g (set_saved v x) = g x) →
            (∀ v x, g (set_pendingProbes v x) = g x) →
            g st2 = g st1) as Hframe.
  { intros A g H1 H2 H3. subst st2. unfold saveConfig. rewrite H2.
    rewrite (update_stream_frame g) by done. by rewrite H3. }
  assert (streams st2 !! id = Some (probe_record o s1)) as Hs2.
  { subst st2. rewrite streams_saveConfig. apply lookup_update_stream_eq.
    change (streams (set_pendingProbes ?v ?x)) with (streams x).
    rewrite F1. apply lookup_insert_eq. }
  destruct (diagnostics_probe_record o s1 F2) as (P1 & P2 & P3).
  destruct (F3 s Hs) as [F3a F3b].
  assert (status (probe_record o s1) ≠ Running) as Hne.
  { rewrite P2, F3a. intros E. apply Hnr. unfold status_of. rewrite Hs. cbn.
    by rewrite E. }
  destruct (startStream_effect (constructor env) id st2 _ Hs2 Hne)
    as (_ & (s' & E1 & E2 & _) & E3 & _ & E4 & E5 & E6 & _ & _ & _ & E7 & _).
  unfold status_of, attempts_of, no_reconnect_timer.
  rewrite E1, E3, E4, E5, E6, E7.
  rewrite (Hframe _ reconnectTimers) by done.
  rewrite (Hframe _ timers) by done.
  rewrite (Hframe _ processes) by done.
  rewrite F4, F5, F7, Hh.
  rewrite !lookup_insert_eq, lookup_delete_eq. cbn. rewrite E2.
  split_and!; try done.
  - intros h' t' Ht' Hown Hkind.
    apply lookup_delete_Some in Ht' as [_ Ht'].
    apply lookup_delete_Some in Ht' as [Hne' Ht'].
    apply Hne'. symmetry. by apply (Huniq h' t').
  - apply elem_of_cons. by left.
Qed.

(** ** Restarting *)

Lemma nextHandle_stopStream id st :
  nextHandle (fst (stopStream id st)) = nextHandle st.
Proof.
  unfold stopStream. destruct (streams st !! id) as [s|]; [|done].
  destruct (decide (status s = Stopped)); [done|]. cbv zeta. cbn [fst].
  unfold saveConfig. change (nextHandle (set_saved ?v ?x)) with (nextHandle x).
  rewrite (update_stream_frame nextHandle) by done.
  unfold _clearMonitoring, _clearSegmentHealthCheck, _clearScreenshotTimer,
    clearReconnectTimer, clearTimer, kill.
  repeat case_match; reflexivity.
Qed.

Lemma pendingStarts_stopStream id st :
  pendingStarts (fst (stopStream id st)) = pendingStarts st.
Proof.
  unfold stopStream. destruct (streams st !! id) as [s|]; [|done].
  destruct (decide (status s = Stopped)); [done|]. cbv zeta. cbn [fst].
  unfold saveConfig. change (pendingStarts (set_saved ?v ?x)) with (pendingStarts x).
  rewrite (update_stream_frame pendingStarts) by done.
  unfold _clearMonitoring, _clearSegmentHealthCheck, _clearScreenshotTimer,
    clearReconnectTimer, clearTimer, kill.
  repeat case_match; reflexivity.
Qed.

(** restartStream of an existing stream returns true and leaves the
    stream stopped, without a handle, with its restart counter at 0 and a
    timer of one second; when that timer fires the stream is started:
    the record is starting and the launch is under way. *)
Theorem restartStream_then_timer (env : Env) (now : Z) (o : Observation)
    (id : string) (st : State) (s : StreamRecord) :
  streams st !! id = Some s →
  let st1 := fst (restartStream id st) in
  let st2 := step env now (EvTimer (nextHandle st) o) st1 in
  snd (restartStream id st) = true ∧
  status_of id st1 = Some Stopped ∧
  (restarts ∘ stats) <$> streams st1 !! id = Some 0 ∧
  (status s ≠ Stopped → processes st1 !! id = None) ∧
  timers st1 !! nextHandle st = Some (mkTimer KRestart id 1000) ∧
  status_of id st2 = Some Starting ∧
  id ∈ pendingStarts st2 ∧
  timers st2 !! nextHandle st = None.
Proof.
  intros Hs. cbv zeta.
  assert (∃ s0, streams (fst (stopStream id st)) !! id = Some s0 ∧
                status s0 = Stopped ∧ snd (stopStream id st) = true ∧
                (status s ≠ Stopped →
                   processes (fst (stopStream id st)) !! id = None))
    as (s0 & Hs0 & Hst0 & Hok & Hproc).
  { destruct (decide (status s = Stopped)) as [E|Hne].
    - rewrite (stopStream_stopped id st s Hs E). exists s. by split_and!.
    - destruct (stopStream_effect id st s Hs Hne) as (E0 & E1 & E2).
      eexists. rewrite E1, lookup_insert_eq, E2, lookup_delete_eq.
      by split_and!. }
  unfold restartStream. rewrite Hs.
  destruct (stopStream id st) as [st0 ok] eqn:Hstop. cbn [fst snd] in *.
  subst ok. cbn [negb].
  pose proof (nextHandle_stopStream id st) as Hn. rewrite Hstop in Hn. cbn in Hn.
  pose proof (pendingStarts_stopStream id st) as Hp. rewrite Hstop in Hp. cbn in Hp.
  set (f := fun s1 : StreamRecord =>
              set_stats (mkStats (uptime (stats s1)) 0 (lastError (stats s1))
                           (lastRestart (stats s1))) s1).
  set (st1 := update_stream id f st0).
  assert (streams st1 !! id = Some (f s0)) as Hs1
    by (subst st1; by apply lookup_update_stream_eq).
  assert (nextHandle st1 = nextHandle st) as Hn1.
  { subst st1. by rewrite (update_stream_frame nextHandle). }
  unfold setTimer. cbn [fst snd]. rewrite Hn1.
  set (st1' := set_nextHandle _ _).
  assert (timers st1' !! nextHandle st = Some (mkTimer KRestart id 1000)) as Htm
    by (subst st1'; cbn; apply lookup_insert_eq).
  assert (streams st1' = streams st1) as E1 by done.
  assert (processes st1' = processes st0) as E2.
  { subst st1' st1. cbn. by rewrite (update_stream_frame processes). }
  unfold status_of. rewrite E1, Hs1, E2.
  cbn [fmap option_fmap option_map compose].
  assert (status (f s0) = Stopped) as Hst1 by done.
  assert (streams (clearTimer (nextHandle st) st1') !! id = Some (f s0)) as Hs2.
  { unfold clearTimer. change (streams (set_timers ?v ?x)) with (streams x).
    by rewrite E1. }
  destruct (startStream_effect (constructor env) id _ _ Hs2)
    as (_ & (s' & F1 & F2 & _) & _ & _ & _ & _ & F6 & _ & _ & _ & F7 & _);
    [by rewrite Hst1|].
  assert (step env now (EvTimer (nextHandle st) o) st1'
            = fst (startStream (constructor env) id (clearTimer (nextHandle st) st1')))
    as ->.
  { cbn [step]. rewrite Htm. reflexivity. }
  rewrite F1, F6, F7, lookup_insert_eq.
  cbn [fmap option_fmap option_map compose]. rewrite F2, Hst1.
  split_and!; try done.
  - apply elem_of_cons. by left.
  - unfold clearTimer. change (timers (set_timers ?v ?x)) with v.
    destruct (reconnectTimers _ !! id) as [h|].
    + rewrite lookup_delete. case_decide; [done|]. apply lookup_delete_eq.
    + apply lookup_delete_eq.
Qed.

(** ** The launch *)











(** ** Housekeeping *)

Lemma ascii_compare_N (a b : ascii) :
  Ascii.compare a b = N.compare (N_of_ascii a) (N_of_ascii b).
Proof. reflexivity. Qed.

Lemma string_leb_trans (a : string) :
  ∀ b c, String.leb a b = true → String.leb b c = true → String.leb a c = true.
Proof.
  unfold String.leb.
  induction a as [|x a IH]; intros [|y b] [|z c]; cbn; try done.
  rewrite !ascii_compare_N.
  destruct (N.compare_spec (N_of_ascii x) (N_of_ascii y)) as [E1|E1|E1];
    destruct (N.compare_spec (N_of_ascii y) (N_of_ascii z)) as [E2|E2|E2];
    destruct (N.compare_spec (N_of_ascii x) (N_of_ascii z)) as [E3|E3|E3];
    try done; try lia.
  apply IH.
Qed.

Lemma insert_by_name_perm x l : insert_by_name x l ≡ₚ x :: l.
Proof.
  induction l as [|y l IH]; [done|]. cbn.
  destruct (String.leb x y); [done|]. rewrite IH. apply Permutation_swap.
Qed.

Lemma sort_names_perm l : sort_names l ≡ₚ l.
Proof.
  induction l as [|x l IH]; [done|]. cbn.
  by rewrite insert_by_name_perm, IH.
Qed.

Lemma insert_by_name_sorted x l :
  StronglySorted (fun a b => String.leb a b = true) l →
  StronglySorted (fun a b => String.leb a b = true) (insert_by_name x l).
Proof.
  induction 1 as [|y l Hl IH Hy]; cbn.
  - repeat constructor.
  - destruct (String.leb x y) eqn:E.
    + constructor; [by constructor|]. constructor; [done|].
      eapply Forall_impl; [exact Hy|]. intros z Hz. cbn in Hz.
      by apply (string_leb_trans x y z).
    + constructor; [done|].
      rewrite insert_by_name_perm. constructor; [|done].
      destruct (String.leb_total x y) as [H|H]; [congruence|done].
Qed.

Lemma sort_names_sorted l :
  StronglySorted (fun a b => String.leb a b = true) (sort_names l).
Proof.
  induction l as [|x l IH]; [constructor|]. cbn. by apply insert_by_name_sorted.
Qed.

Lemma filter_ext_in {A} (P1 P2 : A → Prop)
    `{!∀ x, Decision (P1 x), !∀ x, Decision (P2 x)} (l : list A) :
  (∀ x, x ∈ l → (P1 x ↔ P2 x)) → filter P1 l = filter P2 l.
Proof.
  induction l as [|a l IH]; intros Hext; [done|].
  rewrite !filter_cons.
  rewrite IH by (intros x Hx; apply Hext; apply elem_of_cons; by right).
  apply decide_ext. apply Hext. apply elem_of_cons. by left.
Qed.

Lemma filter_all {A} (P : A → Prop) `{!∀ x, Decision (P x)} (l : list A) :
  (∀ x, x ∈ l → P x) → filter P l = l.
Proof.
  induction l as [|a l IH]; intros Hall; [done|].
  rewrite filter_cons_True by (apply Hall; apply elem_of_cons; by left).
  f_equal. apply IH. intros x Hx. apply Hall. apply elem_of_cons. by right.
Qed.

Lemma filter_not_in_take {A} `{EqDecision A} (n : nat) (l : list A) :
  NoDup l → filter (fun x => x ∉ take n l) l = drop n l.
Proof.
  revert n. induction l as [|x l IH]; intros n Hnd; [by destruct n|].
  apply NoDup_cons in Hnd as [Hx Hnd].
  destruct n as [|n]; cbn [take drop].
  - apply filter_all. intros y _. apply not_elem_of_nil.
  - rewrite filter_cons_False by (intros Hc; apply Hc; apply elem_of_cons; by left).
    rewrite <- (IH n Hnd). apply filter_ext_in.
    intros y Hy. split; intros Hc Hin.
    + apply Hc. apply elem_of_cons. by right.
    + apply elem_of_cons in Hin as [->|Hin]; [done|by apply Hc].
Qed.

(** The clean-up of the directory of a stream that is not running, for a
    listing without repeated names and a non-negative hlsListSize: files
    that are not segments are all kept; of the segment files at most
    hlsListSize remain, all of them when there were no more; and every
    segment file removed comes before every segment file kept in the
    order of the names.  The directory of a running stream is left as it
    is. *)
Theorem cleanupHlsDirectories_retention (hlsListSize : Z)
    (dirs : gmap string (list string)) (st : State) (id : string)
    (files : list string) :
  dirs !! id = Some files →
  NoDup files →
  0 <= hlsListSize →
  (status_of id st = Some Running →
     cleanupHlsDirectories hlsListSize dirs st !! id = Some files) ∧
  (status_of id st ≠ Some Running →
     ∃ files',
       cleanupHlsDirectories hlsListSize dirs st !! id = Some files' ∧
       filter (fun f => endsWith ".ts" f ≠ true) files'
         = filter (fun f => endsWith ".ts" f ≠ true) files ∧
       length (filter (fun f => endsWith ".ts" f = true) files')
         = Nat.min (length (filter (fun f => endsWith ".ts" f = true) files))
                   (Z.to_nat hlsListSize) ∧
       (∀ f, f ∈ files' → f ∈ files) ∧
       (∀ d k, d ∈ files → d ∉ files' → k ∈ files' → endsWith ".ts" k = true →
               String.leb d k = true)).
Proof.
  intros Hdir Hnd Hsize. unfold cleanupHlsDirectories.
  rewrite map_lookup_imap, Hdir. cbn.
  split.
  - intros Hrun. by rewrite bool_decide_eq_true_2.
  - intros Hnot. rewrite bool_decide_eq_false_2 by done.
    eexists. split; [reflexivity|].
    set (ts := fun f : string => endsWith ".ts" f = true).
    set (L := filter ts files).
    set (S := sort_names L).
    assert (NoDup L) as HndL by (by apply NoDup_filter).
    assert (NoDup S) as HndS by (subst S; by rewrite sort_names_perm).
    assert (length S = length L) as HlenS by (subst S; by rewrite sort_names_perm).
    assert (∀ f, f ∈ filesToDelete hlsListSize files → f ∈ L) as Hold.
    { intros f. unfold filesToDelete. fold ts. fold L. fold S.
      destruct (hlsListSize <? Z.of_nat (length L)); [|by intros ?%elem_of_nil].
      intros Hin%elem_of_take. destruct Hin as (i & Hi & _).
      apply list_elem_of_lookup_2 in Hi. subst S. by rewrite sort_names_perm in Hi. }
    split_and!.
    + rewrite list_filter_filter. apply list_filter_iff.
      intros f. split; [by intros [? _]|].
      intros Hnts. split; [done|]. intros Hin. apply Hold in Hin.
      apply list_elem_of_filter in Hin as [Hts _]. done.
    + rewrite list_filter_filter.
      transitivity (length (filter (fun f => f ∉ filesToDelete hlsListSize files) L)).
      { subst L. rewrite list_filter_filter. f_equal. apply list_filter_iff.
        intros f. tauto. }
      unfold filesToDelete. fold ts. fold L. fold S.
      destruct (hlsListSize <? Z.of_nat (length L)) eqn:E.
      * apply Z.ltb_lt in E.
        set (n := Z.to_nat (Z.of_nat (length L) - hlsListSize)).
        transitivity (length (filter (fun f => f ∉ take n S) S)).
        { apply Permutation_length. symmetry.
          apply (filter_Permutation _). apply sort_names_perm. }
        rewrite filter_not_in_take by done. rewrite length_drop. lia.
      * apply Z.ltb_ge in E.
        rewrite filter_all; [lia|].
        intros f _. apply not_elem_of_nil.
    + intros f Hf. by apply list_elem_of_filter in Hf as [_ ?].
    + intros d k Hd Hgone Hk Hts.
      apply list_elem_of_filter in Hk as [Hkeep Hkin].
      assert (d ∈ filesToDelete hlsListSize files) as Hdel.
      { destruct (decide (d ∈ filesToDelete hlsListSize files)); [done|].
        exfalso. apply Hgone. by apply list_elem_of_filter. }
      revert Hdel Hkeep. unfold filesToDelete. fold ts. fold L. fold S.
      destruct (hlsListSize <? Z.of_nat (length L)); [|by intros ?%elem_of_nil].
      set (n := Z.to_nat (Z.of_nat (length L) - hlsListSize)).
      intros Hdel Hkeep.
      assert (k ∈ S) as HkS.
      { subst S. rewrite sort_names_perm. by apply list_elem_of_filter. }
      rewrite <- (take_drop n S) in HkS.
      apply elem_of_app in HkS as [?|HkS]; [done|].
      pose proof (sort_names_sorted L) as Hsorted. fold S in Hsorted.
      rewrite <- (take_drop n S) in Hsorted.
      by apply (StronglySorted_app_1_elem_of _ _ _ d k Hsorted).
Qed.

Lemma cleanupHlsDirectories_retention_witness :
  cleanupHlsDirectories 2
    {[ "cam9" := ["playlist.m3u8"; "segment_003.ts"; "segment_001.ts";
                  "segment_002.ts"; "segment_004.ts"] ]} sample_running !! "cam9"
    = Some ["playlist.m3u8"; "segment_003.ts"; "segment_004.ts"] ∧
  ∃ files',
    cleanupHlsDirectories 2
      {[ "cam9" := ["playlist.m3u8"; "segment_003.ts"; "segment_001.ts";
                    "segment_002.ts"; "segment_004.ts"] ]} sample_running !! "cam9"
      = Some files' ∧
    length (filter (fun f => endsWith ".ts" f = true) files') = 2%nat.
Proof.
  split; [reflexivity|].
  destruct (cleanupHlsDirectories_retention 2
              {[ "cam9" := ["playlist.m3u8"; "segment_003.ts"; "segment_001.ts";
                            "segment_002.ts"; "segment_004.ts"] ]}
              sample_running "cam9"
              ["playlist.m3u8"; "segment_003.ts"; "segment_001.ts";
               "segment_002.ts"; "segment_004.ts"]) as [_ H].
  - reflexivity.
  - apply (bool_decide_eq_true_1 _). reflexivity.
  - lia.
  - destruct H as (files' & H1 & _ & H2 & _).
    + assert (status_of "cam9" sample_running = None) as -> by evaluated.
      discriminate.
    + exists files'. split; [exact H1|exact H2].
Defined.

(** ** The properties above, at the sample streams *)

Lemma awaits_reconnect_sample_crashed : awaits_reconnect "cam1" 1 sample_crashed.
Proof.
  unfold awaits_reconnect. split_and!.
  - exists (record_of "cam1" sample_crashed). split.
    + apply lookup_record_of. evaluated.
    + evaluated.
  - evaluated.
  - exists 6%nat, (backoffDelay (constructor default_env) 0). split_and!.
    + evaluated.
    + evaluated.
    + intros h' t.
      assert (map_Forall (fun h (t : Timer) =>
                t_kind t = KReconnect → t_owner t = "cam1" → h = 6%nat)
                (timers sample_crashed)) as H
        by (apply (bool_decide_eq_true_1 _); reflexivity).
      intros Ht. exact (H h' t Ht).
  - evaluated.
Qed.

Lemma reconnect_gives_up_witness :
  awaits_reconnect "cam1" 1 sample_crashed ∧
  reconnect_exhausted "cam1"
    (reconnect_rounds default_env failed_probe "cam1" ten_rounds sample_crashed).
Proof.
  split; [exact awaits_reconnect_sample_crashed|].
  apply (reconnect_gives_up default_env failed_probe "cam1" ten_rounds 1%nat).
  - exact awaits_reconnect_sample_crashed.
  - reflexivity.
  - apply Nat.leb_le. reflexivity.
Defined.

Lemma reconnect_round_succeeds_witness :
  status_of "cam1" sample_crashed = Some Error ∧
  status_of "cam1"
    (reconnect_round default_env (ProbeClosed 0 "") "cam1" sample_crashed (10000, 10100))
    = Some Starting ∧
  attempts_of "cam1"
    (reconnect_round default_env (ProbeClosed 0 "") "cam1" sample_crashed (10000, 10100))
    = 0%nat.
Proof.
  assert (status_of "cam1" sample_crashed = Some Error) as Hst by evaluated.
  split; [exact Hst|].
  destruct (reconnect_round_succeeds default_env (ProbeClosed 0 "") "cam1" 1%nat
              sample_crashed (10000, 10100)) as (H1 & H2 & _).
  - exact awaits_reconnect_sample_crashed.
  - rewrite Hst. discriminate.
  - reflexivity.
  - split; [exact H1|exact H2].
Defined.

Lemma importConfig_overwrite_replaces_witness :
  status_of "cam1" sample_running = Some Running ∧
  streams
    (importConfig (constructor default_env) 50000 ["cam1"]
       [("cam2", mkBackupStream "Gate" "http://src/gate.m3u8" None None)]
       true false sample_running) !! "cam1" = None ∧
  processes
    (importConfig (constructor default_env) 50000 ["cam1"]
       [("cam2", mkBackupStream "Gate" "http://src/gate.m3u8" None None)]
       true false sample_running) !! "cam1" = None ∧
  status_of "cam2"
    (importConfig (constructor default_env) 50000 ["cam1"]
       [("cam2", mkBackupStream "Gate" "http://src/gate.m3u8" None None)]
       true false sample_running) = Some Starting.
Proof.
  assert (status_of "cam1" sample_running = Some Running) as Hst by evaluated.
  split; [exact Hst|].
  destruct (importConfig_overwrite_replaces (constructor default_env) 50000 ["cam1"]
              [("cam2", mkBackupStream "Gate" "http://src/gate.m3u8" None None)]
              true sample_running) as (H1 & H2 & H3).
  - apply NoDup_singleton.
  - split_and!.
    + apply H1. apply (bool_decide_eq_true_1 _). reflexivity.
    + apply H3; [|exact Hst]. apply list_elem_of_singleton. reflexivity.
    + destruct (H2 "cam2" (mkBackupStream "Gate" "http://src/gate.m3u8" None None))
        as (s' & E & _ & _ & _ & _ & _ & E' & _).
      * apply list_elem_of_singleton. reflexivity.
      * unfold status_of. rewrite E. cbn. by rewrite E'.
Defined.

Lemma analyzeStreamResolution_selected_witness :
  selectedResolution (record_of "cam1" sample_low_running) = Some "320x240" ∧
  (streamInfo (record_of "cam1" sample_low_running) ≫= (.!! "resolution"))
    = Some (JStr "240p") ∧
  _analyzeStreamResolution "cam1" None [] (fun _ => 0) sample_low_running
    = Some "320x240".
Proof.
  split; [evaluated|]. split; [evaluated|].
  apply (analyzeStreamResolution_selected "cam1" sample_low_running
           (record_of "cam1" sample_low_running) "data/hls/cam1" "320x240" 240 None []
           (fun _ => 0)).
  - apply lookup_record_of. evaluated.
  - evaluated.
  - discriminate.
  - apply (bool_decide_eq_true_1 _). reflexivity.
  - evaluated.
  - discriminate.
  - reflexivity.
  - reflexivity.
Defined.

Lemma restartStream_then_timer_witness :
  status_of "cam1" (fst (restartStream "cam1" sample_running)) = Some Stopped ∧
  timers (fst (restartStream "cam1" sample_running)) !! nextHandle sample_running
    = Some (mkTimer KRestart "cam1" 1000) ∧
  status_of "cam1"
    (step default_env 4000 (EvTimer (nextHandle sample_running) no_observation)
       (fst (restartStream "cam1" sample_running))) = Some Starting.
Proof.
  destruct (restartStream_then_timer default_env 4000 no_observation "cam1"
              sample_running (record_of "cam1" sample_running))
    as (_ & H1 & _ & _ & H2 & H3 & _).
  - apply lookup_record_of. evaluated.
  - by split_and!.
Defined.

